(** * Command-line data utilities: conversion, statistics, word count, sales

    A shallow embedding of the four Python tools
    ([convert_numbers.py], [compute_statistics.py], [word_count.py],
    [A5.2/compute_sales.py]) and the properties of their validation and
    aggregation logic.

    Conventions of the embedding:
    - a Python [int] is a [Z]; a Python [float] is a binary64 [PrimFloat.float];
    - a Python [str] is a [string], each character a code point below 256;
    - a [list] is a [list]; a [dict] is an association list in insertion order;
    - a function that can raise returns a [result];
    - a [while] loop is a fuelled recursion that returns [None] when the fuel
      runs out before the loop condition turns false;
    - the file system is a record of what the run finds there, and a file is
      the text it decodes to, or the error that opening or decoding it
      raises;
    - a report is the values it shows, not the text that renders them;
    - the builtin [float()] and the arithmetic of pandas columns are
      parameters; a pandas frame is a list of rows of scalar cells, NaN is
      [None];
    - standard output accepts every text that is printed. *)

From Stdlib Require Import ZArith List Bool Lia Arith.
From Stdlib Require Import Ascii String.
From Stdlib Require Import Permutation Sorted.
From Stdlib Require OrderedTypeEx.
From Stdlib Require Import Floats.
Import ListNotations.

Set Implicit Arguments.

(* ================================================================== *)
(** * Python runtime: exceptions, strings *)
(* ================================================================== *)

Module Py.

(** The exceptions that the modelled code can raise. [UnicodeDecodeError]
    is a [ValueError] in Python's hierarchy and [FileNotFoundError] an
    [OSError]; [AttributeError] and [TypeError] are what a method call or a
    pandas function raises on a value of the wrong kind. *)
Inductive exn : Type :=
| IndexError
| ZeroDivisionError
| ValueError
| UnicodeDecodeError
| OSError
| FileNotFoundError
| AttributeError
| TypeError.

Inductive result (A : Type) : Type :=
| Ok (a : A)
| Raise (e : exn).
Arguments Ok {A} a.
Arguments Raise {A} e.

Definition bind {A B} (r : result A) (k : A -> result B) : result B :=
  match r with
  | Ok a => k a
  | Raise e => Raise e
  end.

(** What a path holds when the program opens it for reading with
    [encoding="utf-8"]. The text tools catch the first two failures inside
    the parser; the third one escapes them. *)
Inductive file : Type :=
| NoSuchFile              (* open raises FileNotFoundError *)
| Unreadable              (* open raises another OSError *)
| Undecodable             (* the bytes are not UTF-8: reading raises
                             UnicodeDecodeError *)
| Contents (text : string).

Definition undecodable (f : file) : bool :=
  match f with Undecodable => true | _ => false end.

Open Scope char_scope.

Definition LF : ascii := "010".
Definition CR : ascii := "013".

(** [str.isspace] on one character (code points below 256): TAB, LF, VT,
    FF, CR, FS, GS, RS, US, SPACE, NEL and NBSP. *)
Definition is_space (c : ascii) : bool :=
  let n := nat_of_ascii c in
  ((9 <=? n) && (n <=? 13) || (28 <=? n) && (n <=? 32)
   || (n =? 133) || (n =? 160))%nat.

(** [str.lower] on one character: A-Z, and the upper-case letters of
    Latin-1 (0xC0-0xDE without the multiplication sign 0xD7). *)
Definition lower_char (c : ascii) : ascii :=
  let n := nat_of_ascii c in
  if ((65 <=? n) && (n <=? 90)
      || (192 <=? n) && (n <=? 222) && negb (n =? 215))%nat
  then ascii_of_nat (n + 32) else c.

Open Scope string_scope.

Definition is_empty (s : string) : bool :=
  match s with EmptyString => true | String _ _ => false end.

Fixpoint lower (s : string) : string :=
  match s with
  | EmptyString => EmptyString
  | String c s' => String (lower_char c) (lower s')
  end.

Fixpoint lstrip (s : string) : string :=
  match s with
  | EmptyString => EmptyString
  | String c s' => if is_space c then lstrip s' else s
  end.

Fixpoint rstrip (s : string) : string :=
  match s with
  | EmptyString => EmptyString
  | String c s' =>
      let r := rstrip s' in
      if is_empty r && is_space c then EmptyString else String c r
  end.

(** [s.strip()] *)
Definition strip (s : string) : string := rstrip (lstrip s).

Definition cons_nonempty (t : string) (ts : list string) : list string :=
  if is_empty t then ts else t :: ts.

(** Scans [s] from the right; the first component is the piece that touches
    the start of [s], the second the pieces after the first separator. *)
Fixpoint split_on_scan (sep : ascii) (s : string) : string * list string :=
  match s with
  | EmptyString => (EmptyString, [])
  | String c s' =>
      let '(t, ts) := split_on_scan sep s' in
      if Ascii.eqb c sep then (EmptyString, t :: ts) else (String c t, ts)
  end.

(** [s.split(sep)] for a one-character separator: empty pieces are kept. *)
Definition split_on (sep : ascii) (s : string) : list string :=
  let '(t, ts) := split_on_scan sep s in t :: ts.

Fixpoint split_ws_scan (s : string) : string * list string :=
  match s with
  | EmptyString => (EmptyString, [])
  | String c s' =>
      let '(t, ts) := split_ws_scan s' in
      if is_space c then (EmptyString, cons_nonempty t ts)
      else (String c t, ts)
  end.

(** [s.split()]: pieces between runs of whitespace, none of them empty. *)
Definition split_ws (s : string) : list string :=
  let '(t, ts) := split_ws_scan s in cons_nonempty t ts.

(** Universal newlines, as a text-mode [open] applies them: CR LF and a
    lone CR are read as LF. *)
Fixpoint translate_newlines (s : string) : string :=
  match s with
  | EmptyString => EmptyString
  | String c s' =>
      if Ascii.eqb c CR then
        String LF (match s' with
                   | EmptyString => EmptyString
                   | String c' s'' =>
                       if Ascii.eqb c' LF then translate_newlines s''
                       else translate_newlines s'
                   end)
      else String c (translate_newlines s')
  end.

Fixpoint lines_scan (s : string) : string * list string :=
  match s with
  | EmptyString => (EmptyString, [])
  | String c s' =>
      let '(l, ls) := lines_scan s' in
      if Ascii.eqb c LF then (String LF EmptyString, cons_nonempty l ls)
      else (String c l, ls)
  end.

(** [for raw_line in file]: the lines of a text, each with its LF. *)
Definition readlines (text : string) : list string :=
  let '(l, ls) := lines_scan (translate_newlines text) in cons_nonempty l ls.

(** [os.path.basename(path)]: what follows the last slash. *)
Definition basename (path : string) : string :=
  last (split_on "/" path) EmptyString.

(** ["".join(chars)] *)
Fixpoint join_chars (cs : list ascii) : string :=
  match cs with
  | [] => EmptyString
  | c :: cs' => String c (join_chars cs')
  end.

Definition startswith (s pre : string) : bool := String.prefix pre s.

Definition endswith (s suf : string) : bool :=
  let n := String.length s in
  let m := String.length suf in
  (m <=? n)%nat && String.eqb (substring (n - m) m s) suf.

(** [os.path.isabs] and [os.path.join] of two parts, on POSIX paths. *)
Definition isabs (path : string) : bool := startswith path "/".

Definition path_join (folder name : string) : string :=
  if isabs name then name
  else if is_empty folder || endswith folder "/" then folder ++ name
  else folder ++ "/" ++ name.

(** Sorting, as an insertion sort: [before x y] says that [x] goes in front
    of [y] when it meets it. *)
Fixpoint insert_by {A : Type} (before : A -> A -> bool) (x : A) (l : list A)
  : list A :=
  match l with
  | [] => [x]
  | y :: l' => if before x y then x :: l else y :: insert_by before x l'
  end.

Definition sort_by {A : Type} (before : A -> A -> bool) (l : list A)
  : list A :=
  fold_right (insert_by before) [] l.

(** [files.sort()] on strings. *)
Definition sort_paths (l : list string) : list string :=
  sort_by String.ltb l.

(** What a run finds outside the program: which paths are folders, what
    [os.listdir] gives for a folder (the names, or the [OSError] it raises
    on a folder that cannot be listed), what each path holds, whether
    [os.makedirs] of the output folder and the final [open(path, "w")]
    succeed, and the repository root that the script's own location gives.
    Standard output is taken to accept every text printed. *)
Record filesystem : Type := MkFs {
  fs_isdir : string -> bool;
  fs_listdir : string -> result (list string);
  fs_open : string -> file;
  fs_makedirs_ok : bool;
  fs_write_ok : bool;
  fs_repo_root : string
}.

(** [list_tc_files], the same in the three text tools. *)
Definition is_tc_name (name : string) : bool :=
  let lower_name := lower name in
  startswith lower_name "tc" && endswith lower_name ".txt".

Definition list_tc_files (fs : filesystem) (folder_path : string)
  : result (list string) :=
  bind (fs_listdir fs folder_path) (fun names =>
  Ok (sort_paths (map (path_join folder_path) (filter is_tc_name names)))).

Definition resolve_input_path (fs : filesystem) (input_path : string)
  : string :=
  if isabs input_path then input_path
  else path_join (fs_repo_root fs) input_path.

(** The files that a [main] goes through: the TC files of a folder, or the
    one path it was given. *)
Definition input_files (fs : filesystem) (input_path : string)
  : result (list string) :=
  if fs_isdir fs input_path then list_tc_files fs input_path
  else Ok [input_path].

(** A [for file_path in files] loop that collects a section and the errors
    of each file. *)
Fixpoint for_each_file {S E : Type}
    (process : string -> result (S * list E)) (paths : list string)
  : result (list S * list E) :=
  match paths with
  | [] => Ok ([], [])
  | path :: rest =>
      bind (process path) (fun '(section, errors) =>
      bind (for_each_file process rest) (fun '(sections, all_errors) =>
      Ok (section :: sections, (errors ++ all_errors)%list)))
  end.

(** The errors of the files that the loop handled before one of them
    raised. *)
Fixpoint errors_before_failure {S E : Type}
    (process : string -> result (S * list E)) (paths : list string)
  : list E :=
  match paths with
  | [] => []
  | path :: rest =>
      match process path with
      | Ok (_, errors) =>
          (errors ++ errors_before_failure process rest)%list
      | Raise _ => []
      end
  end.

End Py.

Import Py.

(** One line of the error list a tool prints: the texts are
    ["<file> - line <n>: '<token>' skipped"], ["File not found: <path>"],
    ["Could not read file '<path>': ..."] and, in the word counter,
    ["<file> - Empty line at line <n>"] and
    ["Error opening or reading file: <path>"]. *)
Inductive error_record : Type :=
| Skipped (file_name : string) (line_no : Z) (token : string)
| FileNotFound (path : string)
| CouldNotRead (path : string)
| EmptyLine (file_name : string) (line_no : Z)
| ErrorOpening (path : string).

(** ** The tokens of a text and their classification, as the spec words
    them: each line split on commas, each piece split on whitespace; a token
    is valid when [classify] gives it a value. *)
Definition file_tokens (text : string) : list string :=
  flat_map (fun raw_line => flat_map split_ws (split_on "," (strip raw_line)))
           (readlines text).

Definition valid_values {A : Type} (classify : string -> option A)
    (tokens : list string) : list A :=
  flat_map (fun t => match classify t with Some v => [v] | None => [] end)
           tokens.

Definition invalid_tokens {A : Type} (classify : string -> option A)
    (tokens : list string) : list string :=
  filter (fun t => match classify t with Some _ => false | None => true end)
         tokens.

(** The tokens that the token-level records of an error list name. *)
Definition skipped_tokens (errors : list error_record) : list string :=
  flat_map (fun e => match e with Skipped _ _ t => [t] | _ => [] end) errors.

(** A token of [s.split()]: not empty, no whitespace in it. *)
Definition clean_token (t : string) : Prop :=
  t <> ""%string
  /\ forall c, In c (list_ascii_of_string t) -> is_space c = false.

(** Error records that name exactly the tokens [ts], one each. *)
Definition records_of (ts : list string) (errors : list error_record) : Prop :=
  skipped_tokens errors = ts /\ List.length errors = List.length ts.

(** An error record that names its place: a token of line [k] of
    [raw_lines], the lines numbered from [first + 1]. *)
Definition located_in (name : string) (raw_lines : list string) (first : Z)
    (e : error_record) : Prop :=
  exists (k : Z) (t : string),
    e = Skipped name k t
    /\ (first < k <= first + Z.of_nat (List.length raw_lines))%Z
    /\ In t (flat_map split_ws
               (split_on ","
                  (strip (nth (Z.to_nat (k - first - 1)) raw_lines
                              EmptyString)))).

(** The exit status of a run: what [main] returns to [SystemExit], or an
    exception that nothing catches. *)
Inductive outcome : Type :=
| Exit (code : Z)
| Uncaught (e : exn).

(** The exit status of the process: what [main] returned, or 1 when the
    interpreter ends on an exception that nothing caught, after printing
    the traceback. *)
Definition exit_code (o : outcome) : Z :=
  match o with
  | Exit code => code
  | Uncaught _ => 1
  end.

(** What [main] leaves behind: the exit status, the error lines printed and
    the sections of the report. *)
Record run (S : Type) : Type := MkRun {
  status : outcome;
  printed_errors : list error_record;
  sections : list S
}.

(** The frame that the [main] functions of the three text tools share:
    the argument check, the output folder, folder or single file, the
    report written at the end. [resolve] is [resolve_input_path] where the
    tool has it. An exception of [os.listdir] or of the step for one file
    is caught nowhere: the run ends there and no report is written;
    [prints_per_file] tells whether the tool has by then printed the
    errors of the files before (the word counter prints inside its loop,
    the other two after it). *)
Definition text_tool_main {S : Type} (fs : filesystem)
    (resolve : string -> string) (prints_per_file : bool)
    (process : string -> result (S * list error_record))
    (argv : list string) : run S :=
  match argv with
  | [] | [_] => MkRun (Exit 2) [] []
  | _ :: arg :: _ =>
      let input_path := resolve arg in
      if negb (fs_makedirs_ok fs) then MkRun (Uncaught OSError) [] []
      else
        match input_files fs input_path with
        | Raise e => MkRun (Uncaught e) [] []
        | Ok [] => MkRun (Exit 1) [] []
        | Ok ((_ :: _) as paths) =>
            match for_each_file process paths with
            | Raise e =>
                MkRun (Uncaught e)
                      (if prints_per_file
                       then errors_before_failure process paths else [])
                      []
            | Ok (report, all_errors) =>
                MkRun (if fs_write_ok fs then Exit 0 else Uncaught OSError)
                      all_errors report
            end
        end
  end.

(* ================================================================== *)
(** * convert_numbers.py *)
(* ================================================================== *)

Module ConvertNumbers.

Open Scope list_scope.
Open Scope Z_scope.

Definition HEX_DIGITS : string := "0123456789ABCDEF".

(** [ch < "0" or ch > "9"], negated. *)
Definition is_digit (ch : ascii) : bool :=
  negb ((nat_of_ascii ch <? 48)%nat || (57 <? nat_of_ascii ch)%nat).

(** The [for ch in token[start:]] loop of [is_valid_integer_token]. *)
Fixpoint all_digits (s : string) : bool :=
  match s with
  | EmptyString => true
  | String ch s' => if is_digit ch then all_digits s' else false
  end.

Definition is_sign (ch : ascii) : bool :=
  (Ascii.eqb ch "+" || Ascii.eqb ch "-")%char.

Definition is_valid_integer_token (token : string) : result bool :=
  if (String.eqb token "+" || String.eqb token "-")%string then Ok false
  else
    match String.get 0 token with
    | None => Raise IndexError
    | Some c0 =>
        let start := if is_sign c0 then 1%nat else 0%nat in
        if (String.length token <=? start)%nat then Ok false
        else Ok (all_digits
                   (substring start (String.length token - start) token))
    end.

(** The value of a string of decimal digits, most significant first. *)
Fixpoint decimal_value (acc : Z) (s : string) : Z :=
  match s with
  | EmptyString => acc
  | String ch s' =>
      decimal_value (10 * acc + Z.of_nat (nat_of_ascii ch - 48)) s'
  end.

(** The digits of a numeral: the token without its sign. *)
Definition numeral_digits (token : string) : string :=
  match token with
  | String c0 rest => if is_sign c0 then rest else token
  | EmptyString => token
  end.

(** [sys.int_info.str_digits_check_threshold]: [int] counts the digits of
    a decimal numeral against the limit only when there are more of them
    than this, and the interpreter accepts no limit below it, 0 apart. *)
Definition str_digits_check_threshold : nat := 640.

Section Int.

(** [sys.get_int_max_str_digits()]: 4300 by default since Python 3.11,
    0 for no limit. *)
Variable int_max_str_digits : nat.

(** Whether [int] refuses a numeral for its length: the sign is not
    counted. *)
Definition over_digit_limit (token : string) : bool :=
  (negb (int_max_str_digits =? 0)
   && (str_digits_check_threshold <? String.length (numeral_digits token))
   && (int_max_str_digits <? String.length (numeral_digits token)))%nat.

(** [int(token)] on the tokens that reach it (a sign and decimal digits):
    it raises [ValueError] on anything else, and on a numeral longer than
    the interpreter's limit. *)
Definition int_of_token (token : string) : result Z :=
  let '(negative, digits) :=
    match token with
    | String c0 rest =>
        if is_sign c0 then (Ascii.eqb c0 "-", rest) else (false, token)
    | EmptyString => (false, token)
    end in
  if is_empty digits || negb (all_digits digits) then Raise ValueError
  else if (negb (int_max_str_digits =? 0)
           && (str_digits_check_threshold <? String.length digits)
           && (int_max_str_digits <? String.length digits))%nat
       then Raise ValueError
  else Ok (if negative then - decimal_value 0 digits
           else decimal_value 0 digits).

(** The body of [for token in tokens] in [parse_integers_from_file]. *)
Definition parse_token (file_name : string) (line_no : Z)
    (acc : list Z * list error_record) (token : string)
  : result (list Z * list error_record) :=
  let '(numbers, errors) := acc in
  let token_stripped := strip token in
  if is_empty token_stripped then Ok acc
  else
    bind (is_valid_integer_token token_stripped) (fun valid =>
      if negb valid then
        Ok (numbers, errors ++ [Skipped file_name line_no token_stripped])
      else
        match int_of_token token_stripped with
        | Ok n => Ok (numbers ++ [n], errors)
        | Raise ValueError =>
            Ok (numbers,
                errors ++ [Skipped file_name line_no token_stripped])
        | Raise e => Raise e
        end).

Fixpoint parse_tokens (file_name : string) (line_no : Z)
    (tokens : list string) (acc : list Z * list error_record)
  : result (list Z * list error_record) :=
  match tokens with
  | [] => Ok acc
  | token :: rest =>
      bind (parse_token file_name line_no acc token)
           (parse_tokens file_name line_no rest)
  end.

(** [tokens] of one stripped line: split on commas, then on whitespace. *)
Definition line_tokens (line : string) : list string :=
  flat_map split_ws (split_on "," line).

(** The body of [for raw_line in file], with [line_no] the count of the
    lines read before this one. *)
Fixpoint parse_lines (file_name : string) (line_no : Z)
    (raw_lines : list string) (acc : list Z * list error_record)
  : result (list Z * list error_record) :=
  match raw_lines with
  | [] => Ok acc
  | raw_line :: rest =>
      let line_no := line_no + 1 in
      let line := strip raw_line in
      if is_empty line then parse_lines file_name line_no rest acc
      else
        bind (parse_tokens file_name line_no (line_tokens line) acc)
             (parse_lines file_name line_no rest)
  end.

(** The integer that a token stands for, when the tool takes it as one. *)
Definition integer_value (token : string) : option Z :=
  match is_valid_integer_token token with
  | Ok true =>
      match int_of_token token with
      | Ok n => Some n
      | Raise _ => None
      end
  | _ => None
  end.

Definition parse_integers_from_file (path : string) (f : file)
  : result (list Z * list error_record) :=
  match f with
  | Contents text => parse_lines (basename path) 0 (readlines text) ([], [])
  | NoSuchFile => Ok ([], [FileNotFound path])
  | Unreadable => Ok ([], [CouldNotRead path])
  | Undecodable => Raise UnicodeDecodeError
  end.

End Int.

(** ["1" if remainder == 1 else "0"] *)
Definition bit_of (remainder : Z) : ascii :=
  if remainder =? 1 then "1"%char else "0"%char.

(** [HEX_DIGITS[remainder]] *)
Definition hex_digit_of (remainder : Z) : ascii :=
  match String.get (Z.to_nat remainder) HEX_DIGITS with
  | Some c => c
  | None => "?"%char
  end.

(** One turn of the loop body, on the loop variable and the digits appended
    so far:
    [remainder = n % base; digits.append(digit(remainder)); n //= base]. *)
Definition loop_body (base : Z) (digit : Z -> ascii)
    (st : Z * list ascii) : Z * list ascii :=
  let '(n, digits) := st in
  let remainder := n mod base in
  (n / base, digits ++ [digit remainder]).

(** [while n > 0: <loop_body>], at most [fuel] turns. *)
Fixpoint digits_loop (base : Z) (digit : Z -> ascii) (fuel : nat)
    (st : Z * list ascii) : option (list ascii) :=
  if fst st >? 0 then
    match fuel with
    | O => None
    | S fuel' => digits_loop base digit fuel' (loop_body base digit st)
    end
  else Some (snd st).

Definition convert_fuel (base : Z) (digit : Z -> ascii) (fuel : nat)
    (number : Z) : option string :=
  if number =? 0 then Some "0"%string
  else
    let '(sign, n) :=
      if number <? 0 then ("-"%string, - number) else (""%string, number) in
    match digits_loop base digit fuel (n, []) with
    | Some digits => Some (sign ++ join_chars (rev digits))%string
    | None => None
    end.

Definition to_binary_str_fuel : nat -> Z -> option string :=
  convert_fuel 2 bit_of.

Definition to_hex_str_fuel : nat -> Z -> option string :=
  convert_fuel 16 hex_digit_of.

(** Iterations that the loops are given: one more than the bit length. *)
Definition loop_bound (number : Z) : nat :=
  S (Z.to_nat (Z.log2 (Z.abs number))).

Definition to_binary_str (number : Z) : string :=
  match to_binary_str_fuel (loop_bound number) number with
  | Some s => s
  | None => ""%string
  end.

Definition to_hex_str (number : Z) : string :=
  match to_hex_str_fuel (loop_bound number) number with
  | Some s => s
  | None => ""%string
  end.

(** ** The reading of a numeral, for the round trip

    The value of one digit character, and of a string of digits in a base,
    most significant digit first; [None] on a character that is no digit of
    the base, and on the empty string. *)
Definition digit_value (c : ascii) : option Z :=
  let n := Z.of_nat (nat_of_ascii c) in
  if (48 <=? n) && (n <=? 57) then Some (n - 48)
  else if (65 <=? n) && (n <=? 70) then Some (n - 55)
  else None.

Fixpoint parse_digits (base : Z) (acc : Z) (s : string) : option Z :=
  match s with
  | EmptyString => Some acc
  | String c s' =>
      match digit_value c with
      | Some d => if d <? base then parse_digits base (acc * base + d) s'
                  else None
      | None => None
      end
  end.

Definition parse_numeral (base : Z) (s : string) : option Z :=
  if is_empty s then None else parse_digits base 0 s.

(** The sign and the magnitude part of an output string. *)
Definition has_minus (s : string) : bool :=
  match s with
  | String c _ => Ascii.eqb c "-"
  | EmptyString => false
  end.

Definition magnitude_part (s : string) : string :=
  match s with
  | String c rest => if Ascii.eqb c "-" then rest else s
  | EmptyString => s
  end.

(** ** The pattern [[+-]?[0-9]+], for the validity check *)
Definition decimal_digits : list ascii :=
  list_ascii_of_string "0123456789".

Definition matches_integer_pattern (token : string) : Prop :=
  exists sign digits : string,
    token = (sign ++ digits)%string
    /\ (sign = ""%string \/ sign = "+"%string \/ sign = "-"%string)
    /\ digits <> ""%string
    /\ Forall (fun c => In c decimal_digits) (list_ascii_of_string digits).

(** A row of the report, [f"{num}\t{bin_str}\t{hex_str}"]. *)
Definition convert_rows (numbers : list Z) : list (Z * string * string) :=
  map (fun num => (num, to_binary_str num, to_hex_str num)) numbers.

Section Main.

Variable int_max_str_digits : nat.
Variable fs : filesystem.

Definition convert_file (file_path : string)
  : result (string * list (Z * string * string) * list error_record) :=
  bind (parse_integers_from_file int_max_str_digits file_path
                                 (fs_open fs file_path))
       (fun '(numbers, errors) =>
          Ok (basename file_path, convert_rows numbers, errors)).

Definition main (argv : list string)
  : run (string * list (Z * string * string)) :=
  text_tool_main fs (resolve_input_path fs) false convert_file argv.

End Main.

End ConvertNumbers.

(* ================================================================== *)
(** * compute_statistics.py *)
(* ================================================================== *)

Module ComputeStatistics.

Open Scope list_scope.
Open Scope Z_scope.

(** The [int] to [float] conversion of [float / int]: exact rounding to
    nearest for every count below 2^63, which no list length reaches. *)
Definition float_of_int (count : Z) : float :=
  PrimFloat.of_uint63 (Uint63.of_Z count).

(** [total / count]: Python raises on a zero divisor. *)
Definition truediv (total : float) (count : Z) : result float :=
  if count =? 0 then Raise ZeroDivisionError
  else Ok (total / float_of_int count)%float.

Definition compute_mean (values : list float) : result float :=
  let '(total, count) :=
    fold_left (fun '(total, count) value => ((total + value)%float, count + 1))
              values (0%float, 0) in
  truediv total count.

(** [values[i]], with Python's negative indices. *)
Definition index (values : list float) (i : Z) : result float :=
  let n := Z.of_nat (List.length values) in
  let j := if i <? 0 then i + n else i in
  if (j <? 0) || (n <=? j) then Raise IndexError
  else match nth_error values (Z.to_nat j) with
       | Some v => Ok v
       | None => Raise IndexError
       end.

Definition compute_median (sorted_values : list float) : result float :=
  let size := Z.of_nat (List.length sorted_values) in
  let mid := size / 2 in
  if size mod 2 =? 1 then index sorted_values mid
  else
    bind (index sorted_values (mid - 1)) (fun lo =>
    bind (index sorted_values mid) (fun hi =>
    Ok ((lo + hi) / 2)%float)).

(** The three variables of [compute_mode]. *)
Record mode_state : Type := MkMode {
  max_count : Z;
  current : Z;
  modes : list float
}.

(** The run that ends at [previous] is closed: the two branches that
    follow [else] inside the loop, before [current = 1]. *)
Definition close_run (st : mode_state) (previous : float) : mode_state :=
  if current st >? max_count st then
    MkMode (current st) (current st) [previous]
  else if (current st =? max_count st) && (current st >? 1) then
    MkMode (max_count st) (current st) (modes st ++ [previous])
  else st.

(** [for i in range(1, len(sorted_values))], with [previous] standing for
    [sorted_values[i - 1]]; returns the state and the last element. *)
Fixpoint mode_loop (previous : float) (rest : list float) (st : mode_state)
  : mode_state * float :=
  match rest with
  | [] => (st, previous)
  | value :: rest' =>
      if (value =? previous)%float then
        mode_loop value rest'
                  (MkMode (max_count st) (current st + 1) (modes st))
      else
        let st' := close_run st previous in
        mode_loop value rest' (MkMode (max_count st') 1 (modes st'))
  end.

(** The branches after the loop: they set [modes] and leave [max_count]
    as the loop left it. *)
Definition close_last_run (st : mode_state) (last_value : float)
  : mode_state :=
  if current st >? max_count st then
    MkMode (max_count st) (current st) [last_value]
  else if (current st =? max_count st) && (current st >? 1) then
    MkMode (max_count st) (current st) (modes st ++ [last_value])
  else st.

Definition compute_mode (sorted_values : list float) : option (list float) :=
  match sorted_values with
  | [] => None
  | first :: rest =>
      let '(st, last_value) := mode_loop first rest (MkMode 1 1 []) in
      let st := close_last_run st last_value in
      if max_count st =? 1 then None else Some (modes st)
  end.

(** No value of [rest] compares equal to the one before it, [previous]
    standing before the first. *)
Fixpoint no_repeat_after (previous : float) (rest : list float) : bool :=
  match rest with
  | [] => true
  | value :: rest' =>
      negb (value =? previous)%float && no_repeat_after value rest'
  end.

(** What the loop of [compute_mode] keeps true of its three variables:
    the modes satisfy [P], and they are not empty once a run longer than 1
    has been closed. *)
Definition mode_invariant (P : float -> Prop) (st : mode_state) : Prop :=
  Forall P (modes st)
  /\ 1 <= max_count st
  /\ (1 < max_count st -> modes st <> []).

(** ** The mode as the spec words it: the values tied for the highest
    frequency, and no mode when that frequency is 1. *)
Definition frequency (v : float) (values : list float) : Z :=
  Z.of_nat (List.length (filter (fun x => (x =? v)%float) values)).

Definition max_frequency (values : list float) : Z :=
  fold_right Z.max 0 (map (fun v => frequency v values) values).

Fixpoint distinct_values (values : list float) : list float :=
  match values with
  | [] => []
  | v :: rest =>
      v :: filter (fun x => negb (x =? v)%float) (distinct_values rest)
  end.

Definition modes_by_frequency (values : list float) : option (list float) :=
  if max_frequency values <=? 1 then None
  else Some (filter (fun v => frequency v values =? max_frequency values)
                    (distinct_values values)).

Definition compute_population_variance (values : list float) (mean : float)
  : result float :=
  let '(total, count) :=
    fold_left (fun '(total, count) value =>
                 let diff := (value - mean)%float in
                 ((total + diff * diff)%float, count + 1))
              values (0%float, 0) in
  truediv total count.

(** A binary64 value whose sign bit is [s], or NaN. *)
Definition sign_is (s : bool) (x : spec_float) : Prop :=
  match x with
  | S754_nan => True
  | S754_zero b | S754_infinity b | S754_finite b _ _ => b = s
  end.

(** [math.sqrt]: a negative argument is a domain error; NaN and -0.0 pass. *)
Definition math_sqrt (x : float) : result float :=
  if (x <? 0)%float then Raise ValueError else Ok (PrimFloat.sqrt x).

(** [sorted(numbers)] on floats: a stable sort by [<]. On data without NaN
    this is the one stable ascending arrangement, whatever the algorithm.
    With NaN among the data [<] is no order and the arrangement is the
    algorithm's: Python's can then differ from the one given here, and so
    can the median and the mode taken from it. *)
Definition sorted (numbers : list float) : list float :=
  sort_by (fun x y => negb (y <? x)%float) numbers.

(** The body of one section of the report, before it is rendered. *)
Inductive section_body : Type :=
| NoValidData
| Statistics (count : Z) (mean median : float) (mode : option (list float))
             (variance std_dev : float).

Section Parsing.

(** The builtin [float(token)]; [None] stands for [ValueError]. *)
Variable float_of_token : string -> option float.

(** The body of [for token in tokens]. *)
Definition parse_token (file_name : string) (line_no : Z)
    (acc : list float * list error_record) (token : string)
  : list float * list error_record :=
  let '(numbers, errors) := acc in
  match float_of_token token with
  | Some value => (numbers ++ [value], errors)
  | None => (numbers, errors ++ [Skipped file_name line_no token])
  end.

Definition line_tokens (line : string) : list string :=
  flat_map split_ws (split_on "," line).

Fixpoint parse_lines (file_name : string) (line_no : Z)
    (raw_lines : list string) (acc : list float * list error_record)
  : list float * list error_record :=
  match raw_lines with
  | [] => acc
  | raw_line :: rest =>
      let line_no := line_no + 1 in
      let line := strip raw_line in
      if is_empty line then parse_lines file_name line_no rest acc
      else
        parse_lines file_name line_no rest
          (fold_left (parse_token file_name line_no) (line_tokens line) acc)
  end.

Definition parse_numbers_from_file (path : string) (f : file)
  : result (list float * list error_record) :=
  match f with
  | Contents text =>
      Ok (parse_lines (basename path) 0 (readlines text) ([], []))
  | NoSuchFile => Ok ([], [FileNotFound path])
  | Unreadable => Ok ([], [CouldNotRead path])
  | Undecodable => Raise UnicodeDecodeError
  end.

Definition compute_statistics_for_file (path : string) (f : file)
  : result (string * section_body * list error_record) :=
  bind (parse_numbers_from_file path f) (fun '(numbers, errors) =>
  match numbers with
  | [] => Ok (basename path, NoValidData, errors)
  | _ :: _ =>
      let sorted_numbers := sorted numbers in
      bind (compute_mean numbers) (fun mean_val =>
      bind (compute_median sorted_numbers) (fun median_val =>
      let mode_val := compute_mode sorted_numbers in
      bind (compute_population_variance numbers mean_val)
           (fun variance_val =>
      bind (math_sqrt variance_val) (fun std_dev_val =>
      Ok (basename path,
          Statistics (Z.of_nat (List.length numbers)) mean_val median_val
                     mode_val variance_val std_dev_val,
          errors)))))
  end).

Variable fs : filesystem.

Definition main (argv : list string) : run (string * section_body) :=
  text_tool_main fs (fun input_path => input_path) false
    (fun file_path =>
       compute_statistics_for_file file_path (fs_open fs file_path))
    argv.

End Parsing.

End ComputeStatistics.

(* ================================================================== *)
(** * word_count.py *)
(* ================================================================== *)

Module WordCount.

Open Scope list_scope.
Open Scope Z_scope.

(** The body of [for token in tokens] over one stripped line. *)
Definition line_words (line : string) : list string :=
  map lower (filter (fun token => negb (is_empty token))
                    (split_on " " line)).

(** The body of [for raw_line in file]. *)
Fixpoint read_lines (file_name : string) (line_number : Z)
    (raw_lines : list string) (acc : list string * list error_record)
  : list string * list error_record :=
  match raw_lines with
  | [] => acc
  | raw_line :: rest =>
      let line_number := line_number + 1 in
      let line := strip raw_line in
      let '(words, errors) := acc in
      if String.eqb line "" then
        read_lines file_name line_number rest
                   (words, errors ++ [EmptyLine file_name line_number])
      else
        read_lines file_name line_number rest
                   (words ++ line_words line, errors)
  end.

Definition read_words_from_file (path : string) (f : file)
  : result (list string * list error_record) :=
  match f with
  | Contents text =>
      Ok (read_lines (basename path) 0 (readlines text) ([], []))
  | NoSuchFile | Unreadable => Ok ([], [ErrorOpening path])
  | Undecodable => Raise UnicodeDecodeError
  end.

(** A [Dict[str, int]]: the keys in insertion order, no key twice. *)
Definition dict : Type := list (string * Z).

(** [word in counts] and [counts[word]] in one. *)
Fixpoint dict_get (counts : dict) (word : string) : option Z :=
  match counts with
  | [] => None
  | (k, v) :: counts' =>
      if String.eqb k word then Some v else dict_get counts' word
  end.

(** [counts[word] = v]: a key already there keeps its place, a new one
    goes last. *)
Fixpoint dict_set (counts : dict) (word : string) (v : Z) : dict :=
  match counts with
  | [] => [(word, v)]
  | (k, v') :: counts' =>
      if String.eqb k word then (k, v) :: counts'
      else (k, v') :: dict_set counts' word v
  end.

(** [word not in counts] *)
Definition absent (counts : dict) (w : string) : bool :=
  match dict_get counts w with Some _ => false | None => true end.

Definition count_word (counts : dict) (word : string) : dict :=
  match dict_get counts word with
  | Some n => dict_set counts word (n + 1)
  | None => dict_set counts word 1
  end.

Definition count_words (words : list string) : dict :=
  fold_left count_word words [].

(** What the spec asks of the mapping: the distinct words in the order of
    their first occurrence. *)
Fixpoint first_seen (words : list string) : list string :=
  match words with
  | [] => []
  | w :: rest =>
      w :: filter (fun w' => negb (String.eqb w w')) (first_seen rest)
  end.

(** The number of occurrences of [word] in [words]. *)
Definition occurrences (word : string) (words : list string) : Z :=
  Z.of_nat (count_occ string_dec words word).

(** The tokens of a text as the spec words them: per line that is not
    blank, the pieces between single spaces that are not empty. *)
Definition text_tokens (text : string) : list string :=
  flat_map (fun raw_line =>
              filter (fun token => negb (is_empty token))
                     (split_on " " (strip raw_line)))
           (readlines text).

(** The line numbers (from 1) of the lines that are blank once stripped. *)
Fixpoint blank_line_numbers (line_number : Z) (raw_lines : list string)
  : list Z :=
  match raw_lines with
  | [] => []
  | raw_line :: rest =>
      if is_empty (strip raw_line)
      then (line_number + 1) :: blank_line_numbers (line_number + 1) rest
      else blank_line_numbers (line_number + 1) rest
  end.

Definition main (fs : filesystem) (argv : list string)
  : run (string * dict) :=
  text_tool_main fs (resolve_input_path fs) true
    (fun file_path =>
       bind (read_words_from_file file_path (fs_open fs file_path))
            (fun '(words, errors) =>
               Ok (basename file_path, count_words words, errors)))
    argv.

End WordCount.

(* ================================================================== *)
(** * A5.2/compute_sales.py *)
(* ================================================================== *)

Module ComputeSales.

Open Scope list_scope.

(** A parsed JSON value, as the loader that reads it ([to_dataframe_...])
    meets it: a frame with the columns the loader asks for; a frame without
    them, on which the loader raises its own [ValueError]; or a value on
    which a call inside the loader raises [e]. In [to_dataframe_sales] the
    last happens on column labels that are not strings, as those of
    [[1, 2]] or [[[1, 2]]] ([col.lower()] raises [AttributeError]), and on
    keys that differ in case only, [Product] beside [product] or [Quantity]
    beside [quantity]: both are renamed to one name, the column is then a
    frame, and [.str] raises [AttributeError], [pd.to_numeric]
    [TypeError]. The cells of a table are JSON scalars: a number, a string,
    a boolean or null; a cell that is itself a list or an object is not
    modelled. *)
Inductive json_data (A : Type) : Type :=
| Table (rows : list A)
| FieldsAbsent
| Refused (e : exn).
Arguments Table {A} rows.
Arguments FieldsAbsent {A}.
Arguments Refused {A} e.

(** A JSON file as the tool finds it. *)
Inductive json_file (A : Type) : Type :=
| CannotRead                    (* open raises OSError *)
| NotJSON                       (* json.JSONDecodeError or
                                   UnicodeDecodeError, both ValueError *)
| Data (records : json_data A).
Arguments CannotRead {A}.
Arguments NotJSON {A}.
Arguments Data {A} records.

Definition load_json_file {A} (f : json_file A) : result (json_data A) :=
  match f with
  | CannotRead => Raise OSError
  | NotJSON => Raise ValueError
  | Data d => Ok d
  end.

(** [except (OSError, ValueError, KeyError, json.JSONDecodeError)] in
    [process_tc] and [except (OSError, ValueError, FileNotFoundError)] in
    [main]: on the exceptions of this model the two catch the same, and
    neither catches [AttributeError] or [TypeError]. *)
Definition caught (e : exn) : bool :=
  match e with
  | OSError | FileNotFoundError | ValueError | UnicodeDecodeError => true
  | IndexError | ZeroDivisionError | AttributeError | TypeError => false
  end.

(** [.astype(str).str.strip().str.lower()] *)
Definition normalize (name : string) : string := lower (strip name).

(** The group keys of [groupby]: the distinct values of a column,
    ascending. *)
Definition group_keys (column : list string) : list string :=
  sort_by String.ltb (nodup string_dec column).

Section Numbers.

(** The numbers of a pandas column and the operations the tool applies to
    them: the product of two cells, the sum of a column, the comparison
    [<=] and the constant 0. A cell that is NaN is [None]. *)
Variable num : Type.
Variable nzero : num.
Variable nmul : num -> num -> num.
Variable nsum : list num -> num.
Variable nleb : num -> num -> bool.

Record catalogue_row : Type := MkCatalogue {
  title : string;
  price : option num
}.

Record sales_row : Type := MkSale {
  product : string;
  quantity : option num
}.

(** [price] and [quantity] are what [pd.to_numeric(errors="coerce")]
    makes of the JSON value. *)
Definition to_dataframe_catalogue (data : json_data catalogue_row)
  : result (list catalogue_row) :=
  match data with
  | Refused e => Raise e
  | FieldsAbsent => Raise ValueError
  | Table rows =>
      Ok (map (fun r => MkCatalogue (normalize (title r)) (price r)) rows)
  end.

Definition to_dataframe_sales (data : json_data sales_row)
  : result (list sales_row) :=
  match data with
  | Refused e => Raise e
  | FieldsAbsent => Raise ValueError
  | Table rows =>
      Ok (map (fun r => MkSale (normalize (product r)) (quantity r)) rows)
  end.

Definition isna (cell : option num) : bool :=
  match cell with None => true | Some _ => false end.

(** [column <= 0]: false on NaN. *)
Definition non_positive (cell : option num) : bool :=
  match cell with None => false | Some x => nleb x nzero end.

Inductive error_group : Type :=
| CatalogueErrors (name : string) (rows : list catalogue_row)
| SalesErrors (name : string) (rows : list sales_row).

(** A group is entered in [errors] only when [mask.any()]. *)
Definition group_if_any {A} (mk : list A -> error_group) (rows : list A)
  : list error_group :=
  match rows with [] => [] | _ :: _ => [mk rows] end.

Definition clean_data (df_catalogue : list catalogue_row)
    (df_sales : list sales_row)
  : list catalogue_row * list sales_row * list error_group :=
  let price_nan r := isna (price r) in
  let price_non_pos r := non_positive (price r) in
  let qty_nan r := isna (quantity r) in
  let qty_non_pos r := non_positive (quantity r) in
  let errors :=
    group_if_any (CatalogueErrors "catalogue_price_not_numeric")
                 (filter price_nan df_catalogue)
    ++ group_if_any (CatalogueErrors "catalogue_price_non_positive")
                    (filter price_non_pos df_catalogue)
    ++ group_if_any (SalesErrors "sales_quantity_not_numeric")
                    (filter qty_nan df_sales)
    ++ group_if_any (SalesErrors "sales_quantity_non_positive")
                    (filter qty_non_pos df_sales) in
  (filter (fun r => negb (price_nan r || price_non_pos r)) df_catalogue,
   filter (fun r => negb (qty_nan r || qty_non_pos r)) df_sales,
   errors).

(** The cells of [quantity] in the group of [key], NaN skipped. *)
Fixpoint group_quantities (key : string) (df_sales : list sales_row)
  : list num :=
  match df_sales with
  | [] => []
  | r :: rest =>
      if String.eqb (product r) key then
        match quantity r with
        | Some q => q :: group_quantities key rest
        | None => group_quantities key rest
        end
      else group_quantities key rest
  end.

(** [df_sales.groupby("product", as_index=False)["quantity"].sum()] *)
Definition sales_sum (df_sales : list sales_row) : list (string * num) :=
  map (fun key => (key, nsum (group_quantities key df_sales)))
      (group_keys (map product df_sales)).

Record merged_row : Type := MkMerged {
  m_product : string;
  m_quantity : num;
  m_price : option num
}.

(** [left.merge(df_catalogue, left_on="product", right_on="title",
    how="left")]: a row per match, in the order of the left keys, or
    one row with a NaN price when nothing matches. *)
Definition merge_left (left : list (string * num))
    (df_catalogue : list catalogue_row) : list merged_row :=
  flat_map
    (fun '(p, q) =>
       match filter (fun c => String.eqb (title c) p) df_catalogue with
       | [] => [MkMerged p q None]
       | matches => map (fun c => MkMerged p q (price c)) matches
       end)
    left.

Record detail_row : Type := MkDetail {
  d_product : string;
  d_quantity : num;
  d_price : num;
  d_total_cost : num
}.

(** [sort_values(by=..., ascending=False)]; the order among equal keys
    is the sorting algorithm's, and that of pandas can differ from the one
    given here. *)
Definition sort_desc {A} (key : A -> num) (l : list A) : list A :=
  sort_by (fun x y => nleb (key y) (key x)) l.

(** The rows of [merged] whose price is not NaN, with their cost. *)
Fixpoint found_rows (merged : list merged_row) : list detail_row :=
  match merged with
  | [] => []
  | m :: rest =>
      match m_price m with
      | Some p =>
          MkDetail (m_product m) (m_quantity m) p (nmul (m_quantity m) p)
          :: found_rows rest
      | None => found_rows rest
      end
  end.

Definition missing_rows (merged : list merged_row) : list (string * num) :=
  map (fun m => (m_product m, m_quantity m))
      (filter (fun m => isna (m_price m)) merged).

Definition compute_totals (df_catalogue : list catalogue_row)
    (df_sales : list sales_row)
  : list detail_row * list (string * num) :=
  let merged := merge_left (sales_sum df_sales) df_catalogue in
  (sort_desc d_total_cost (found_rows merged),
   sort_desc snd (missing_rows merged)).

(** What [format_report] renders. *)
Record report : Type := MkReport {
  result_rows : list detail_row;
  total_cost : num;
  missing_warning : list (string * num);
  invalid_records : list error_group
}.

Definition format_report (detail : list detail_row)
    (missing : list (string * num)) (errors : list error_group) : report :=
  let total :=
    match detail with
    | [] => nzero
    | _ :: _ => nsum (map d_total_cost detail)
    end in
  MkReport detail total missing errors.

Record tc_folder : Type := MkFolder {
  tc_name : string;
  product_files : list (json_file catalogue_row);  (* *ProductList*.json *)
  sales_files : list (json_file sales_row)         (* *Sales*.json *)
}.

Inductive tc_report : Type :=
| MissingSalesFile (name : string)
| ErrorProcessing (name : string) (e : exn)
| Computed (name : string) (r : report).

Definition process_tc (tc : tc_folder)
    (df_catalogue_base : list catalogue_row) : result tc_report :=
  match sales_files tc with
  | [] => Ok (MissingSalesFile (tc_name tc))
  | f :: _ =>
      let run :=
        bind (load_json_file f) (fun sales_data =>
        bind (to_dataframe_sales sales_data) (fun df_sales =>
        let '(df_cat_clean, df_sales_clean, errors) :=
          clean_data df_catalogue_base df_sales in
        let '(detail, missing) :=
          compute_totals df_cat_clean df_sales_clean in
        Ok (Computed (tc_name tc) (format_report detail missing errors))))
      in
      match run with
      | Ok r => Ok r
      | Raise e =>
          if caught e then Ok (ErrorProcessing (tc_name tc) e)
          else Raise e
      end
  end.

(** The exception that the first sales file of a folder sends through
    [process_tc], past its [except] clause, if any. *)
Definition escaping (tc : tc_folder) : option exn :=
  match sales_files tc with
  | Data (Refused e) :: _ => if caught e then None else Some e
  | _ => None
  end.

(** The report that the first sales file of a folder leads to: a missing
    file, a file that cannot be read or parsed, a file without the columns,
    a value the loader fails on, a table. *)
Definition expected_report (tc : tc_folder) (r : tc_report) : Prop :=
  match sales_files tc with
  | [] => r = MissingSalesFile (tc_name tc)
  | CannotRead :: _ => r = ErrorProcessing (tc_name tc) OSError
  | NotJSON :: _ => r = ErrorProcessing (tc_name tc) ValueError
  | Data FieldsAbsent :: _ => r = ErrorProcessing (tc_name tc) ValueError
  | Data (Refused e) :: _ => r = ErrorProcessing (tc_name tc) e
  | Data (Table _) :: _ => exists computed, r = Computed (tc_name tc) computed
  end.

(** The name in the heading of a report. *)
Definition report_name (r : tc_report) : string :=
  match r with
  | MissingSalesFile name | ErrorProcessing name _ | Computed name _ => name
  end.

(** What [print_errors_to_console] prints for one group: its name, its
    number of rows, [df_err.head(20)], and the count of the rows left out
    when there are more than 20. *)
Record console_group (A : Type) : Type := MkConsole {
  shown_name : string;
  shown_count : nat;
  shown_rows : list A;
  more_rows : option nat
}.

Definition console_preview {A : Type} (name : string) (rows : list A)
  : console_group A :=
  MkConsole name (List.length rows) (firstn 20 rows)
            (if (20 <? List.length rows)%nat
             then Some (List.length rows - 20)%nat else None).

(** The groups that [print_errors_to_console] prints, catalogue rows and
    sales rows apart; nothing when there is no error. *)
Definition print_errors_to_console (errors : list error_group)
  : list (console_group catalogue_row + console_group sales_row) :=
  map (fun g =>
         match g with
         | CatalogueErrors name rows => inl (console_preview name rows)
         | SalesErrors name rows => inr (console_preview name rows)
         end)
      errors.

(** The rows that an error dictionary holds, by table, and the number of
    rows of one group, [len(df_err)]. *)
Definition catalogue_error_rows (errors : list error_group)
  : list catalogue_row :=
  flat_map (fun g => match g with
                     | CatalogueErrors _ rows => rows
                     | SalesErrors _ _ => []
                     end) errors.

Definition sales_error_rows (errors : list error_group) : list sales_row :=
  flat_map (fun g => match g with
                     | CatalogueErrors _ _ => []
                     | SalesErrors _ rows => rows
                     end) errors.

Definition group_name (g : error_group) : string :=
  match g with CatalogueErrors name _ | SalesErrors name _ => name end.

Definition group_size (g : error_group) : nat :=
  match g with
  | CatalogueErrors _ rows => List.length rows
  | SalesErrors _ rows => List.length rows
  end.

(** The numbers that one printed group shows: the count in its heading,
    the rows printed, the rows announced as left out. *)
Definition heading_count
    (g : console_group catalogue_row + console_group sales_row) : nat :=
  match g with inl c => shown_count c | inr c => shown_count c end.

Definition printed_rows
    (g : console_group catalogue_row + console_group sales_row) : nat :=
  match g with
  | inl c => List.length (shown_rows c)
  | inr c => List.length (shown_rows c)
  end.

Definition announced_rows
    (g : console_group catalogue_row + console_group sales_row) : nat :=
  match (match g with inl c => more_rows c | inr c => more_rows c end) with
  | Some remaining => remaining
  | None => 0%nat
  end.

(** What the run finds on disk: whether a path is a folder, whether the
    output folder can be made, the sub-folders that the base folder holds
    in sorted order, whether [base_folder.iterdir()] can list them (it
    raises [OSError] on a folder that may be entered but not read), and
    whether the report can be written. *)
Record environment : Type := MkEnv {
  is_dir : string -> bool;
  output_dir_ok : bool;
  subfolders : string -> list tc_folder;
  iterdir_ok : bool;
  write_ok : bool
}.

Definition load_base_catalogue (env : environment) (base_folder : string)
  : result (list catalogue_row) :=
  match find (fun tc => String.eqb (tc_name tc) "TC1")
             (subfolders env base_folder) with
  | None => Raise FileNotFoundError
  | Some tc1 =>
      match product_files tc1 with
      | [] => Raise FileNotFoundError
      | f :: _ => bind (load_json_file f) to_dataframe_catalogue
      end
  end.

Fixpoint process_all (tcs : list tc_folder)
    (df_catalogue_base : list catalogue_row) : result (list tc_report) :=
  match tcs with
  | [] => Ok []
  | tc :: rest =>
      bind (process_tc tc df_catalogue_base) (fun r =>
      bind (process_all rest df_catalogue_base) (fun rs => Ok (r :: rs)))
  end.

(** The first exception that a folder of the list sends through
    [process_tc], if any. *)
Fixpoint first_escaping (tcs : list tc_folder) : option exn :=
  match tcs with
  | [] => None
  | tc :: rest =>
      match escaping tc with
      | Some e => Some e
      | None => first_escaping rest
      end
  end.

(** The exit status and the reports joined for the output file; a run that
    an exception ends leaves none. *)
Definition main (env : environment) (argv : list string)
  : outcome * list tc_report :=
  match argv with
  | [_; base_folder] =>
      if negb (is_dir env base_folder) then (Exit 1, [])
      else if negb (output_dir_ok env) then (Exit 1, [])
      else
        match load_base_catalogue env base_folder with
        | Raise e => (if caught e then Exit 1 else Uncaught e, [])
        | Ok df_catalogue_base =>
            if negb (iterdir_ok env) then (Uncaught OSError, [])
            else
              match subfolders env base_folder with
              | [] => (Exit 1, [])
              | tc_folders =>
                  match process_all tc_folders df_catalogue_base with
                  | Raise e => (Uncaught e, [])
                  | Ok all_reports =>
                      (Exit (if write_ok env then 0 else 1), all_reports)
                  end
              end
        end
  | _ => (Exit 1, [])
  end.

End Numbers.

(** A binary64 instance for the examples: a column summed from 0.0, left to
    right. The sums of pandas add in another order, so on a column of
    several values the last bit can differ; the examples below sum one
    value per group. *)
Definition float_sum (column : list float) : float :=
  fold_left PrimFloat.add column 0%float.

(** A base folder over integer prices and quantities: TC1 with a product
    list and a sales file, TC2 with neither. *)
Definition two_test_cases : environment Z :=
  MkEnv (fun _ => true) true
        (fun _ =>
           [MkFolder "TC1"
              [Data (Table [MkCatalogue "pen" (Some 3%Z)])]
              [Data (Table [MkSale "Pen " (Some 2%Z)])];
            MkFolder "TC2" [] []])
        true true.

End ComputeSales.



(* ================================================================== *)
(** * Properties *)
(* ================================================================== *)

Open Scope list_scope.

(** ** Base conversion: termination and round trip *)

Section ConversionLoop.

Import ConvertNumbers.
Open Scope Z_scope.

Variable base : Z.
Variable digit : Z -> ascii.
Hypothesis base_ge_2 : 2 <= base.
Hypothesis digit_sound :
  forall r, 0 <= r < base -> digit_value (digit r) = Some r.

Lemma parse_digits_app (l1 l2 : list ascii) (acc : Z) :
  parse_digits base acc (join_chars (l1 ++ l2)) =
  match parse_digits base acc (join_chars l1) with
  | Some v => parse_digits base v (join_chars l2)
  | None => None
  end.
Proof.
  revert acc; induction l1 as [|c l1 IH]; intros acc; simpl.
  - reflexivity.
  - destruct (digit_value c) as [d|]; [|reflexivity].
    destruct (d <? base); [apply IH | reflexivity].
Qed.

Lemma loop_body_decreases (n : Z) (digits : list ascii) :
  0 < n ->
  0 <= fst (loop_body base digit (n, digits)) < n.
Proof.
  intros Hn; simpl. split.
  - apply Z.div_pos; lia.
  - apply Z.div_lt; lia.
Qed.

(** The loop, given fuel for every bit of [n], returns the digits of [n],
    least significant first, after those it started with. *)
Lemma digits_loop_spec (fuel : nat) :
  forall n digits,
    0 <= n < 2 ^ Z.of_nat fuel ->
    exists out,
      digits_loop base digit fuel (n, digits) = Some (digits ++ out)
      /\ (forall acc,
            parse_digits base acc (join_chars (rev out)) =
            Some (acc * base ^ Z.of_nat (List.length out) + n))
      /\ (0 < n -> out <> []).
Proof.
  induction fuel as [|fuel IH]; intros n digits Hn.
  - assert (n = 0) by (simpl in Hn; lia). subst n.
    exists []. simpl. rewrite app_nil_r. repeat split.
    + intros acc. f_equal. lia.
    + lia.
  - destruct (Z.eq_dec n 0) as [-> | Hnz].
    + exists []. simpl. rewrite app_nil_r. repeat split.
      * intros acc. f_equal. lia.
      * lia.
    + assert (Hpos : 0 < n) by lia.
      assert (Hdiv : 0 <= n / base < 2 ^ Z.of_nat fuel).
      { split; [apply Z.div_pos; lia|].
        apply Z.div_lt_upper_bound; [lia|].
        rewrite Nat2Z.inj_succ, Z.pow_succ_r in Hn by lia.
        assert (0 < 2 ^ Z.of_nat fuel) by (apply Z.pow_pos_nonneg; lia).
        nia. }
      destruct (IH (n / base) (digits ++ [digit (n mod base)]) Hdiv)
        as (out & Hloop & Hparse & _).
      exists (digit (n mod base) :: out).
      cbn [digits_loop fst].
      replace (n >? 0) with true by (symmetry; apply Z.gtb_lt; lia).
      cbn [loop_body]. rewrite Hloop, <- app_assoc. repeat split.
      * intros acc. cbn [rev]. rewrite parse_digits_app, Hparse.
        cbn [join_chars parse_digits].
        assert (Hr : 0 <= n mod base < base) by (apply Z.mod_pos_bound; lia).
        rewrite (digit_sound Hr).
        replace (n mod base <? base) with true
          by (symmetry; apply Z.ltb_lt; lia).
        f_equal. cbn [List.length].
        rewrite Nat2Z.inj_succ, Z.pow_succ_r by lia.
        pose proof (Z.div_mod n base ltac:(lia)). nia.
      * discriminate.
Qed.

Lemma loop_bound_enough (number : Z) (fuel : nat) :
  (loop_bound number <= fuel)%nat ->
  0 <= Z.abs number < 2 ^ Z.of_nat fuel.
Proof.
  intros Hfuel. split; [lia|].
  destruct (Z.eq_dec number 0) as [-> | Hnz].
  - simpl. apply Z.pow_pos_nonneg; lia.
  - pose proof (Z.log2_spec (Z.abs number) ltac:(lia)) as [_ Hlt].
    eapply Z.lt_le_trans; [exact Hlt|].
    apply Z.pow_le_mono_r; [lia|].
    unfold loop_bound in Hfuel.
    pose proof (Z.log2_nonneg (Z.abs number)). lia.
Qed.

Lemma digits_loop_more_fuel (fuel : nat) :
  forall st out fuel',
    digits_loop base digit fuel st = Some out ->
    (fuel <= fuel')%nat ->
    digits_loop base digit fuel' st = Some out.
Proof.
  induction fuel as [|fuel IH]; intros st out fuel' Hrun Hle.
  - destruct fuel'; simpl in *; destruct (fst st >? 0);
      congruence.
  - destruct fuel' as [|fuel']; [lia|].
    simpl in *. destruct (fst st >? 0); [|assumption].
    apply IH; [assumption | lia].
Qed.

(** With the fuel of [loop_bound], and with any more, the conversion returns
    a string: a minus sign exactly for a negative number, then digits that
    read back as the magnitude. *)
Lemma convert_fuel_spec (number : Z) :
  exists s,
    (forall fuel, (loop_bound number <= fuel)%nat ->
                  convert_fuel base digit fuel number = Some s)
    /\ has_minus s = (number <? 0)
    /\ parse_numeral base (magnitude_part s) = Some (Z.abs number).
Proof.
  assert (H0 : digit_value (digit 0) = Some 0) by (apply digit_sound; lia).
  unfold convert_fuel.
  destruct (Z.eqb_spec number 0) as [-> | Hnz].
  - exists "0"%string. repeat split; try reflexivity.
    unfold parse_numeral. simpl.
    replace (0 <? base) with true by (symmetry; apply Z.ltb_lt; lia).
    reflexivity.
  - pose proof (@loop_bound_enough number (loop_bound number) (le_n _)) as Hb.
    destruct (digits_loop_spec (loop_bound number) [] Hb)
      as (out & Hloop & Hparse & Hne).
    change ([] ++ out) with out in Hloop.
    assert (Hout : out <> []) by (apply Hne; lia).
    assert (Hfirst : has_minus (join_chars (rev out)) = false
                     /\ is_empty (join_chars (rev out)) = false).
    { specialize (Hparse 0).
      destruct (rev out) as [|c l] eqn:Hrev.
      - apply (f_equal (@rev ascii)) in Hrev.
        rewrite rev_involutive in Hrev. contradiction.
      - simpl in *. split; [|reflexivity].
        destruct (Ascii.eqb_spec c "-"); [subst c; discriminate | reflexivity]. }
    destruct Hfirst as [Hminus Hnonempty].
    destruct (Z.ltb_spec number 0) as [Hneg | Hpos].
    + exists ("-" ++ join_chars (rev out))%string. repeat split.
      * intros fuel Hfuel.
        replace (Z.abs number) with (- number) in Hloop by lia.
        rewrite (@digits_loop_more_fuel _ _ _ _ Hloop Hfuel). reflexivity.
      * cbn [magnitude_part append]. simpl Ascii.eqb. cbv iota.
        unfold parse_numeral. rewrite Hnonempty, Hparse. f_equal.
    + exists (join_chars (rev out)). repeat split.
      * intros fuel Hfuel.
        replace (Z.abs number) with number in Hloop by lia.
        rewrite (@digits_loop_more_fuel _ _ _ _ Hloop Hfuel). reflexivity.
      * assumption.
      * replace (magnitude_part (join_chars (rev out)))
          with (join_chars (rev out)).
        -- unfold parse_numeral. rewrite Hnonempty, Hparse. f_equal.
        -- destruct (join_chars (rev out)) as [|c r]; [reflexivity|].
           simpl in Hminus |- *. rewrite Hminus. reflexivity.
Qed.

End ConversionLoop.

Lemma bit_of_sound (r : Z) :
  (0 <= r < 2)%Z ->
  ConvertNumbers.digit_value (ConvertNumbers.bit_of r) = Some r.
Proof.
  intros Hr. assert (r = 0 \/ r = 1)%Z as [-> | ->] by lia; reflexivity.
Qed.

Lemma hex_digit_of_sound (r : Z) :
  (0 <= r < 16)%Z ->
  ConvertNumbers.digit_value (ConvertNumbers.hex_digit_of r) = Some r.
Proof.
  intros Hr.
  assert (Hcases : In r [0; 1; 2; 3; 4; 5; 6; 7; 8; 9; 10; 11; 12; 13; 14; 15]%Z).
  { replace r with (Z.of_nat (Z.to_nat r)) by lia.
    assert (Hn : (Z.to_nat r < 16)%nat) by lia.
    revert Hn. generalize (Z.to_nat r) as k. intros k Hk.
    do 16 (destruct k as [|k]; [simpl; tauto|]). lia. }
  simpl in Hcases.
  repeat (destruct Hcases as [<- | Hcases]; [reflexivity|]).
  contradiction.
Qed.

Lemma to_binary_str_spec (number : Z) :
  (forall fuel, (ConvertNumbers.loop_bound number <= fuel)%nat ->
     ConvertNumbers.to_binary_str_fuel fuel number =
     Some (ConvertNumbers.to_binary_str number))
  /\ ConvertNumbers.has_minus (ConvertNumbers.to_binary_str number)
     = (number <? 0)%Z
  /\ ConvertNumbers.parse_numeral 2
       (ConvertNumbers.magnitude_part (ConvertNumbers.to_binary_str number))
     = Some (Z.abs number).
Proof.
  destruct (@convert_fuel_spec 2 ConvertNumbers.bit_of ltac:(lia)
              bit_of_sound number) as (s & Hrun & Hsign & Hvalue).
  unfold ConvertNumbers.to_binary_str, ConvertNumbers.to_binary_str_fuel.
  rewrite (Hrun _ (le_n _)). auto.
Qed.

Lemma to_hex_str_spec (number : Z) :
  (forall fuel, (ConvertNumbers.loop_bound number <= fuel)%nat ->
     ConvertNumbers.to_hex_str_fuel fuel number =
     Some (ConvertNumbers.to_hex_str number))
  /\ ConvertNumbers.has_minus (ConvertNumbers.to_hex_str number)
     = (number <? 0)%Z
  /\ ConvertNumbers.parse_numeral 16
       (ConvertNumbers.magnitude_part (ConvertNumbers.to_hex_str number))
     = Some (Z.abs number).
Proof.
  destruct (@convert_fuel_spec 16 ConvertNumbers.hex_digit_of ltac:(lia)
              hex_digit_of_sound number) as (s & Hrun & Hsign & Hvalue).
  unfold ConvertNumbers.to_hex_str, ConvertNumbers.to_hex_str_fuel.
  rewrite (Hrun _ (le_n _)). auto.
Qed.

(** C1. For every integer N the binary output, read as a base-2 numeral
    without its leading minus sign, is |N|, and the hexadecimal output read
    as base 16 is |N|; the minus sign is there exactly when N is negative;
    0 gives "0" in both bases and -5 gives "-101" and "-5". *)
Theorem conversion_round_trip :
  forall N : Z,
    ConvertNumbers.parse_numeral 2
      (ConvertNumbers.magnitude_part (ConvertNumbers.to_binary_str N))
    = Some (Z.abs N)
    /\ ConvertNumbers.parse_numeral 16
         (ConvertNumbers.magnitude_part (ConvertNumbers.to_hex_str N))
       = Some (Z.abs N)
    /\ ConvertNumbers.has_minus (ConvertNumbers.to_binary_str N) = (N <? 0)%Z
    /\ ConvertNumbers.has_minus (ConvertNumbers.to_hex_str N) = (N <? 0)%Z
    /\ ConvertNumbers.to_binary_str 0 = "0"%string
    /\ ConvertNumbers.to_hex_str 0 = "0"%string
    /\ ConvertNumbers.to_binary_str (-5) = "-101"%string
    /\ ConvertNumbers.to_hex_str (-5) = "-5"%string.
Proof.
  intros N.
  destruct (to_binary_str_spec N) as (_ & Hbs & Hbv).
  destruct (to_hex_str_spec N) as (_ & Hhs & Hhv).
  repeat split; try assumption; reflexivity.
Qed.

(** C10. [to_binary_str] and [to_hex_str] terminate on every integer: each
    turn of the loop body takes a positive loop variable to a smaller one
    that is not negative, and the loop gives its result within
    [loop_bound number] turns, one more than the bit length of |number|;
    more fuel changes nothing. *)
Theorem conversion_loops_terminate :
  forall number : Z,
    (forall fuel, (ConvertNumbers.loop_bound number <= fuel)%nat ->
       ConvertNumbers.to_binary_str_fuel fuel number
       = Some (ConvertNumbers.to_binary_str number)
       /\ ConvertNumbers.to_hex_str_fuel fuel number
          = Some (ConvertNumbers.to_hex_str number))
    /\ (forall (n : Z) (digits : list ascii),
          (0 < n)%Z ->
          (0 <= fst (ConvertNumbers.loop_body 2 ConvertNumbers.bit_of
                       (n, digits)) < n)%Z
          /\ (0 <= fst (ConvertNumbers.loop_body 16 ConvertNumbers.hex_digit_of
                          (n, digits)) < n)%Z).
Proof.
  intros number. split.
  - intros fuel Hfuel. split.
    + apply to_binary_str_spec; assumption.
    + apply to_hex_str_spec; assumption.
  - intros n digits Hn. split; apply loop_body_decreases; lia.
Qed.

(** ** Integer tokens *)

Section IntegerTokens.

Import ConvertNumbers.

Lemma is_digit_iff (c : ascii) : is_digit c = true <-> In c decimal_digits.
Proof.
  split.
  - destruct c as [[] [] [] [] [] [] [] []]; vm_compute; intros H;
      try discriminate; tauto.
  - intros H. simpl in H.
    repeat (destruct H as [<- | H]; [reflexivity|]). contradiction.
Qed.

Lemma all_digits_iff (s : string) :
  all_digits s = true <->
  Forall (fun c => In c decimal_digits) (list_ascii_of_string s).
Proof.
  induction s as [|c s IH]; simpl.
  - split; auto.
  - destruct (is_digit c) eqn:Hc.
    + rewrite IH. split.
      * intros H. constructor; [apply is_digit_iff; assumption | assumption].
      * intros H. inversion H; assumption.
    + split; [discriminate|]. intros H. inversion H as [|? ? Hin _]; subst.
      apply is_digit_iff in Hin. congruence.
Qed.

Lemma digit_is_no_sign (c : ascii) : is_digit c = true -> is_sign c = false.
Proof.
  intros H. apply is_digit_iff in H. simpl in H.
  repeat (destruct H as [<- | H]; [reflexivity|]). contradiction.
Qed.

Lemma is_sign_iff (c : ascii) :
  is_sign c = true <-> c = "+"%char \/ c = "-"%char.
Proof.
  unfold is_sign.
  destruct (Ascii.eqb_spec c "+"), (Ascii.eqb_spec c "-"); simpl;
    split; intros; auto; try discriminate; tauto.
Qed.

Lemma substring_whole (s : string) : substring 0 (String.length s) s = s.
Proof. induction s; simpl; congruence. Qed.

(** What the function computes on a token that has a first character. *)
Lemma is_valid_integer_token_cases (c0 : ascii) (rest : string) :
  is_valid_integer_token (String c0 rest) =
  Ok (if is_sign c0 then negb (is_empty rest) && all_digits rest
      else all_digits (String c0 rest)).
Proof.
  unfold is_valid_integer_token.
  cbn [String.eqb String.get String.length].
  destruct rest as [|c1 rest].
  - destruct (is_sign c0) eqn:Hs.
    + apply is_sign_iff in Hs as [-> | ->]; reflexivity.
    + assert (Hp : Ascii.eqb c0 "+" = false /\ Ascii.eqb c0 "-" = false).
      { unfold is_sign in Hs. apply orb_false_iff in Hs. exact Hs. }
      destruct Hp as [-> ->]. cbn. reflexivity.
  - cbn [String.eqb String.length].
    replace (if Ascii.eqb c0 "+" then false else false) with false
      by (destruct (Ascii.eqb c0 "+"); reflexivity).
    replace (if Ascii.eqb c0 "-" then false else false) with false
      by (destruct (Ascii.eqb c0 "-"); reflexivity).
    cbn [orb].
    destruct (is_sign c0) eqn:Hs.
    + cbn [Nat.leb Nat.sub substring is_empty negb andb].
      rewrite substring_whole. reflexivity.
    + cbn [Nat.leb Nat.sub substring].
      rewrite substring_whole. reflexivity.
Qed.

Lemma valid_token_matches (token : string) :
  is_valid_integer_token token = Ok true <-> matches_integer_pattern token.
Proof.
  split.
  - destruct token as [|c0 rest]; [discriminate|].
    rewrite is_valid_integer_token_cases. intros H. injection H as H.
    destruct (is_sign c0) eqn:Hs.
    + apply andb_true_iff in H as [Hne Hd].
      exists (String c0 ""), rest. repeat split.
      * apply is_sign_iff in Hs as [-> | ->]; auto.
      * destruct rest; [discriminate | congruence].
      * apply all_digits_iff; assumption.
    + exists ""%string, (String c0 rest). repeat split; auto.
      * discriminate.
      * apply all_digits_iff; assumption.
  - intros (sign & digits & -> & Hsign & Hne & Hd).
    apply all_digits_iff in Hd.
    destruct digits as [|d digits]; [contradiction|].
    destruct Hsign as [-> | [-> | ->]];
      cbn [append]; rewrite is_valid_integer_token_cases.
    + simpl in Hd. destruct (is_digit d) eqn:Hdig; [|discriminate].
      rewrite (digit_is_no_sign d Hdig). cbn [all_digits]. rewrite Hdig.
      f_equal. assumption.
    + cbn. f_equal. assumption.
    + cbn. f_equal. assumption.
Qed.

Lemma all_digits_get (s : string) (i : nat) (c : ascii) :
  all_digits s = true -> String.get i s = Some c -> is_digit c = true.
Proof.
  revert i; induction s as [|c' s IH]; intros i Hall Hget.
  - destruct i; discriminate.
  - simpl in Hall. destruct (is_digit c') eqn:Hc'; [|discriminate].
    destruct i as [|i]; simpl in Hget.
    + congruence.
    + eapply IH; eassumption.
Qed.

(** C6. A token is classified as a valid integer exactly when it matches
    [[+-]?[0-9]+]; a token that is not empty and does not match is
    classified invalid, in particular every token with a character that is
    neither a decimal digit nor a sign in first place (a decimal point, an
    exponent letter), and the lone signs "+" and "-". *)
Theorem integer_token_validity :
  forall token : string,
    (is_valid_integer_token token = Ok true <-> matches_integer_pattern token)
    /\ (token <> ""%string -> ~ matches_integer_pattern token ->
        is_valid_integer_token token = Ok false)
    /\ (forall (i : nat) (c : ascii),
          String.get i token = Some c ->
          ~ In c decimal_digits ->
          (i = 0%nat -> c <> "+"%char /\ c <> "-"%char) ->
          is_valid_integer_token token = Ok false)
    /\ is_valid_integer_token "+" = Ok false
    /\ is_valid_integer_token "-" = Ok false
    /\ is_valid_integer_token "3.14" = Ok false
    /\ is_valid_integer_token "1e3" = Ok false
    /\ is_valid_integer_token "12a" = Ok false.
Proof.
  intros token.
  split; [apply valid_token_matches|].
  split.
  { intros Hne Hnot. destruct token as [|c0 rest]; [contradiction|].
    pose proof (valid_token_matches (String c0 rest)) as Hiff.
    rewrite is_valid_integer_token_cases in *.
    destruct (if is_sign c0 then _ else _); [|reflexivity].
    exfalso. apply Hnot, Hiff. reflexivity. }
  split; [|repeat split; reflexivity].
  intros i c Hget Hnd Hfirst.
  destruct token as [|c0 rest]; [destruct i; discriminate|].
  rewrite is_valid_integer_token_cases. f_equal.
  assert (Hc : is_digit c = false).
  { destruct (is_digit c) eqn:E; [|reflexivity].
    exfalso. apply Hnd, is_digit_iff. assumption. }
  destruct (is_sign c0) eqn:Hs.
  - destruct i as [|i]; simpl in Hget.
    + injection Hget as ->. apply is_sign_iff in Hs.
      destruct (Hfirst eq_refl). tauto.
    + destruct (all_digits rest) eqn:Hall; [|apply andb_false_r].
      rewrite (all_digits_get rest i Hall Hget) in Hc. discriminate.
  - destruct (all_digits (String c0 rest)) eqn:Hall; [|reflexivity].
    rewrite (all_digits_get _ i Hall Hget) in Hc. discriminate.
Qed.

End IntegerTokens.

(** ** Every token is classified once *)

Section Tokens.

Lemma cons_nonempty_Forall (P : string -> Prop) (t : string)
    (ts : list string) :
  (t <> ""%string -> P t) -> Forall P ts -> Forall P (cons_nonempty t ts).
Proof.
  intros Ht Hts. unfold cons_nonempty.
  destruct t; simpl; [assumption|]. constructor; [apply Ht; discriminate|].
  assumption.
Qed.

Lemma split_ws_scan_clean (s : string) :
  (forall c, In c (list_ascii_of_string (fst (split_ws_scan s))) ->
             is_space c = false)
  /\ Forall clean_token (snd (split_ws_scan s)).
Proof.
  induction s as [|c s [IHt IHts]]; simpl.
  - split; [intros c []|constructor].
  - destruct (split_ws_scan s) as [t ts]. simpl in *.
    destruct (is_space c) eqn:Hc; simpl.
    + split; [intros c' []|].
      apply cons_nonempty_Forall; [|assumption].
      intros Hne. split; assumption.
    + split; [|assumption].
      intros c' [<- | Hin]; [assumption | apply IHt; assumption].
Qed.

Lemma split_ws_clean (s : string) : Forall clean_token (split_ws s).
Proof.
  unfold split_ws. pose proof (split_ws_scan_clean s) as [Ht Hts].
  destruct (split_ws_scan s) as [t ts]. simpl in *.
  apply cons_nonempty_Forall; [|assumption].
  intros Hne. split; assumption.
Qed.

Lemma rstrip_clean (t : string) :
  (forall c, In c (list_ascii_of_string t) -> is_space c = false) ->
  rstrip t = t.
Proof.
  induction t as [|c t IH]; intros Hc; simpl; [reflexivity|].
  rewrite IH by (intros c' Hin; apply Hc; right; assumption).
  rewrite (Hc c) by (left; reflexivity).
  rewrite andb_false_r. reflexivity.
Qed.

Lemma strip_clean (t : string) : clean_token t -> strip t = t.
Proof.
  intros [Hne Hc]. unfold strip.
  destruct t as [|c t]; [reflexivity|].
  simpl lstrip. rewrite (Hc c) by (left; reflexivity).
  apply rstrip_clean; assumption.
Qed.

Lemma line_tokens_clean (line : string) :
  Forall clean_token (flat_map split_ws (split_on "," line)).
Proof.
  apply Forall_flat_map, Forall_forall. intros part _. apply split_ws_clean.
Qed.

Lemma valid_values_app {A} (classify : string -> option A) (l1 l2 : list string) :
  valid_values classify (l1 ++ l2) =
  valid_values classify l1 ++ valid_values classify l2.
Proof. apply flat_map_app. Qed.

Lemma invalid_tokens_app {A} (classify : string -> option A)
    (l1 l2 : list string) :
  invalid_tokens classify (l1 ++ l2) =
  invalid_tokens classify l1 ++ invalid_tokens classify l2.
Proof. apply filter_app. Qed.

Lemma classified_count {A} (classify : string -> option A)
    (tokens : list string) :
  (List.length (valid_values classify tokens)
   + List.length (invalid_tokens classify tokens) = List.length tokens)%nat.
Proof.
  induction tokens as [|t tokens IH]; simpl; [reflexivity|].
  destruct (classify t); simpl; lia.
Qed.

Lemma skipped_tokens_app (e1 e2 : list error_record) :
  skipped_tokens (e1 ++ e2) = skipped_tokens e1 ++ skipped_tokens e2.
Proof. apply flat_map_app. Qed.

Lemma skipped_tokens_map (name : string) (line_no : Z) (ts : list string) :
  skipped_tokens (map (Skipped name line_no) ts) = ts.
Proof. induction ts; simpl; congruence. Qed.

Lemma records_of_app (ts1 ts2 : list string) (e1 e2 : list error_record) :
  records_of ts1 e1 -> records_of ts2 e2 -> records_of (ts1 ++ ts2) (e1 ++ e2).
Proof.
  intros [H1 L1] [H2 L2]. split.
  - rewrite skipped_tokens_app; congruence.
  - rewrite !length_app; congruence.
Qed.

Lemma records_of_map (name : string) (line_no : Z) (ts : list string) :
  records_of ts (map (Skipped name line_no) ts).
Proof. split; [apply skipped_tokens_map | apply length_map]. Qed.

Lemma blank_line_tokens (line : string) :
  is_empty line = true -> flat_map split_ws (split_on "," line) = [].
Proof. destruct line; [reflexivity | discriminate]. Qed.

(** *** Statistics tool *)

Variable float_of_token : string -> option float.

Lemma statistics_tokens (name : string) (line_no : Z) (tokens : list string) :
  forall numbers errors,
    fold_left (ComputeStatistics.parse_token float_of_token name line_no)
              tokens (numbers, errors)
    = (numbers ++ valid_values float_of_token tokens,
       errors ++ map (Skipped name line_no)
                     (invalid_tokens float_of_token tokens)).
Proof.
  induction tokens as [|t tokens IH]; intros numbers errors; simpl.
  - rewrite !app_nil_r. reflexivity.
  - destruct (float_of_token t) as [v|]; rewrite IH, <- app_assoc; reflexivity.
Qed.

Lemma statistics_lines (name : string) (raw_lines : list string) :
  forall line_no numbers errors,
  exists new_errors,
    ComputeStatistics.parse_lines float_of_token name line_no raw_lines
                                  (numbers, errors)
    = (numbers ++ valid_values float_of_token
                    (flat_map (fun raw_line =>
                       flat_map split_ws (split_on "," (strip raw_line)))
                       raw_lines),
       errors ++ new_errors)
    /\ records_of (invalid_tokens float_of_token
                     (flat_map (fun raw_line =>
                        flat_map split_ws (split_on "," (strip raw_line)))
                        raw_lines))
                  new_errors.
Proof.
  induction raw_lines as [|raw raw_lines IH]; intros line_no numbers errors.
  - exists []. simpl. rewrite !app_nil_r. split; [reflexivity | split; reflexivity].
  - cbn [ComputeStatistics.parse_lines flat_map].
    destruct (is_empty (strip raw)) eqn:Hblank.
    + rewrite (blank_line_tokens _ Hblank). apply IH.
    + unfold ComputeStatistics.line_tokens. rewrite statistics_tokens.
      destruct (IH (line_no + 1)%Z
                   (numbers ++ valid_values float_of_token
                      (flat_map split_ws (split_on "," (strip raw))))
                   (errors ++ map (Skipped name (line_no + 1)%Z)
                      (invalid_tokens float_of_token
                         (flat_map split_ws (split_on "," (strip raw))))))
        as (new_errors & Hrun & Hrec).
      eexists. rewrite Hrun, valid_values_app, invalid_tokens_app.
      rewrite <- !app_assoc. split; [reflexivity|].
      apply records_of_app; [apply records_of_map | assumption].
Qed.

End Tokens.

(** *** Conversion tool *)

Section IntegerParsing.

Import ConvertNumbers.

Variable int_max_str_digits : nat.

Lemma int_of_token_raises (token : string) :
  (exists n, int_of_token int_max_str_digits token = Ok n)
  \/ int_of_token int_max_str_digits token = Raise ValueError.
Proof.
  unfold int_of_token.
  destruct (match token with
            | EmptyString => (false, token)
            | String c0 rest =>
                if is_sign c0 then (Ascii.eqb c0 "-", rest) else (false, token)
            end) as [negative digits].
  destruct (is_empty digits || negb (all_digits digits)); [right; reflexivity|].
  destruct (negb (int_max_str_digits =? 0)%nat
            && (str_digits_check_threshold <? String.length digits)%nat
            && (int_max_str_digits <? String.length digits)%nat);
    [right; reflexivity|].
  left. eexists. reflexivity.
Qed.

Lemma convert_token (name : string) (line_no : Z) (t : string)
    (numbers : list Z) (errors : list error_record) :
  clean_token t ->
  parse_token int_max_str_digits name line_no (numbers, errors) t
  = Ok (numbers ++ valid_values (integer_value int_max_str_digits) [t],
        errors ++ map (Skipped name line_no)
                      (invalid_tokens (integer_value int_max_str_digits) [t])).
Proof.
  intros Hclean. unfold parse_token, integer_value.
  rewrite (strip_clean Hclean). destruct Hclean as [Hne _].
  destruct t as [|c0 rest]; [contradiction|].
  cbn [is_empty valid_values invalid_tokens flat_map filter].
  rewrite is_valid_integer_token_cases.
  destruct (if is_sign c0 then _ else _); cbn [bind negb].
  - destruct (int_of_token_raises (String c0 rest)) as [[n Hn] | Hraise].
    + rewrite Hn. cbn. rewrite !app_nil_r. reflexivity.
    + rewrite Hraise. cbn. rewrite !app_nil_r. reflexivity.
  - cbn. rewrite !app_nil_r. reflexivity.
Qed.

Lemma convert_tokens (name : string) (line_no : Z) (tokens : list string) :
  Forall clean_token tokens ->
  forall numbers errors,
    parse_tokens int_max_str_digits name line_no tokens (numbers, errors)
    = Ok (numbers ++ valid_values (integer_value int_max_str_digits) tokens,
          errors ++ map (Skipped name line_no)
                        (invalid_tokens (integer_value int_max_str_digits)
                                        tokens)).
Proof.
  induction 1 as [|t tokens Ht _ IH]; intros numbers errors.
  - simpl. rewrite !app_nil_r. reflexivity.
  - cbn [parse_tokens]. rewrite (convert_token name line_no numbers errors Ht).
    cbn [bind]. rewrite IH.
    change (t :: tokens) with ([t] ++ tokens).
    rewrite valid_values_app, invalid_tokens_app, map_app, !app_assoc.
    reflexivity.
Qed.

Lemma convert_lines (name : string) (raw_lines : list string) :
  forall line_no numbers errors,
  exists new_errors,
    parse_lines int_max_str_digits name line_no raw_lines (numbers, errors)
    = Ok (numbers ++ valid_values (integer_value int_max_str_digits)
                       (flat_map (fun raw_line =>
                          flat_map split_ws (split_on "," (strip raw_line)))
                          raw_lines),
          errors ++ new_errors)
    /\ records_of (invalid_tokens (integer_value int_max_str_digits)
                     (flat_map (fun raw_line =>
                        flat_map split_ws (split_on "," (strip raw_line)))
                        raw_lines))
                  new_errors.
Proof.
  induction raw_lines as [|raw raw_lines IH]; intros line_no numbers errors.
  - exists []. simpl. rewrite !app_nil_r.
    split; [reflexivity | split; reflexivity].
  - cbn [parse_lines flat_map].
    destruct (is_empty (strip raw)) eqn:Hblank.
    + rewrite (blank_line_tokens _ Hblank). apply IH.
    + unfold line_tokens.
      rewrite (convert_tokens name (line_no + 1)%Z
                 (line_tokens_clean (strip raw))).
      cbn [bind].
      destruct (IH (line_no + 1)%Z
                   (numbers ++ valid_values (integer_value int_max_str_digits)
                      (flat_map split_ws (split_on "," (strip raw))))
                   (errors ++ map (Skipped name (line_no + 1)%Z)
                      (invalid_tokens (integer_value int_max_str_digits)
                         (flat_map split_ws (split_on "," (strip raw))))))
        as (new_errors & Hrun & Hrec).
      eexists. rewrite Hrun, valid_values_app, invalid_tokens_app.
      rewrite <- !app_assoc. split; [reflexivity|].
      apply records_of_app; [apply records_of_map | assumption].
Qed.

(** The parser of the conversion tool returns on every file whose bytes
    can be decoded. *)
Lemma parse_integers_returns (path : string) (f : file) :
  f <> Undecodable ->
  exists numbers errors,
    parse_integers_from_file int_max_str_digits path f = Ok (numbers, errors).
Proof.
  intros Hf.
  destruct f as [| | |text]; simpl; try (eexists; eexists; reflexivity);
    [contradiction|].
  destruct (convert_lines (basename path) (readlines text) 0 [] [])
    as (new_errors & Hrun & _).
  rewrite Hrun. eexists; eexists; reflexivity.
Qed.

End IntegerParsing.

(** C7. On every readable file, in both tools, each token of the
    comma-then-whitespace split is classified once: the parsed values are the
    values of the valid tokens in order, the token-level error records name
    the invalid tokens in order, one record each, so the two counts add up
    to the number of tokens. *)
Theorem tokens_classified_once :
  forall (float_of_token : string -> option float) (int_max_str_digits : nat)
         (path text : string),
    (exists numbers errors,
       ComputeStatistics.parse_numbers_from_file float_of_token path
                                                 (Contents text)
       = Ok (numbers, errors)
       /\ numbers = valid_values float_of_token (file_tokens text)
       /\ skipped_tokens errors
          = invalid_tokens float_of_token (file_tokens text)
       /\ (List.length numbers + List.length errors
           = List.length (file_tokens text))%nat)
    /\ (exists numbers errors,
          ConvertNumbers.parse_integers_from_file int_max_str_digits path
                                                  (Contents text)
          = Ok (numbers, errors)
          /\ numbers = valid_values
                         (ConvertNumbers.integer_value int_max_str_digits)
                         (file_tokens text)
          /\ skipped_tokens errors
             = invalid_tokens (ConvertNumbers.integer_value int_max_str_digits)
                              (file_tokens text)
          /\ (List.length numbers + List.length errors
              = List.length (file_tokens text))%nat).
Proof.
  intros float_of_token int_max_str_digits path text. split.
  - cbn [ComputeStatistics.parse_numbers_from_file].
    destruct (statistics_lines float_of_token (basename path) (readlines text)
                               0 [] [])
      as (new_errors & Hrun & Hskip & Hlen).
    rewrite Hrun. cbn [app]. fold (file_tokens text) in *.
    eexists; eexists. repeat split; try assumption.
    rewrite Hlen. apply classified_count.
  - cbn [ConvertNumbers.parse_integers_from_file].
    destruct (convert_lines int_max_str_digits (basename path)
                            (readlines text) 0 [] [])
      as (new_errors & Hrun & Hskip & Hlen).
    rewrite Hrun. cbn [app]. fold (file_tokens text) in *.
    eexists; eexists. repeat split; try assumption.
    rewrite Hlen. apply classified_count.
Qed.

(** ** Word count *)

Section Words.

Import WordCount.
Open Scope Z_scope.

Lemma dict_get_set (counts : dict) (k : string) (v : Z) (w : string) :
  dict_get (dict_set counts k v) w =
  if String.eqb k w then Some v else dict_get counts w.
Proof.
  induction counts as [|[k' v'] counts IH]; simpl.
  - reflexivity.
  - destruct (String.eqb_spec k' k) as [-> | Hk]; simpl.
    + destruct (String.eqb k w); reflexivity.
    + rewrite IH. destruct (String.eqb_spec k' w) as [-> | Hw].
      * destruct (String.eqb_spec k w); [congruence | reflexivity].
      * reflexivity.
Qed.

Lemma dict_keys_set (counts : dict) (k : string) (v : Z) :
  map fst (dict_set counts k v) =
  match dict_get counts k with
  | Some _ => map fst counts
  | None => map fst counts ++ [k]
  end.
Proof.
  induction counts as [|[k' v'] counts IH]; simpl.
  - reflexivity.
  - destruct (String.eqb k' k); simpl; [reflexivity|].
    rewrite IH. destruct (dict_get counts k); reflexivity.
Qed.

Lemma occurrences_cons (w w' : string) (words : list string) :
  occurrences w (w' :: words) =
  (if String.eqb w' w then 1 else 0) + occurrences w words.
Proof.
  unfold occurrences. simpl.
  destruct (string_dec w' w) as [-> | Hne].
  - rewrite String.eqb_refl. lia.
  - destruct (String.eqb_spec w' w); [contradiction | lia].
Qed.

Lemma occurrences_nonneg (w : string) (words : list string) :
  0 <= occurrences w words.
Proof. unfold occurrences. lia. Qed.

(** The counts after the loop, from any dictionary it starts with. *)
Lemma count_words_get (words : list string) :
  forall (counts : dict) (w : string),
    dict_get (fold_left count_word words counts) w =
    match dict_get counts w with
    | Some c => Some (c + occurrences w words)
    | None => if occurrences w words =? 0 then None
              else Some (occurrences w words)
    end.
Proof.
  induction words as [|w' words IH]; intros counts w.
  - simpl. unfold occurrences. simpl.
    destruct (dict_get counts w); [f_equal; lia | reflexivity].
  - cbn [fold_left]. rewrite IH, occurrences_cons.
    pose proof (occurrences_nonneg w words) as Hnn.
    unfold count_word.
    destruct (dict_get counts w') as [c'|] eqn:Hget';
      rewrite dict_get_set;
      destruct (String.eqb_spec w' w) as [-> | Hne].
    + rewrite Hget'. f_equal. lia.
    + destruct (dict_get counts w); reflexivity.
    + rewrite Hget'.
      destruct (Z.eqb_spec (1 + occurrences w words) 0); [lia|reflexivity].
    + destruct (dict_get counts w); reflexivity.
Qed.

Lemma filter_filter {A} (f g : A -> bool) (l : list A) :
  filter f (filter g l) = filter (fun x => g x && f x) l.
Proof.
  induction l as [|x l IH]; simpl; [reflexivity|].
  destruct (g x); simpl; [destruct (f x)|]; congruence.
Qed.

Lemma count_words_keys (words : list string) :
  forall counts : dict,
    map fst (fold_left count_word words counts) =
    map fst counts ++ filter (absent counts) (first_seen words).
Proof.
  induction words as [|w words IH]; intros counts.
  - simpl. rewrite app_nil_r. reflexivity.
  - cbn [fold_left first_seen]. rewrite IH. unfold count_word.
    cbn [filter]. unfold absent at 2.
    destruct (dict_get counts w) as [c|] eqn:Hget;
      rewrite dict_keys_set, Hget, filter_filter.
    + f_equal. apply filter_ext. intros x. unfold absent.
      rewrite dict_get_set.
      destruct (String.eqb_spec w x) as [<- | Hne]; simpl;
        try rewrite Hget; reflexivity.
    + rewrite <- app_assoc. f_equal. simpl. f_equal.
      apply filter_ext. intros x. unfold absent.
      rewrite dict_get_set.
      destruct (String.eqb_spec w x); reflexivity.
Qed.

Lemma map_flat_map {A B C} (g : B -> C) (f : A -> list B) (l : list A) :
  map g (flat_map f l) = flat_map (fun x => map g (f x)) l.
Proof.
  induction l as [|x l IH]; simpl; [reflexivity|].
  rewrite map_app, IH. reflexivity.
Qed.

Lemma read_lines_spec (name : string) (raw_lines : list string) :
  forall line_number words errors,
    read_lines name line_number raw_lines (words, errors) =
    (words ++ flat_map (fun raw_line => line_words (strip raw_line)) raw_lines,
     errors ++ map (EmptyLine name) (blank_line_numbers line_number raw_lines)).
Proof.
  induction raw_lines as [|raw raw_lines IH]; intros line_number words errors.
  - simpl. rewrite !app_nil_r. reflexivity.
  - cbn [read_lines flat_map blank_line_numbers].
    destruct (strip raw) as [|c line] eqn:Hline.
    + cbn [String.eqb is_empty]. rewrite IH.
      cbn. rewrite <- app_assoc. reflexivity.
    + cbn [String.eqb is_empty]. rewrite IH, <- app_assoc. reflexivity.
Qed.

End Words.

(** C8. The words read from a file are the lower-cased tokens of its lines
    that are not blank, nothing else done to them; each blank line gives one
    error record and no word; the mapping has the distinct words as keys in
    the order of their first occurrence and sends each one to the number of
    its occurrences; "a A b" gives a: 2, b: 1; a file that cannot be opened
    or read gives one error record and the empty mapping. *)
Theorem word_count_mapping :
  forall path text : string,
    let words := map lower (WordCount.text_tokens text) in
    WordCount.read_words_from_file path (Contents text)
    = Ok (words,
          map (EmptyLine (basename path))
              (WordCount.blank_line_numbers 0 (readlines text)))
    /\ map fst (WordCount.count_words words) = WordCount.first_seen words
    /\ (forall w : string,
          WordCount.dict_get (WordCount.count_words words) w
          = if (WordCount.occurrences w words =? 0)%Z then None
            else Some (WordCount.occurrences w words))
    /\ (exists file_words file_errors,
          WordCount.read_words_from_file path (Contents "a A b")
          = Ok (file_words, file_errors)
          /\ WordCount.count_words file_words
             = [("a"%string, 2%Z); ("b"%string, 1%Z)])
    /\ WordCount.read_words_from_file path
         (Contents ("a" ++ String LF (String LF "b")))
       = Ok (["a"%string; "b"%string], [EmptyLine (basename path) 2])
    /\ WordCount.read_words_from_file path NoSuchFile
       = Ok ([], [ErrorOpening path])
    /\ WordCount.read_words_from_file path Unreadable
       = Ok ([], [ErrorOpening path])
    /\ WordCount.count_words [] = [].
Proof.
  intros path text words. subst words.
  cbn [WordCount.read_words_from_file].
  rewrite read_lines_spec. cbn [fst snd app].
  split; [|split; [|split; [|split;
    [eexists; eexists; split; reflexivity | repeat split]]]].
  - unfold WordCount.text_tokens, WordCount.line_words.
    rewrite map_flat_map. reflexivity.
  - unfold WordCount.count_words. rewrite count_words_keys.
    cbn [map app]. rewrite filter_ext with (g := fun _ => true);
      [|reflexivity].
    induction (WordCount.first_seen _) as [|x l IH]; simpl; congruence.
  - intros w. unfold WordCount.count_words. rewrite count_words_get.
    reflexivity.
Qed.


(** ** Sales totals *)

Lemma insert_by_perm {A} (before : A -> A -> bool) (x : A) (l : list A) :
  Permutation (insert_by before x l) (x :: l).
Proof.
  induction l as [|y l IH]; simpl.
  - apply Permutation_refl.
  - destruct (before x y).
    + apply Permutation_refl.
    + eapply Permutation_trans; [apply perm_skip, IH | apply perm_swap].
Qed.

Lemma sort_by_perm {A} (before : A -> A -> bool) (l : list A) :
  Permutation (sort_by before l) l.
Proof.
  induction l as [|x l IH]; simpl.
  - apply Permutation_refl.
  - eapply Permutation_trans; [apply insert_by_perm | apply perm_skip, IH].
Qed.

Lemma sort_by_In {A} (before : A -> A -> bool) (l : list A) (x : A) :
  In x (sort_by before l) <-> In x l.
Proof.
  split; apply Permutation_in;
    [|apply Permutation_sym]; apply sort_by_perm.
Qed.

Section Sales.

Import ComputeSales.
Local Set Default Proof Using "Type".

Variable num : Type.
Variable nzero : num.
Variable nmul : num -> num -> num.
Variable nsum : list num -> num.
Variable nleb : num -> num -> bool.









End Sales.


(** ** Binary64 arithmetic of the statistics tool *)

Section Binary64.

Local Set Default Proof Using "Type".
Open Scope Z_scope.

Lemma Prim2SF_inj (x y : float) : Prim2SF x = Prim2SF y -> x = y.
Proof.
  intros H. rewrite <- (SF2Prim_Prim2SF x), <- (SF2Prim_Prim2SF y), H.
  reflexivity.
Qed.

Lemma binary_round_aux_sign (sx : bool) (m e : Z) (l : location) :
  ComputeStatistics.sign_is sx (binary_round_aux prec emax sx m e l).
Proof.
  unfold binary_round_aux.
  destruct (shr_fexp prec emax m e l) as [mrs' e'].
  destruct (shr_fexp prec emax _ e' loc_Exact) as [mrs'' e''].
  destruct (shr_m mrs'') as [|p|p]; [reflexivity| |exact I].
  destruct (_ <=? _); reflexivity.
Qed.

Lemma binary_normalize_sign (m e : Z) :
  0 <= m -> ComputeStatistics.sign_is false (binary_normalize prec emax m e false).
Proof.
  intros Hm. destruct m as [|p|p]; simpl; [reflexivity| |lia].
  unfold binary_round.
  destruct (shl_align p e _) as [mz ez]. apply binary_round_aux_sign.
Qed.

Lemma SFmul_self_sign (x : spec_float) :
  ComputeStatistics.sign_is false (SFmul prec emax x x).
Proof.
  destruct x as [s|s| |s m e]; cbn [SFmul ComputeStatistics.sign_is];
    try apply xorb_nilpotent; try exact I.
  rewrite xorb_nilpotent. apply binary_round_aux_sign.
Qed.

Lemma SFadd_sign (x y : spec_float) :
  ComputeStatistics.sign_is false x -> ComputeStatistics.sign_is false y -> ComputeStatistics.sign_is false (SFadd prec emax x y).
Proof.
  destruct x as [sx|sx| |sx mx ex], y as [sy|sy| |sy my ey];
    intros Hx Hy; cbn [ComputeStatistics.sign_is] in Hx, Hy; subst;
    try exact I; try reflexivity.
  unfold SFadd. apply binary_normalize_sign. unfold cond_Zopp. lia.
Qed.

Lemma SFdiv_sign (x y : spec_float) :
  ComputeStatistics.sign_is false x -> ComputeStatistics.sign_is false y -> ComputeStatistics.sign_is false (SFdiv prec emax x y).
Proof.
  destruct x as [sx|sx| |sx mx ex], y as [sy|sy| |sy my ey];
    intros Hx Hy; cbn [ComputeStatistics.sign_is] in Hx, Hy; subst;
    try exact I; try reflexivity.
  unfold SFdiv.
  destruct (SFdiv_core_binary prec emax (Z.pos mx) ex (Z.pos my) ey)
    as [[mz ez] lz].
  apply binary_round_aux_sign.
Qed.

Lemma float_of_int_sign (count : Z) :
  ComputeStatistics.sign_is false (Prim2SF (ComputeStatistics.float_of_int count)).
Proof.
  unfold ComputeStatistics.float_of_int. rewrite of_uint63_spec.
  apply binary_normalize_sign.
  apply Uint63.to_Z_bounded.
Qed.

Lemma not_below_zero (x : float) :
  ComputeStatistics.sign_is false (Prim2SF x) -> (x <? 0)%float = false.
Proof.
  intros Hx. rewrite ltb_spec.
  change (Prim2SF 0) with (S754_zero false).
  destruct (Prim2SF x) as [s|s| |s m e]; simpl in *; subst; reflexivity.
Qed.

End Binary64.

(** ** Statistics: the divisions are defined *)

Section Statistics.

Import ComputeStatistics.
Local Set Default Proof Using "Type".
Open Scope Z_scope.

Lemma mean_loop_count (values : list float) :
  forall total count,
    snd (fold_left (fun '(total, count) value =>
                      ((total + value)%float, count + 1))
                   values (total, count))
    = count + Z.of_nat (List.length values).
Proof.
  induction values as [|v values IH]; intros total count; simpl fold_left.
  - simpl. lia.
  - rewrite IH. cbn [List.length]. lia.
Qed.

Lemma variance_loop_count (mean : float) (values : list float) :
  forall total count,
    snd (fold_left (fun '(total, count) value =>
                      let diff := (value - mean)%float in
                      ((total + diff * diff)%float, count + 1))
                   values (total, count))
    = count + Z.of_nat (List.length values).
Proof.
  induction values as [|v values IH]; intros total count; simpl fold_left.
  - simpl. lia.
  - rewrite IH. cbn [List.length]. lia.
Qed.

Lemma variance_loop_sign (mean : float) (values : list float) :
  forall total count,
    sign_is false (Prim2SF total) ->
    sign_is false
      (Prim2SF (fst (fold_left (fun '(total, count) value =>
                                  let diff := (value - mean)%float in
                                  ((total + diff * diff)%float, count + 1))
                               values (total, count)))).
Proof.
  induction values as [|v values IH]; intros total count Htotal;
    simpl fold_left.
  - assumption.
  - apply IH. rewrite add_spec, mul_spec.
    apply SFadd_sign; [assumption | apply SFmul_self_sign].
Qed.

Lemma truediv_nonempty (total : float) (count : Z) :
  0 < count ->
  truediv total count = Ok (total / float_of_int count)%float.
Proof.
  intros Hc. unfold truediv.
  destruct (Z.eqb_spec count 0); [lia | reflexivity].
Qed.

(** On a list that is not empty, [compute_mean] divides by its length. *)
Lemma compute_mean_nonempty (values : list float) :
  values <> [] ->
  compute_mean values
  = Ok (PrimFloat.div
          (fst (fold_left (fun '(total, count) value =>
                             ((total + value)%float, count + 1))
                          values (0%float, 0)))
          (float_of_int (Z.of_nat (List.length values)))).
Proof.
  intros Hne. unfold compute_mean.
  pose proof (mean_loop_count values 0%float 0) as Hcount.
  destruct (fold_left _ values (0%float, 0)) as [total count].
  cbn [fst snd] in *. subst count. rewrite Z.add_0_l.
  apply truediv_nonempty. destruct values; [contradiction | simpl; lia].
Qed.

Lemma compute_population_variance_nonempty (values : list float)
    (mean : float) :
  values <> [] ->
  exists total,
    compute_population_variance values mean
    = Ok (total / float_of_int (Z.of_nat (List.length values)))%float
    /\ total = fst (fold_left (fun '(total, count) value =>
                                 let diff := (value - mean)%float in
                                 ((total + diff * diff)%float, count + 1))
                              values (0%float, 0))
    /\ sign_is false
         (Prim2SF (total / float_of_int (Z.of_nat (List.length values)))).
Proof.
  intros Hne. unfold compute_population_variance.
  pose proof (variance_loop_count mean values 0%float 0) as Hcount.
  pose proof (variance_loop_sign mean values 0%float 0 eq_refl) as Hsign.
  destruct (fold_left _ values (0%float, 0)) as [total count].
  cbn [fst snd] in *. subst count. rewrite Z.add_0_l.
  exists total. split; [|split; [reflexivity|]].
  - apply truediv_nonempty. destruct values; [contradiction | simpl; lia].
  - rewrite div_spec. apply SFdiv_sign; [assumption|].
    apply float_of_int_sign.
Qed.

Lemma sorted_length (numbers : list float) :
  List.length (sorted numbers) = List.length numbers.
Proof. apply Permutation_length, sort_by_perm. Qed.

Lemma index_in_range (values : list float) (i : Z) :
  0 <= i < Z.of_nat (List.length values) ->
  exists v, index values i = Ok v.
Proof.
  intros Hi. unfold index.
  destruct (Z.ltb_spec i 0); [lia|].
  destruct (Z.ltb_spec i 0); [lia|].
  destruct (Z.leb_spec (Z.of_nat (List.length values)) i); [lia|].
  cbn [orb].
  destruct (nth_error values (Z.to_nat i)) as [v|] eqn:Hnth.
  - exists v. reflexivity.
  - apply nth_error_None in Hnth. lia.
Qed.

Lemma compute_median_nonempty (sorted_values : list float) :
  sorted_values <> [] -> exists m, compute_median sorted_values = Ok m.
Proof.
  intros Hne. unfold compute_median.
  set (size := Z.of_nat (List.length sorted_values)).
  assert (Hsize : 0 < size)
    by (subst size; destruct sorted_values; [contradiction | simpl; lia]).
  destruct (Z.eqb_spec (size mod 2) 1) as [Hodd | Heven].
  - apply index_in_range. fold size.
    pose proof (Z.div_mod size 2 ltac:(lia)). lia.
  - assert (Hmod : size mod 2 = 0)
      by (pose proof (Z.mod_pos_bound size 2 ltac:(lia)); lia).
    pose proof (Z.div_mod size 2 ltac:(lia)) as Hdm.
    destruct (@index_in_range sorted_values (size / 2 - 1)) as [lo Hlo];
      [fold size; lia|].
    destruct (@index_in_range sorted_values (size / 2)) as [hi Hhi];
      [fold size; lia|].
    rewrite Hlo, Hhi. eexists. reflexivity.
Qed.

End Statistics.

(** The parser of the statistics tool returns on every file whose bytes
    can be decoded. *)
Lemma parse_numbers_returns (float_of_token : string -> option float)
    (path : string) (f : file) :
  f <> Undecodable ->
  exists numbers errors,
    ComputeStatistics.parse_numbers_from_file float_of_token path f
    = Ok (numbers, errors).
Proof.
  intros Hf. destruct f as [| | |text]; try contradiction;
    cbn [ComputeStatistics.parse_numbers_from_file].
  - eexists; eexists; reflexivity.
  - eexists; eexists; reflexivity.
  - destruct (ComputeStatistics.parse_lines float_of_token (basename path) 0
                (readlines text) ([], [])) as [numbers errors].
    eexists; eexists; reflexivity.
Qed.

(** [compute_statistics_for_file] returns once the parser has: no division
    by zero, no index out of range, no domain error of the square root. *)
Lemma statistics_file_returns (float_of_token : string -> option float)
    (path : string) (f : file) (numbers : list float)
    (errors : list error_record) :
  ComputeStatistics.parse_numbers_from_file float_of_token path f
  = Ok (numbers, errors) ->
  exists body,
    ComputeStatistics.compute_statistics_for_file float_of_token path f
    = Ok (basename path, body, errors).
Proof.
  intros Hparse. unfold ComputeStatistics.compute_statistics_for_file.
  rewrite Hparse. cbn [bind].
  destruct numbers as [|x numbers]; [eexists; reflexivity|].
  assert (Hne : x :: numbers <> []) by discriminate.
  rewrite (compute_mean_nonempty Hne). cbn [bind].
  destruct (@compute_median_nonempty (ComputeStatistics.sorted (x :: numbers)))
    as [median Hmedian].
  { intros Hnil. apply (f_equal (@List.length float)) in Hnil.
    rewrite sorted_length in Hnil. discriminate. }
  rewrite Hmedian. cbn [bind].
  match goal with
  | |- context [ComputeStatistics.compute_population_variance _ ?m] =>
      destruct (@compute_population_variance_nonempty (x :: numbers) m Hne)
        as (total & Hvar & _ & Hsign)
  end.
  rewrite Hvar. cbn [bind].
  unfold ComputeStatistics.math_sqrt. rewrite (not_below_zero _ Hsign).
  cbn [bind]. eexists. reflexivity.
Qed.

(** C9. [compute_mean] and [compute_population_variance] divide by the
    number of elements: on the empty list the division raises, on every
    other list it is defined; [compute_statistics_for_file] returns the
    "no data" section without calling them when no number was parsed, and
    returns a section on every file that the parser returns on, so the
    raising branch is never reached. The one file the parser does not return
    on is a file that is not UTF-8: there the decoding error is raised, before
    any division. *)
Theorem division_by_zero_unreachable :
  forall (float_of_token : string -> option float) (path : string) (f : file)
         (values : list float) (mean : float),
    (ComputeStatistics.compute_mean [] = Raise ZeroDivisionError
     /\ ComputeStatistics.compute_population_variance [] mean
        = Raise ZeroDivisionError)
    /\ (values <> [] ->
        (exists m, ComputeStatistics.compute_mean values = Ok m)
        /\ (exists v,
              ComputeStatistics.compute_population_variance values mean
              = Ok v))
    /\ (forall errors,
          ComputeStatistics.parse_numbers_from_file float_of_token path f
          = Ok ([], errors) ->
          ComputeStatistics.compute_statistics_for_file float_of_token path f
          = Ok (basename path, ComputeStatistics.NoValidData, errors))
    /\ match f with
       | Undecodable =>
           ComputeStatistics.compute_statistics_for_file float_of_token path f
           = Raise UnicodeDecodeError
       | NoSuchFile | Unreadable | Contents _ =>
           exists section,
             ComputeStatistics.compute_statistics_for_file float_of_token
                                                           path f
             = Ok section
       end.
Proof.
  intros float_of_token path f values mean.
  split; [split; reflexivity|].
  split.
  { intros Hne. split.
    - eexists. apply compute_mean_nonempty. assumption.
    - destruct (@compute_population_variance_nonempty values mean Hne)
        as (total & Hvar & _). eexists. exact Hvar. }
  split.
  { intros errors Hparse.
    unfold ComputeStatistics.compute_statistics_for_file.
    rewrite Hparse. reflexivity. }
  assert (Hreturns : f <> Undecodable ->
            exists section,
              ComputeStatistics.compute_statistics_for_file float_of_token
                                                            path f
              = Ok section).
  { intros Hf.
    destruct (@parse_numbers_returns float_of_token path f Hf)
      as (numbers & errors & Hparse).
    destruct (@statistics_file_returns float_of_token path f numbers errors
                                       Hparse) as [body Hrun].
    eexists. exact Hrun. }
  destruct f as [| | |text]; try (apply Hreturns; discriminate).
  reflexivity.
Qed.

(** ** Exit codes *)

Section ExitCodes.

Local Set Default Proof Using "Type".

(** The loop over the files raises at the first file whose step raises,
    and returns when no step does. *)
Lemma for_each_file_outcome {S E : Type}
    (process : string -> result (S * list E)) (bad : string -> bool)
    (e : exn) (paths : list string) :
  (forall path, bad path = false -> exists r, process path = Ok r) ->
  (forall path, bad path = true -> process path = Raise e) ->
  if existsb bad paths then for_each_file process paths = Raise e
  else exists r, for_each_file process paths = Ok r.
Proof.
  intros Hgood Hbad. induction paths as [|path paths IH].
  - cbn. eexists. reflexivity.
  - cbn [existsb for_each_file]. destruct (bad path) eqn:Hpath; cbn [orb].
    + rewrite (Hbad path Hpath). reflexivity.
    + destruct (Hgood path Hpath) as [[section errors] Hp].
      rewrite Hp. cbn [bind].
      destruct (existsb bad paths).
      * rewrite IH. reflexivity.
      * destruct IH as [[sections all_errors] IH]. rewrite IH. cbn [bind].
        eexists. reflexivity.
Qed.

(** The exit status of a text tool whose step for one file returns on
    every file but those that cannot be decoded. *)
Lemma text_tool_main_status {S : Type} (fs : filesystem)
    (resolve : string -> string) (prints_per_file : bool)
    (process : string -> result (S * list error_record))
    (argv : list string) :
  (forall path, undecodable (fs_open fs path) = false ->
                exists r, process path = Ok r) ->
  (forall path, undecodable (fs_open fs path) = true ->
                process path = Raise UnicodeDecodeError) ->
  status (text_tool_main fs resolve prints_per_file process argv) =
  match argv with
  | [] | [_] => Exit 2
  | _ :: arg :: _ =>
      if negb (fs_makedirs_ok fs) then Uncaught OSError
      else
        match input_files fs (resolve arg) with
        | Raise e => Uncaught e
        | Ok [] => Exit 1
        | Ok ((_ :: _) as files) =>
            if existsb (fun path => undecodable (fs_open fs path)) files
            then Uncaught UnicodeDecodeError
            else if fs_write_ok fs then Exit 0 else Uncaught OSError
        end
  end.
Proof.
  intros Hgood Hbad. unfold text_tool_main.
  destruct argv as [|prog [|arg rest]]; try reflexivity.
  destruct (fs_makedirs_ok fs); cbn [negb]; [|reflexivity].
  destruct (input_files fs (resolve arg)) as [[|p paths]|e]; try reflexivity.
  cbv beta iota.
  pose proof (@for_each_file_outcome _ _ process
                (fun path => undecodable (fs_open fs path))
                UnicodeDecodeError (p :: paths) Hgood Hbad) as Hrun.
  destruct (existsb _ (p :: paths)).
  - rewrite Hrun. reflexivity.
  - destruct Hrun as [[report errors] Hrun]. rewrite Hrun. reflexivity.
Qed.

(** The step for one file, in each tool: it returns a section headed by the
    base name, or raises the decoding error. *)
Lemma convert_file_outcome (int_max_str_digits : nat) (fs : filesystem)
    (path : string) :
  (undecodable (fs_open fs path) = false ->
   exists rows errors,
     ConvertNumbers.convert_file int_max_str_digits fs path
     = Ok (basename path, rows, errors))
  /\ (undecodable (fs_open fs path) = true ->
      ConvertNumbers.convert_file int_max_str_digits fs path
      = Raise UnicodeDecodeError).
Proof.
  unfold ConvertNumbers.convert_file. split; intros Hf.
  - destruct (@parse_integers_returns int_max_str_digits path
                (fs_open fs path)) as (numbers & errors & Hparse).
    { intros Heq. rewrite Heq in Hf. discriminate. }
    rewrite Hparse. eexists; eexists. reflexivity.
  - destruct (fs_open fs path); try discriminate. reflexivity.
Qed.

Lemma statistics_step_outcome (float_of_token : string -> option float)
    (fs : filesystem) (path : string) :
  (undecodable (fs_open fs path) = false ->
   exists body errors,
     ComputeStatistics.compute_statistics_for_file float_of_token path
                                                   (fs_open fs path)
     = Ok (basename path, body, errors))
  /\ (undecodable (fs_open fs path) = true ->
      ComputeStatistics.compute_statistics_for_file float_of_token path
                                                    (fs_open fs path)
      = Raise UnicodeDecodeError).
Proof.
  split; intros Hf.
  - destruct (@parse_numbers_returns float_of_token path (fs_open fs path))
      as (numbers & errors & Hparse).
    { intros Heq. rewrite Heq in Hf. discriminate. }
    destruct (@statistics_file_returns float_of_token path (fs_open fs path)
                                       numbers errors Hparse) as [body Hrun].
    exists body, errors. exact Hrun.
  - destruct (fs_open fs path); try discriminate. reflexivity.
Qed.

Lemma word_count_step_outcome (fs : filesystem) (path : string) :
  (undecodable (fs_open fs path) = false ->
   exists counts errors,
     bind (WordCount.read_words_from_file path (fs_open fs path))
          (fun '(words, errors) =>
             Ok (basename path, WordCount.count_words words, errors))
     = Ok (basename path, counts, errors))
  /\ (undecodable (fs_open fs path) = true ->
      bind (WordCount.read_words_from_file path (fs_open fs path))
           (fun '(words, errors) =>
              Ok (basename path, WordCount.count_words words, errors))
      = Raise UnicodeDecodeError).
Proof.
  split; intros Hf.
  - destruct (fs_open fs path) as [| | |text]; try discriminate;
      cbn [WordCount.read_words_from_file bind].
    + eexists; eexists. reflexivity.
    + eexists; eexists. reflexivity.
    + destruct (WordCount.read_lines (basename path) 0 (readlines text)
                                     ([], [])) as [words errors].
      eexists; eexists. reflexivity.
  - destruct (fs_open fs path); try discriminate. reflexivity.
Qed.

Variable num : Type.
Variable nzero : num.
Variable nmul : num -> num -> num.
Variable nsum : list num -> num.
Variable nleb : num -> num -> bool.

(** [process_tc] lets through the exceptions that its [except] clause does
    not name, and turns every other failure into a report. *)
Lemma process_tc_outcome (tc : ComputeSales.tc_folder num)
    (df_catalogue_base : list (ComputeSales.catalogue_row num)) :
  match ComputeSales.escaping tc with
  | Some e =>
      ComputeSales.process_tc nzero nmul nsum nleb tc df_catalogue_base
      = Raise e
  | None =>
      exists r,
        ComputeSales.process_tc nzero nmul nsum nleb tc df_catalogue_base
        = Ok r
        /\ ComputeSales.report_name r = ComputeSales.tc_name tc
        /\ ComputeSales.expected_report tc r
  end.
Proof.
  unfold ComputeSales.process_tc, ComputeSales.escaping,
         ComputeSales.expected_report.
  destruct (ComputeSales.sales_files tc) as [|f files].
  - eexists. split; [reflexivity|]. split; reflexivity.
  - destruct f as [| |[rows| |e]];
      cbn [ComputeSales.load_json_file bind ComputeSales.to_dataframe_sales
           ComputeSales.caught].
    + eexists. split; [reflexivity|]. split; reflexivity.
    + eexists. split; [reflexivity|]. split; reflexivity.
    + destruct (ComputeSales.clean_data nzero nleb df_catalogue_base _)
        as [[df_cat_clean df_sales_clean] errors].
      destruct (ComputeSales.compute_totals nmul nsum nleb df_cat_clean
                                            df_sales_clean)
        as [detail missing].
      eexists. split; [reflexivity|]. split; [reflexivity|].
      eexists. reflexivity.
    + eexists. split; [reflexivity|]. split; reflexivity.
    + destruct (ComputeSales.caught e); [|reflexivity].
      eexists. split; [reflexivity|]. split; reflexivity.
Qed.

Lemma process_all_outcome (tcs : list (ComputeSales.tc_folder num))
    (df_catalogue_base : list (ComputeSales.catalogue_row num)) :
  match ComputeSales.first_escaping tcs with
  | Some e =>
      ComputeSales.process_all nzero nmul nsum nleb tcs df_catalogue_base
      = Raise e
  | None =>
      exists reports,
        ComputeSales.process_all nzero nmul nsum nleb tcs df_catalogue_base
        = Ok reports
        /\ map (@ComputeSales.report_name num) reports
           = map (@ComputeSales.tc_name num) tcs
        /\ Forall2 (@ComputeSales.expected_report num) tcs reports
  end.
Proof.
  induction tcs as [|tc tcs IH].
  - exists []. split; [reflexivity|]. split; [reflexivity | constructor].
  - cbn [ComputeSales.first_escaping ComputeSales.process_all].
    pose proof (process_tc_outcome tc df_catalogue_base) as Htc.
    destruct (ComputeSales.escaping tc) as [e|].
    + rewrite Htc. reflexivity.
    + destruct Htc as (r & Hr & Hname & Hkind). rewrite Hr. cbn [bind].
      destruct (ComputeSales.first_escaping tcs) as [e|].
      * rewrite IH. reflexivity.
      * destruct IH as (reports & Hrun & Hnames & Hkinds).
        rewrite Hrun. cbn [bind]. exists (r :: reports).
        split; [reflexivity|]. cbn [map].
        split; [rewrite Hname, Hnames; reflexivity|].
        constructor; assumption.
Qed.

(** The exit status of the sales tool, from what it finds. *)
Lemma sales_main_status (env : ComputeSales.environment num)
    (prog base_folder : string) :
  fst (ComputeSales.main nzero nmul nsum nleb env [prog; base_folder])
  = if negb (ComputeSales.is_dir env base_folder) then Exit 1
    else if negb (ComputeSales.output_dir_ok env) then Exit 1
    else
      match ComputeSales.load_base_catalogue env base_folder with
      | Raise e => if ComputeSales.caught e then Exit 1 else Uncaught e
      | Ok _ =>
          if negb (ComputeSales.iterdir_ok env) then Uncaught OSError
          else
            match ComputeSales.subfolders env base_folder with
            | [] => Exit 1
            | (_ :: _) as tc_folders =>
                match ComputeSales.first_escaping tc_folders with
                | Some e => Uncaught e
                | None => Exit (if ComputeSales.write_ok env then 0 else 1)
                end
            end
      end.
Proof.
  unfold ComputeSales.main.
  destruct (ComputeSales.is_dir env base_folder); cbn [negb]; [|reflexivity].
  destruct (ComputeSales.output_dir_ok env); cbn [negb]; [|reflexivity].
  destruct (ComputeSales.load_base_catalogue env base_folder) as [cat|e];
    [|destruct (ComputeSales.caught e); reflexivity].
  destruct (ComputeSales.iterdir_ok env); cbn [negb]; [|reflexivity].
  destruct (ComputeSales.subfolders env base_folder) as [|tc tcs];
    [reflexivity|].
  pose proof (process_all_outcome (tc :: tcs) cat) as Hrun.
  destruct (ComputeSales.first_escaping (tc :: tcs)) as [e|].
  - rewrite Hrun. reflexivity.
  - destruct Hrun as (reports & Hrun & _). rewrite Hrun. reflexivity.
Qed.

End ExitCodes.

(** C2, against the claim as stated: run without its argument the sales tool
    exits with 1, not 2; and a text tool whose input file does not exist
    records the error and exits with 0, not 1. *)
Lemma exit_code_counterexample :
  fst (ComputeSales.main 0%float PrimFloat.mul ComputeSales.float_sum
         PrimFloat.leb
         (ComputeSales.MkEnv (fun _ => true) true (fun _ => []) true true)
         ["compute_sales.py"%string])
  = Exit 1
  /\ Exit 1 <> Exit 2
  /\ ConvertNumbers.main 4300
       (MkFs (fun _ => false) (fun _ => Ok []) (fun _ => NoSuchFile)
             true true "/repo")
       ["convert_numbers.py"%string; "absent.txt"%string]
     = MkRun (Exit 0) [FileNotFound "/repo/absent.txt"] [("absent.txt"%string, [])].
Proof.
  split; [reflexivity|]. split; [discriminate | reflexivity].
Qed.

(** C2, amended. The three text tools exit with 2 when the argument is
    missing. Given an argument, [main] ends as [ending] says. It returns 1
    exactly when the output folder can be made and the argument is a folder
    that can be listed and holds no TC*.txt file. It returns 0, and only so
    does the process exit with 0, exactly when the output folder can be
    made, the files to go through are known and at least one, each of them
    can be decoded and the report can be written, whatever else the files
    hold (a missing or unreadable input file and invalid tokens are
    recorded as errors). In the cases left (the output folder cannot be
    made, the folder cannot be listed, a file is not UTF-8, the report
    cannot be written) an exception that nothing catches ends the run and
    the process exits with 1. The process of the sales tool exits with 0 or
    1 only. Its [main] returns 1 whenever it is not given exactly one
    argument; given one, it returns 1 when the base folder is not there,
    the output folder cannot be made, the catalogue of TC1 fails to load
    with an exception that [main] catches, there is no sub-folder or the
    report cannot be written; it ends in an exception when the catalogue
    loader raises one that [main] does not catch, when the base folder
    cannot be listed, or when the sales file of a sub-folder makes its
    loader raise one that [process_tc] does not catch; and it returns 0
    otherwise. *)
Theorem exit_codes_by_tool :
  forall (fs : filesystem) (float_of_token : string -> option float)
         (int_max_str_digits : nat) (argv : list string),
    let ending (input_path : string) : outcome :=
      if negb (fs_makedirs_ok fs) then Uncaught OSError
      else
        match input_files fs input_path with
        | Raise e => Uncaught e
        | Ok [] => Exit 1
        | Ok ((_ :: _) as files) =>
            if existsb (fun path => undecodable (fs_open fs path)) files
            then Uncaught UnicodeDecodeError
            else if fs_write_ok fs then Exit 0 else Uncaught OSError
        end in
    ((List.length argv < 2)%nat ->
     status (ConvertNumbers.main int_max_str_digits fs argv) = Exit 2
     /\ status (ComputeStatistics.main float_of_token fs argv) = Exit 2
     /\ status (WordCount.main fs argv) = Exit 2)
    /\ (forall prog arg rest,
          argv = prog :: arg :: rest ->
          status (ConvertNumbers.main int_max_str_digits fs argv)
          = ending (resolve_input_path fs arg)
          /\ status (ComputeStatistics.main float_of_token fs argv)
             = ending arg
          /\ status (WordCount.main fs argv)
             = ending (resolve_input_path fs arg))
    /\ (forall input_path,
          ending input_path = Exit 1 <->
          fs_makedirs_ok fs = true
          /\ fs_isdir fs input_path = true
          /\ list_tc_files fs input_path = Ok [])
    /\ (forall input_path,
          exit_code (ending input_path) = 0%Z <->
          fs_makedirs_ok fs = true
          /\ fs_write_ok fs = true
          /\ exists files,
               input_files fs input_path = Ok files
               /\ files <> []
               /\ existsb (fun path => undecodable (fs_open fs path)) files
                  = false)
    /\ (forall input_path,
          exit_code (ending input_path) = 0%Z
          \/ exit_code (ending input_path) = 1%Z)
    /\ (forall (num : Type) (nzero : num) (nmul : num -> num -> num)
               (nsum : list num -> num) (nleb : num -> num -> bool)
               (env : ComputeSales.environment num),
          (exit_code (fst (ComputeSales.main nzero nmul nsum nleb env argv))
           = 0%Z
           \/ exit_code (fst (ComputeSales.main nzero nmul nsum nleb env argv))
              = 1%Z)
          /\ (List.length argv <> 2%nat ->
              fst (ComputeSales.main nzero nmul nsum nleb env argv) = Exit 1)
          /\ (forall prog base_folder,
                argv = [prog; base_folder] ->
                fst (ComputeSales.main nzero nmul nsum nleb env argv)
                = if negb (ComputeSales.is_dir env base_folder) then Exit 1
                  else if negb (ComputeSales.output_dir_ok env) then Exit 1
                  else
                    match ComputeSales.load_base_catalogue
                            env base_folder with
                    | Raise e =>
                        if ComputeSales.caught e then Exit 1 else Uncaught e
                    | Ok _ =>
                        if negb (ComputeSales.iterdir_ok env)
                        then Uncaught OSError
                        else
                          match ComputeSales.subfolders env base_folder with
                          | [] => Exit 1
                          | (_ :: _) as tc_folders =>
                              match ComputeSales.first_escaping
                                      tc_folders with
                              | Some e => Uncaught e
                              | None =>
                                  Exit (if ComputeSales.write_ok env
                                        then 0 else 1)
                              end
                          end
                    end))
    /\ ConvertNumbers.main 4300
         (MkFs (fun _ => false) (fun _ => Ok []) (fun _ => Contents "1 x 2")
               true true "/repo")
         ["convert_numbers.py"%string; "data.txt"%string]
       = MkRun (Exit 0) [Skipped "data.txt" 1 "x"]
               [("data.txt"%string,
                 [(1%Z, "1"%string, "1"%string);
                  (2%Z, "10"%string, "2"%string)])].
Proof.
  intros fs float_of_token int_max_str_digits argv ending.
  assert (Hconv := fun path =>
            convert_file_outcome int_max_str_digits fs path).
  assert (Hstat := fun path =>
            statistics_step_outcome float_of_token fs path).
  assert (Hwc := fun path => word_count_step_outcome fs path).
  unfold ConvertNumbers.main, ComputeStatistics.main, WordCount.main.
  rewrite (@text_tool_main_status _ fs (resolve_input_path fs) false _ argv);
    [| intros path Hf; destruct (proj1 (Hconv path) Hf) as (rows & errors & H);
       eexists; exact H
     | intros path Hf; exact (proj2 (Hconv path) Hf)].
  rewrite (@text_tool_main_status _ fs (fun p => p) false _ argv);
    [| intros path Hf; destruct (proj1 (Hstat path) Hf) as (body & errors & H);
       eexists; exact H
     | intros path Hf; exact (proj2 (Hstat path) Hf)].
  rewrite (@text_tool_main_status _ fs (resolve_input_path fs) true _ argv);
    [| intros path Hf; destruct (proj1 (Hwc path) Hf) as (counts & errors & H);
       eexists; exact H
     | intros path Hf; exact (proj2 (Hwc path) Hf)].
  split.
  { intros Hlen. destruct argv as [|prog [|arg rest]];
      [repeat split | repeat split | simpl in Hlen; lia]. }
  split.
  { intros prog arg rest ->. repeat split. }
  split.
  { intros input_path. subst ending. cbv beta. unfold input_files.
    destruct (fs_makedirs_ok fs); cbn [negb].
    - destruct (fs_isdir fs input_path).
      + destruct (list_tc_files fs input_path) as [[|p paths]|e].
        * split; [intros _; repeat split | reflexivity].
        * split.
          -- destruct (existsb _ (p :: paths)); [discriminate|].
             destruct (fs_write_ok fs); discriminate.
          -- intros (_ & _ & H). discriminate H.
        * split; [discriminate | intros (_ & _ & H); discriminate H].
      + split.
        * destruct (existsb _ [input_path]); [discriminate|].
          destruct (fs_write_ok fs); discriminate.
        * intros (_ & H & _). discriminate H.
    - split; [discriminate | intros (H & _); discriminate H]. }
  split.
  { intros input_path. subst ending. cbv beta.
    destruct (fs_makedirs_ok fs); cbn [negb exit_code];
      [|split; [discriminate | intros (H & _); discriminate H]].
    destruct (input_files fs input_path) as [[|p paths]|e]; cbn [exit_code].
    - split; [discriminate|].
      intros (_ & _ & files & Hfiles & Hne & _).
      injection Hfiles as <-. contradiction.
    - destruct (existsb _ (p :: paths)) eqn:Hany; cbn [exit_code].
      + split; [discriminate|].
        intros (_ & _ & files & Hfiles & _ & Hbad).
        injection Hfiles as <-. rewrite Hany in Hbad. discriminate Hbad.
      + destruct (fs_write_ok fs); cbn [exit_code].
        * split; [intros _ | reflexivity].
          split; [reflexivity|]. split; [reflexivity|].
          exists (p :: paths).
          split; [reflexivity|]. split; [discriminate | exact Hany].
        * split; [discriminate | intros (_ & H & _); discriminate H].
    - split; [discriminate|].
      intros (_ & _ & files & Hfiles & _). discriminate Hfiles. }
  split.
  { intros input_path. subst ending. cbv beta.
    destruct (fs_makedirs_ok fs); cbn [negb exit_code];
      [|right; reflexivity].
    destruct (input_files fs input_path) as [[|p paths]|e]; cbn [exit_code];
      try (right; reflexivity).
    destruct (existsb _ (p :: paths)); cbn [exit_code];
      [right; reflexivity|].
    destruct (fs_write_ok fs); [left | right]; reflexivity. }
  split.
  { intros num nzero nmul nsum nleb env.
    assert (Hone : forall prog base,
               fst (ComputeSales.main nzero nmul nsum nleb env [prog; base])
               = _) by (intros; apply sales_main_status).
    destruct argv as [|prog [|base [|x rest]]];
      try (split; [right; reflexivity
                  | split; [reflexivity | intros ? ? H; discriminate H]]).
    split; [|split].
    - rewrite Hone.
      destruct (ComputeSales.is_dir env base); cbn [negb];
        [|right; reflexivity].
      destruct (ComputeSales.output_dir_ok env); cbn [negb];
        [|right; reflexivity].
      destruct (ComputeSales.load_base_catalogue env base) as [cat|e].
      + destruct (ComputeSales.iterdir_ok env); cbn [negb];
          [|right; reflexivity].
        destruct (ComputeSales.subfolders env base) as [|tc tcs];
          [right; reflexivity|].
        destruct (ComputeSales.first_escaping (tc :: tcs));
          [right; reflexivity|].
        destruct (ComputeSales.write_ok env); [left | right]; reflexivity.
      + destruct (ComputeSales.caught e); right; reflexivity.
    - intros H. contradiction H. reflexivity.
    - intros prog' base' H. injection H as -> ->. apply Hone. }
  reflexivity.
Qed.

(** ** Binary64: exact results *)

Unset Implicit Arguments.

Section Binary64Exact.

Local Set Default Proof Using "Type".
Open Scope Z_scope.

Lemma digits2_pos_lower (p : positive) :
  2 ^ (Z.pos (digits2_pos p) - 1) <= Z.pos p.
Proof.
  induction p as [p IH|p IH|]; cbn [digits2_pos].
  - rewrite Pos2Z.inj_succ. replace (Z.succ (Z.pos (digits2_pos p)) - 1)
      with (Z.succ (Z.pos (digits2_pos p) - 1)) by lia.
    rewrite Z.pow_succ_r by lia. lia.
  - rewrite Pos2Z.inj_succ. replace (Z.succ (Z.pos (digits2_pos p)) - 1)
      with (Z.succ (Z.pos (digits2_pos p) - 1)) by lia.
    rewrite Z.pow_succ_r by lia. lia.
  - simpl. lia.
Qed.

Lemma shr_1_m (mrs : shr_record) :
  0 <= shr_m mrs -> shr_m (shr_1 mrs) = shr_m mrs / 2.
Proof.
  destruct mrs as [m r s]. cbn [shr_m]. intros Hm.
  rewrite <- Z.div2_div.
  destruct m as [|[p|p|]|p]; try reflexivity; lia.
Qed.

Lemma iter_shr_1_m (k : positive) :
  forall mrs,
    0 <= shr_m mrs ->
    shr_m (iter_pos shr_1 k mrs) = shr_m mrs / 2 ^ Z.pos k.
Proof.
  induction k as [k IH|k IH|]; intros mrs Hm; cbn [iter_pos].
  - assert (H1 : 0 <= shr_m (shr_1 mrs))
      by (rewrite shr_1_m by assumption; apply Z.div_pos; lia).
    assert (Hk : 0 < 2 ^ Z.pos k) by (apply Z.pow_pos_nonneg; lia).
    assert (H2 : 0 <= shr_m (iter_pos shr_1 k (shr_1 mrs)))
      by (rewrite IH by assumption; apply Z.div_pos; lia).
    rewrite IH, IH, shr_1_m by assumption.
    rewrite !Z.div_div by lia. f_equal.
    replace (Z.pos k~1) with (1 + Z.pos k + Z.pos k) by lia.
    rewrite !Z.pow_add_r by lia. change (2 ^ 1) with 2. lia.
  - assert (Hk : 0 < 2 ^ Z.pos k) by (apply Z.pow_pos_nonneg; lia).
    assert (H2 : 0 <= shr_m (iter_pos shr_1 k mrs))
      by (rewrite IH by assumption; apply Z.div_pos; lia).
    rewrite IH, IH by assumption.
    rewrite !Z.div_div by lia. f_equal.
    replace (Z.pos k~0) with (Z.pos k + Z.pos k) by lia.
    rewrite !Z.pow_add_r by lia. lia.
  - rewrite shr_1_m by assumption. reflexivity.
Qed.

(** A right shift by fewer bits than the mantissa has leaves it positive. *)
Lemma shr_positive (mrs : shr_record) (e n : Z) (p : positive) :
  shr_m mrs = Z.pos p ->
  n < Z.pos (digits2_pos p) ->
  exists q, shr_m (fst (shr mrs e n)) = Z.pos q.
Proof.
  intros Hm Hn. unfold shr. destruct n as [|k|k]; cbn [fst];
    try (exists p; assumption).
  rewrite iter_shr_1_m by lia. rewrite Hm.
  assert (H : 0 < Z.pos p / 2 ^ Z.pos k).
  { apply Z.div_str_pos. split; [apply Z.pow_pos_nonneg; lia|].
    eapply Z.le_trans; [|apply digits2_pos_lower].
    apply Z.pow_le_mono_r; lia. }
  destruct (Z.pos p / 2 ^ Z.pos k) as [|q|q]; try lia. exists q. reflexivity.
Qed.

Lemma shr_exponent (mrs : shr_record) (e n : Z) :
  snd (shr mrs e n) = e + Z.max n 0.
Proof. unfold shr. destruct n; cbn [snd]; lia. Qed.

Lemma shr_fexp_positive (p : positive) (e : Z) (l : location) :
  emin <= e ->
  exists q,
    shr_m (fst (shr_fexp prec emax (Z.pos p) e l)) = Z.pos q
    /\ emin <= snd (shr_fexp prec emax (Z.pos p) e l).
Proof.
  intros He. unfold shr_fexp.
  destruct (@shr_positive (shr_record_of_loc (Z.pos p) l) e
              (fexp prec emax (Zdigits2 (Z.pos p) + e) - e) p) as [q Hq].
  - destruct l as [|[]]; reflexivity.
  - unfold fexp, SpecFloat.emin, prec, emax in *. cbn [Zdigits2]. lia.
  - exists q. split; [assumption|].
    rewrite shr_exponent. lia.
Qed.

Lemma round_nearest_even_positive (p : positive) (l : location) :
  exists q, round_nearest_even (Z.pos p) l = Z.pos q.
Proof.
  destruct l as [|[]]; cbn [round_nearest_even];
    try (exists p; reflexivity).
  - destruct (Z.even (Z.pos p)); [exists p | exists (p + 1)%positive];
      reflexivity.
  - exists (p + 1)%positive. reflexivity.
Qed.

(** Rounding a positive mantissa gives a number that is neither 0 nor NaN. *)
Lemma binary_round_aux_positive (sx : bool) (p : positive) (e : Z)
    (l : location) :
  emin <= e ->
  (exists m' e', binary_round_aux prec emax sx (Z.pos p) e l
                 = S754_finite sx m' e')
  \/ binary_round_aux prec emax sx (Z.pos p) e l = S754_infinity sx.
Proof.
  intros He. unfold binary_round_aux.
  destruct (shr_fexp_positive p e l He) as (q1 & Hq1 & He1).
  destruct (shr_fexp prec emax (Z.pos p) e l) as [mrs' e'].
  cbn [fst snd] in Hq1, He1. rewrite Hq1.
  destruct (round_nearest_even_positive q1 (loc_of_shr_record mrs'))
    as [q2 Hq2].
  rewrite Hq2.
  destruct (shr_fexp_positive q2 e' loc_Exact He1) as (q3 & Hq3 & _).
  destruct (shr_fexp prec emax (Z.pos q2) e' loc_Exact) as [mrs'' e''].
  cbn [fst] in Hq3. rewrite Hq3.
  destruct (e'' <=? emax - prec); [left; eauto | right; reflexivity].
Qed.

Lemma binary_normalize_positive (p : positive) :
  (exists m' e', binary_normalize prec emax (Z.pos p) 0 false
                 = S754_finite false m' e')
  \/ binary_normalize prec emax (Z.pos p) 0 false = S754_infinity false.
Proof.
  cbn [binary_normalize]. unfold binary_round.
  destruct (shl_align p 0 (fexp prec emax (Z.pos (digits2_pos p) + 0)))
    as [mz ez] eqn:Hshl.
  apply binary_round_aux_positive.
  unfold shl_align in Hshl.
  destruct (fexp prec emax (Z.pos (digits2_pos p) + 0) - 0) eqn:Hd;
    injection Hshl as <- <-;
    unfold fexp, SpecFloat.emin, prec, emax in *; lia.
Qed.

Lemma float_of_int_positive (count : Z) :
  0 < count < Uint63.wB ->
  (exists m e, Prim2SF (ComputeStatistics.float_of_int count) = S754_finite false m e)
  \/ Prim2SF (ComputeStatistics.float_of_int count) = S754_infinity false.
Proof.
  intros Hc. unfold ComputeStatistics.float_of_int.
  rewrite of_uint63_spec, Uint63.of_Z_spec, Z.mod_small by lia.
  destruct count as [|p|p]; try lia.
  apply binary_normalize_positive.
Qed.

(** Division of a valid number by 1.0 gives the number back. *)
Lemma SFdiv_one (x : spec_float) :
  valid_binary x = true ->
  SFdiv prec emax x (Prim2SF 1) = x.
Proof.
  change (Prim2SF 1) with (S754_finite false 4503599627370496 (-52)).
  destruct x as [s|s| |s m e]; cbn [SFdiv valid_binary];
    rewrite ?xorb_false_r; try reflexivity.
  unfold bounded, canonical_mantissa. intros Hb.
  apply andb_true_iff in Hb as [Hcanon Hle].
  apply Z.eqb_eq in Hcanon. 
  unfold SFdiv_core_binary.
  change (Zdigits2 (Z.pos m)) with (Z.pos (digits2_pos m)).
  change (Zdigits2 4503599627370496) with 53.
  set (d := Z.pos (digits2_pos m)) in *.
  assert (Hcases :
            (d = 53 /\ -1074 < e
             /\ Z.min (fexp prec emax (d + e - (53 + -52))) (e - -52) = e - 1)
            \/ Z.min (fexp prec emax (d + e - (53 + -52))) (e - -52) = e).
  { unfold fexp, SpecFloat.emin, prec, emax in *. lia. }
  destruct Hcases as [(Hd & He & Hmin) | Hmin]; rewrite Hmin.
  - replace (e - -52 - (e - 1)) with 53 by lia.
    rewrite Z.shiftl_mul_pow2 by lia.
    replace (Z.pos m * 2 ^ 53) with (Z.pos m~0 * 4503599627370496) by lia.
    pose proof (Z.div_mul (Z.pos m~0) 4503599627370496 ltac:(lia)) as Hq.
    pose proof (Z.mod_mul (Z.pos m~0) 4503599627370496 ltac:(lia)) as Hr.
    unfold Z.div, Z.modulo in Hq, Hr.
    destruct (Z.div_eucl (Z.pos m~0 * 4503599627370496) 4503599627370496)
      as [q r].
    subst q r.
    change (new_location 4503599627370496 0) with loc_Exact.
    unfold binary_round_aux, shr_fexp.
    change (Zdigits2 (Z.pos m~0)) with (Z.pos (Pos.succ (digits2_pos m))).
    rewrite Pos2Z.inj_succ. fold d.
    replace (fexp prec emax (Z.succ d + (e - 1)) - (e - 1)) with 1
      by (unfold fexp, SpecFloat.emin, prec, emax in *; lia).
    cbn [shr_record_of_loc shr iter_pos shr_1 orb shr_m loc_of_shr_record
         round_nearest_even].
    replace (e - 1 + 1) with e by lia.
    change (Zdigits2 (Z.pos m)) with d.
    rewrite Hcanon, Z.sub_diag.
    cbn [shr shr_m]. rewrite Hle. reflexivity.
  - replace (e - -52 - e) with 52 by lia.
    rewrite Z.shiftl_mul_pow2 by lia.
    replace (Z.pos m * 2 ^ 52) with (Z.pos m * 4503599627370496) by lia.
    pose proof (Z.div_mul (Z.pos m) 4503599627370496 ltac:(lia)) as Hq.
    pose proof (Z.mod_mul (Z.pos m) 4503599627370496 ltac:(lia)) as Hr.
    unfold Z.div, Z.modulo in Hq, Hr.
    destruct (Z.div_eucl (Z.pos m * 4503599627370496) 4503599627370496)
      as [q r].
    subst q r.
    change (new_location 4503599627370496 0) with loc_Exact.
    unfold binary_round_aux, shr_fexp.
    change (Zdigits2 (Z.pos m)) with d.
    rewrite Hcanon, Z.sub_diag.
    cbn [shr_record_of_loc shr shr_m loc_of_shr_record round_nearest_even].
    change (Zdigits2 (Z.pos m)) with d.
    rewrite Hcanon, Z.sub_diag.
    cbn [shr shr_m]. rewrite Hle. reflexivity.
Qed.

Lemma not_nan_spec (v : float) :
  PrimFloat.is_nan v = false -> Prim2SF v <> S754_nan.
Proof.
  unfold PrimFloat.is_nan. rewrite eqb_spec. intros H E. rewrite E in H.
  discriminate.
Qed.

Lemma finite_spec (v : float) :
  PrimFloat.is_finite v = true ->
  (exists s, Prim2SF v = S754_zero s)
  \/ (exists s m e, Prim2SF v = S754_finite s m e).
Proof.
  unfold PrimFloat.is_finite, PrimFloat.is_nan, PrimFloat.is_infinity.
  rewrite !eqb_spec, abs_spec.
  change (Prim2SF infinity) with (S754_infinity false).
  destruct (Prim2SF v) as [s|[]| |s m e]; cbn; intros H; try discriminate.
  - left. exists s. reflexivity.
  - right. exists s, m, e. reflexivity.
Qed.

Lemma SFeqb_same (x : spec_float) (v : float) :
  Prim2SF v = x -> PrimFloat.is_nan v = false -> SFeqb x x = true.
Proof.
  intros <-. unfold PrimFloat.is_nan. rewrite eqb_spec.
  destruct (SFeqb (Prim2SF v) (Prim2SF v)); [reflexivity | discriminate].
Qed.

(** [0.0 + v] divided by the count 1 compares equal to [v]. *)
Lemma mean_of_one (v : float) :
  PrimFloat.is_nan v = false ->
  (((0 + v) / ComputeStatistics.float_of_int 1) =? v)%float = true.
Proof.
  intros Hnan.
  change (ComputeStatistics.float_of_int 1) with 1%float.
  rewrite eqb_spec, div_spec, add_spec.
  change (Prim2SF 0) with (S754_zero false).
  unfold SF64div, SF64add.
  pose proof (Prim2SF_valid v) as Hvalid.
  pose proof (not_nan_spec v Hnan) as Hnn.
  pose proof (fun x E => SFeqb_same x v E Hnan) as Hrefl.
  destruct (Prim2SF v) as [s|s| |s m e] eqn:E.
  - replace (SFadd prec emax (S754_zero false) (S754_zero s))
      with (S754_zero false) by (destruct s; reflexivity).
    rewrite SFdiv_one by reflexivity. reflexivity.
  - cbn [SFadd]. rewrite SFdiv_one by reflexivity.
    apply Hrefl. reflexivity.
  - contradiction.
  - cbn [SFadd]. rewrite SFdiv_one by assumption.
    apply Hrefl. reflexivity.
Qed.

Lemma SFeqb_finite (s1 s2 : bool) (m1 m2 : positive) (e1 e2 : Z) :
  SFeqb (S754_finite s1 m1 e1) (S754_finite s2 m2 e2) = true ->
  s1 = s2 /\ m1 = m2 /\ e1 = e2.
Proof.
  unfold SFeqb. cbn [SFcompare].
  destruct s1, s2; try discriminate;
    destruct (e1 ?= e2) eqn:He; try discriminate;
    apply Z.compare_eq in He;
    destruct (Pos.compare_cont Eq m1 m2) eqn:Hm; try discriminate;
    apply Pcompare_Eq_eq in Hm; auto.
Qed.

(** The difference of a finite value and one that compares equal to it is
    a zero. *)
Lemma sub_equal_is_zero (v m : float) :
  PrimFloat.is_finite v = true ->
  (m =? v)%float = true ->
  exists s, Prim2SF (v - m) = S754_zero s.
Proof.
  intros Hfin Heq. rewrite eqb_spec in Heq. rewrite sub_spec.
  unfold SF64sub.
  destruct (finite_spec v Hfin) as [[sv Ev] | (sv & mv & ev & Ev)];
    rewrite Ev in *.
  - destruct (Prim2SF m) as [sm|sm| |sm mm em]; try discriminate;
      try (destruct sm; discriminate).
    destruct sv, sm; cbn; eauto.
  - destruct (Prim2SF m) as [sm|sm| |sm mm em]; try discriminate;
      try (destruct sm; discriminate); try (destruct sv; discriminate).
    apply SFeqb_finite in Heq as (-> & -> & ->).
    exists false. unfold SFsub. rewrite Z.sub_diag. reflexivity.
Qed.

Lemma zero_plus_square (d : float) (s : bool) :
  Prim2SF d = S754_zero s -> (0 + d * d)%float = 0%float.
Proof.
  intros Hd. apply Prim2SF_inj. rewrite add_spec, mul_spec, Hd.
  destruct s; reflexivity.
Qed.

Lemma variance_loop_constant (v m : float) (values : list float) :
  PrimFloat.is_finite v = true ->
  (m =? v)%float = true ->
  Forall (eq v) values ->
  forall count,
    fst (fold_left (fun '(total, count) value =>
                      let diff := (value - m)%float in
                      ((total + diff * diff)%float, count + 1))
                   values (0%float, count))
    = 0%float.
Proof.
  intros Hfin Heq Hall. induction Hall as [|x values <- _ IH]; intros count.
  - reflexivity.
  - cbn [fold_left]. cbv zeta.
    destruct (sub_equal_is_zero v m Hfin Heq) as [s Hs].
    rewrite (zero_plus_square _ s Hs). apply IH.
Qed.

Lemma zero_over_count (count : Z) :
  0 < count < 2 ^ 63 ->
  (0 / ComputeStatistics.float_of_int count)%float = 0%float.
Proof.
  intros Hc. apply Prim2SF_inj. rewrite div_spec.
  change (Prim2SF 0) with (S754_zero false).
  destruct (float_of_int_positive count Hc) as [(m & e & ->) | ->];
    reflexivity.
Qed.

End Binary64Exact.

(** ** Mean and variance of equal values *)

(** C5, against the claim as stated: three values 0.1 have the computed
    mean 0.10000000000000002 and the computed variance 2^-112, not 0; and
    the mean of the single value NaN does not compare equal to it. *)
Lemma variance_counterexample :
  ComputeStatistics.compute_mean
    [0x1.999999999999ap-4; 0x1.999999999999ap-4; 0x1.999999999999ap-4]%float
  = Ok 0x1.999999999999bp-4%float
  /\ ComputeStatistics.compute_population_variance
       [0x1.999999999999ap-4; 0x1.999999999999ap-4; 0x1.999999999999ap-4]%float
       0x1.999999999999bp-4%float
     = Ok 0x1p-112%float
  /\ (0x1p-112 =? 0)%float = false
  /\ ComputeStatistics.compute_mean [nan] = Ok nan
  /\ (nan =? nan)%float = false.
Proof. repeat split; vm_compute; reflexivity. Qed.

(** C5, amended. The computed mean of a single value that is not NaN
    compares equal to that value. For a dataset, not empty and shorter than
    2^63, in which all values are one finite value, the computed population
    variance is exactly 0 whenever the mean it is given compares equal to
    that value, as the computed mean of a single value does; so the variance
    of every single finite value is exactly 0. *)
Theorem mean_and_variance_of_equal_values :
  forall v : float,
    (PrimFloat.is_nan v = false ->
     exists m, ComputeStatistics.compute_mean [v] = Ok m
               /\ (m =? v)%float = true)
    /\ (forall (values : list float) (m : float),
          values <> [] ->
          Forall (eq v) values ->
          (Z.of_nat (List.length values) < 2 ^ 63)%Z ->
          PrimFloat.is_finite v = true ->
          (m =? v)%float = true ->
          ComputeStatistics.compute_population_variance values m
          = Ok 0%float)
    /\ (PrimFloat.is_finite v = true ->
        exists m, ComputeStatistics.compute_mean [v] = Ok m
                  /\ ComputeStatistics.compute_population_variance [v] m
                     = Ok 0%float)
    /\ ComputeStatistics.compute_mean [2; 2; 2; 2]%float = Ok 2%float
    /\ ComputeStatistics.compute_population_variance [2; 2; 2; 2]%float 2
       = Ok 0%float.
Proof.
  intros v.
  assert (Hmean : PrimFloat.is_nan v = false ->
                  exists m, ComputeStatistics.compute_mean [v] = Ok m
                            /\ (m =? v)%float = true).
  { intros Hnan.
    exists ((0 + v) / ComputeStatistics.float_of_int 1)%float.
    split; [reflexivity | apply mean_of_one; assumption]. }
  assert (Hvar : forall (values : list float) (m : float),
             values <> [] ->
             Forall (eq v) values ->
             (Z.of_nat (List.length values) < 2 ^ 63)%Z ->
             PrimFloat.is_finite v = true ->
             (m =? v)%float = true ->
             ComputeStatistics.compute_population_variance values m
             = Ok 0%float).
  { intros values m Hne Hall Hlen Hfin Heq.
    destruct (@compute_population_variance_nonempty values m Hne)
      as (total & Hrun & Htotal & _).
    rewrite Hrun, Htotal.
    rewrite (variance_loop_constant v m values Hfin Heq Hall 0%Z).
    rewrite zero_over_count; [reflexivity|].
    destruct values; [contradiction | cbn [List.length] in *; lia]. }
  split; [exact Hmean|]. split; [exact Hvar|].
  split; [|split; vm_compute; reflexivity].
  intros Hfin.
  assert (Hnan : PrimFloat.is_nan v = false).
  { unfold PrimFloat.is_finite in Hfin.
    destruct (PrimFloat.is_nan v); [discriminate | reflexivity]. }
  destruct (Hmean Hnan) as (m & Hm & Heq).
  exists m. split; [assumption|].
  apply Hvar; try assumption.
  - discriminate.
  - constructor; [reflexivity | constructor].
  - simpl. lia.
Qed.

(** ** Mode *)

Lemma mode_loop_one_run (v : float) (n : nat) :
  (v =? v)%float = true ->
  forall c : Z,
    ComputeStatistics.mode_loop v (repeat v n)
                                (ComputeStatistics.MkMode 1 c [])
    = (ComputeStatistics.MkMode 1 (c + Z.of_nat n) [], v).
Proof.
  intros Hv. induction n as [|n IH]; intros c.
  - simpl. rewrite Z.add_0_r. reflexivity.
  - cbn [repeat ComputeStatistics.mode_loop]. rewrite Hv.
    cbn [ComputeStatistics.max_count ComputeStatistics.current
         ComputeStatistics.modes].
    rewrite IH. do 2 f_equal. lia.
Qed.

(** Every list of one repeated value is reported to have no mode. *)
Lemma mode_of_one_repeated_value (v : float) (n : nat) :
  (v =? v)%float = true ->
  ComputeStatistics.compute_mode (v :: repeat v n) = None.
Proof.
  intros Hv. unfold ComputeStatistics.compute_mode.
  rewrite (mode_loop_one_run v n Hv 1%Z).
  unfold ComputeStatistics.close_last_run.
  cbn [ComputeStatistics.max_count ComputeStatistics.current
       ComputeStatistics.modes].
  destruct (1 + Z.of_nat n >? 1)%Z; [reflexivity|].
  rewrite andb_false_r. reflexivity.
Qed.

(** C4, where the code departs from the claim. On the sorted list
    [1; 2; 2] the value 2 occurs twice, the highest frequency, yet
    [compute_mode] returns "no mode": the branch after the loop sets [modes]
    without raising [max_count], as the same branch inside the loop does,
    and the final test still sees 1. The same happens on [1; 1], and
    whenever the last run is the only one longer than 1. On
    [1; 1; 2; 2; 3], [1; 1; 2; 2; 2] and [1; 2; 3] the result is as
    claimed. *)
Theorem mode_of_last_run_lost :
  ComputeStatistics.compute_mode [1; 2; 2]%float = None
  /\ ComputeStatistics.modes_by_frequency [1; 2; 2]%float = Some [2%float]
  /\ ComputeStatistics.compute_mode [1; 1]%float = None
  /\ ComputeStatistics.modes_by_frequency [1; 1]%float = Some [1%float]
  /\ ComputeStatistics.compute_mode [1; 1; 2; 2; 3]%float
     = Some [1; 2]%float
  /\ ComputeStatistics.modes_by_frequency [1; 1; 2; 2; 3]%float
     = Some [1; 2]%float
  /\ ComputeStatistics.compute_mode [1; 1; 2; 2; 2]%float = Some [2%float]
  /\ ComputeStatistics.compute_mode [1; 2; 3]%float = None
  /\ ComputeStatistics.modes_by_frequency [1; 2; 3]%float = None.
Proof. repeat split; vm_compute; reflexivity. Qed.

(** ** Instances

    Each theorem above that has a premise, applied at a concrete input, the
    premises checked there. *)

(** C10 at -5 with fuel 10. *)
Lemma conversion_loops_terminate_witness :
  (ConvertNumbers.loop_bound (-5) <= 10)%nat
  /\ ConvertNumbers.to_binary_str_fuel 10 (-5) = Some "-101"%string
  /\ ConvertNumbers.to_hex_str_fuel 10 (-5) = Some "-5"%string
  /\ (0 < 5)%Z
  /\ (0 <= fst (ConvertNumbers.loop_body 2 ConvertNumbers.bit_of (5%Z, []))
      < 5)%Z.
Proof.
  destruct (conversion_loops_terminate (-5)) as [Hfuel Hdecrease].
  assert (Hle : (ConvertNumbers.loop_bound (-5) <= 10)%nat)
    by (vm_compute; lia).
  assert (Hpos : (0 < 5)%Z) by lia.
  destruct (Hfuel 10%nat Hle) as [Hbin Hhex].
  destruct (Hdecrease 5%Z [] Hpos) as [Hdec _].
  split; [exact Hle|]. split; [exact Hbin|]. split; [exact Hhex|].
  split; [exact Hpos | exact Hdec].
Defined.

(** C6 at the token "3.14", whose second character is no digit. *)
Lemma integer_token_validity_witness :
  String.get 1 "3.14" = Some "."%char
  /\ ~ In "."%char ConvertNumbers.decimal_digits
  /\ "3.14"%string <> ""%string
  /\ ConvertNumbers.is_valid_integer_token "3.14" = Ok false.
Proof.
  destruct (integer_token_validity "3.14") as (_ & _ & Hchar & _).
  assert (Hget : String.get 1 "3.14" = Some "."%char) by reflexivity.
  assert (Hnd : ~ In "."%char ConvertNumbers.decimal_digits).
  { intros H. simpl in H.
    repeat (destruct H as [H | H]; [discriminate H|]). exact H. }
  split; [exact Hget|]. split; [exact Hnd|]. split; [discriminate|].
  apply (Hchar 1%nat "."%char Hget Hnd). intros H. discriminate H.
Defined.

(** C9 at the values 1, 2, and at a file of two numbers. *)
Lemma division_by_zero_unreachable_witness :
  [1; 2]%float <> []
  /\ (exists m, ComputeStatistics.compute_mean [1; 2]%float = Ok m)
  /\ (exists v,
        ComputeStatistics.compute_population_variance [1; 2]%float
                                                      0x1.8p+0%float
        = Ok v).
Proof.
  destruct (division_by_zero_unreachable (fun _ => None) "TC1.txt"
              NoSuchFile [1; 2]%float 0x1.8p+0%float)
    as (_ & Hdefined & _).
  assert (Hne : [1; 2]%float <> []) by discriminate.
  destruct (Hdefined Hne) as [Hmean Hvar].
  split; [exact Hne|]. split; [exact Hmean | exact Hvar].
Defined.

(** C5 (amended) at the value 2, three times. *)
Lemma mean_and_variance_of_equal_values_witness :
  PrimFloat.is_nan 2 = false
  /\ PrimFloat.is_finite 2 = true
  /\ [2; 2; 2]%float <> []
  /\ Forall (eq 2%float) [2; 2; 2]%float
  /\ (Z.of_nat (List.length [2; 2; 2]%float) < 2 ^ 63)%Z
  /\ (2 =? 2)%float = true
  /\ (exists m, ComputeStatistics.compute_mean [2%float] = Ok m
                /\ (m =? 2)%float = true)
  /\ ComputeStatistics.compute_population_variance [2; 2; 2]%float 2
     = Ok 0%float.
Proof.
  destruct (mean_and_variance_of_equal_values 2%float)
    as (Hmean & Hvar & _).
  assert (Hnan : PrimFloat.is_nan 2 = false) by reflexivity.
  assert (Hfin : PrimFloat.is_finite 2 = true) by reflexivity.
  assert (Hne : [2; 2; 2]%float <> []) by discriminate.
  assert (Hall : Forall (eq 2%float) [2; 2; 2]%float)
    by (repeat constructor).
  assert (Hlen : (Z.of_nat (List.length [2; 2; 2]%float) < 2 ^ 63)%Z)
    by (vm_compute; reflexivity).
  assert (Heq : (2 =? 2)%float = true) by reflexivity.
  split; [exact Hnan|]. split; [exact Hfin|]. split; [exact Hne|].
  split; [exact Hall|]. split; [exact Hlen|]. split; [exact Heq|].
  split; [exact (Hmean Hnan)|].
  exact (Hvar [2; 2; 2]%float 2%float Hne Hall Hlen Hfin Heq).
Defined.

(** C2 (amended) without an argument, with a folder that holds one TC
    file, and with one argument too many for the sales tool. *)
Lemma exit_codes_by_tool_witness :
  (List.length ["tool"%string] < 2)%nat
  /\ status (ConvertNumbers.main 4300
               (MkFs (fun _ => true) (fun _ => Ok ["TC1.txt"%string])
                     (fun _ => Contents "7 x") true true "/repo")
               ["tool"%string]) = Exit 2
  /\ status (WordCount.main
               (MkFs (fun _ => true) (fun _ => Ok ["TC1.txt"%string])
                     (fun _ => Contents "7 x") true true "/repo")
               ["tool"%string; "data"%string]) = Exit 0
  /\ fst (ComputeSales.main 0%float PrimFloat.mul ComputeSales.float_sum
            PrimFloat.leb
            (ComputeSales.MkEnv (fun _ => true) true (fun _ => []) true true)
            ["tool"%string; "data"%string; "more"%string]) = Exit 1.
Proof.
  pose (fs := MkFs (fun _ => true) (fun _ => Ok ["TC1.txt"%string])
                   (fun _ => Contents "7 x") true true "/repo").
  destruct (exit_codes_by_tool fs (fun _ => None) 4300 ["tool"%string])
    as (Hmissing & _).
  destruct (exit_codes_by_tool fs (fun _ => None) 4300
              ["tool"%string; "data"%string])
    as (_ & Hgiven & _).
  destruct (exit_codes_by_tool fs (fun _ => None) 4300
              ["tool"%string; "data"%string; "more"%string])
    as (_ & _ & _ & _ & _ & Hsales & _).
  assert (Hlen : (List.length ["tool"%string] < 2)%nat) by (simpl; lia).
  destruct (Hmissing Hlen) as (Hconv & _).
  destruct (Hgiven "tool"%string "data"%string [] eq_refl)
    as (_ & _ & Hwc).
  destruct (Hsales float 0%float PrimFloat.mul ComputeSales.float_sum
              PrimFloat.leb
              (ComputeSales.MkEnv (fun _ => true) true (fun _ => []) true
                                  true))
    as (_ & Hnot2 & _).
  split; [exact Hlen|]. split; [exact Hconv|]. split; [exact Hwc|].
  apply Hnot2. simpl. discriminate.
Defined.

(* ================================================================== *)
(** * Further properties of the tools *)
(* ================================================================== *)

(** ** Base conversion: the shape of the output *)

Section ConversionShape.

Import ConvertNumbers.
Local Set Default Proof Using "Type".
Open Scope Z_scope.

Variable base : Z.
Variable digit : Z -> ascii.
Hypothesis base_ge_2 : 2 <= base.

(** The digits that the loop appends: none for 0; for a positive [n] as
    many as [n] has digits in the base, each the digit of a remainder, the
    last one (the most significant) the digit of a remainder that is not
    0. *)
Lemma digits_loop_shape (fuel : nat) :
  forall n digits,
    0 <= n < 2 ^ Z.of_nat fuel ->
    exists out,
      digits_loop base digit fuel (n, digits) = Some (digits ++ out)
      /\ Forall (fun c => exists r, 0 <= r < base /\ c = digit r) out
      /\ (n = 0 -> out = [])
      /\ (0 < n ->
          base ^ (Z.of_nat (List.length out) - 1) <= n
          /\ n < base ^ Z.of_nat (List.length out)
          /\ exists r rest, out = rest ++ [digit r] /\ 0 < r < base).
Proof using base_ge_2.
  induction fuel as [|fuel IH]; intros n digits Hn.
  - assert (n = 0) by (simpl in Hn; lia). subst n.
    exists []. simpl. rewrite app_nil_r.
    split; [reflexivity|]. split; [constructor|].
    split; [reflexivity | lia].
  - destruct (Z.eq_dec n 0) as [-> | Hnz].
    + exists []. simpl. rewrite app_nil_r.
      split; [reflexivity|]. split; [constructor|].
      split; [reflexivity | lia].
    + assert (Hpos : 0 < n) by lia.
      assert (Hr : 0 <= n mod base < base) by (apply Z.mod_pos_bound; lia).
      pose proof (Z.div_mod n base ltac:(lia)) as Hdm.
      assert (Hdiv : 0 <= n / base < 2 ^ Z.of_nat fuel).
      { split; [apply Z.div_pos; lia|].
        apply Z.div_lt_upper_bound; [lia|].
        rewrite Nat2Z.inj_succ, Z.pow_succ_r in Hn by lia.
        assert (0 < 2 ^ Z.of_nat fuel) by (apply Z.pow_pos_nonneg; lia).
        nia. }
      destruct (IH (n / base) (digits ++ [digit (n mod base)]) Hdiv)
        as (out & Hloop & Hall & Hzero & Hshape).
      exists (digit (n mod base) :: out).
      cbn [digits_loop fst].
      replace (n >? 0) with true by (symmetry; apply Z.gtb_lt; lia).
      cbn [loop_body]. rewrite Hloop, <- app_assoc.
      split; [reflexivity|].
      split; [constructor; [exists (n mod base); auto | assumption]|].
      split; [lia|]. intros _.
      destruct (Z.eq_dec (n / base) 0) as [Hq | Hq].
      * rewrite (Hzero Hq). cbn [List.length].
        change (Z.of_nat 1 - 1) with 0. change (Z.of_nat 1) with 1.
        rewrite Z.pow_0_r, Z.pow_1_r.
        split; [lia|]. split; [lia|].
        exists (n mod base), []. split; [reflexivity | lia].
      * destruct (Hshape ltac:(lia)) as (Hlow & Hhigh & r & rest & Hout & Hrr).
        cbn [List.length]. rewrite Nat2Z.inj_succ.
        assert (Hlen : 0 < Z.of_nat (List.length out)).
        { rewrite Hout, length_app. simpl. lia. }
        replace (Z.succ (Z.of_nat (List.length out)) - 1)
          with (Z.succ (Z.of_nat (List.length out) - 1)) by lia.
        rewrite !Z.pow_succ_r by lia.
        split; [nia|]. split; [nia|].
        exists r, (digit (n mod base) :: rest).
        split; [rewrite Hout; reflexivity | assumption].
Qed.

End ConversionShape.

Lemma join_chars_length (cs : list ascii) :
  String.length (join_chars cs) = List.length cs.
Proof. induction cs; simpl; congruence. Qed.

(** The output for a number that is not 0: the sign, then the digits, most
    significant first. *)
Lemma convert_shape (base : Z) (digit : Z -> ascii) (number : Z) :
  (2 <= base)%Z ->
  number <> 0%Z ->
  exists (r : Z) (tail : list ascii),
    ConvertNumbers.convert_fuel base digit
      (ConvertNumbers.loop_bound number) number
    = Some ((if (number <? 0)%Z then "-" else "")
              ++ String (digit r) (join_chars tail))%string
    /\ (0 < r < base)%Z
    /\ Forall (fun c => exists r', (0 <= r' < base)%Z /\ c = digit r') tail
    /\ (base ^ Z.of_nat (List.length tail) <= Z.abs number
        < base ^ (Z.of_nat (List.length tail) + 1))%Z.
Proof.
  intros Hbase Hnz.
  pose proof (@loop_bound_enough number (ConvertNumbers.loop_bound number)
                (le_n _)) as Hb.
  destruct (digits_loop_shape base digit Hbase
              (ConvertNumbers.loop_bound number) (Z.abs number) [] Hb)
    as (out & Hloop & Hall & _ & Hshape).
  destruct (Hshape ltac:(lia)) as (Hlow & Hhigh & r & rest & -> & Hr).
  exists r, (rev rest).
  unfold ConvertNumbers.convert_fuel.
  destruct (Z.eqb_spec number 0) as [|_]; [contradiction|].
  change ([] ++ (rest ++ [digit r])) with (rest ++ [digit r]) in Hloop.
  rewrite length_app in Hlow, Hhigh. cbn [List.length] in Hlow, Hhigh.
  rewrite length_rev.
  replace (Z.of_nat (List.length rest + 1) - 1)%Z
    with (Z.of_nat (List.length rest)) in Hlow by lia.
  replace (Z.of_nat (List.length rest + 1))
    with (Z.of_nat (List.length rest) + 1)%Z in Hhigh by lia.
  assert (Htail : Forall (fun c => exists r', (0 <= r' < base)%Z
                                              /\ c = digit r') (rev rest)).
  { apply Forall_rev. apply Forall_app in Hall. tauto. }
  destruct (Z.ltb_spec number 0) as [Hneg | Hpos].
  - replace (Z.abs number) with (- number)%Z in Hloop by lia.
    rewrite Hloop, rev_app_distr. cbn [rev app join_chars].
    repeat split; try assumption; lia.
  - replace (Z.abs number) with number in Hloop by lia.
    rewrite Hloop, rev_app_distr. cbn [rev app join_chars].
    repeat split; try assumption; lia.
Qed.

(** X1. The binary output of a number that is not 0 is the sign, then the
    digit 1, then as many digits 0 or 1 as the base-2 logarithm of the
    magnitude: its bit length, with no leading zero. *)
Theorem binary_output_shape :
  forall number : Z,
    number <> 0%Z ->
    exists tail : list ascii,
      ConvertNumbers.to_binary_str number
      = ((if (number <? 0)%Z then "-" else "")
           ++ String "1" (join_chars tail))%string
      /\ Z.of_nat (List.length tail) = Z.log2 (Z.abs number)
      /\ Forall (fun c => c = "0"%char \/ c = "1"%char) tail.
Proof.
  intros number Hnz.
  destruct (convert_shape 2 ConvertNumbers.bit_of number ltac:(lia) Hnz)
    as (r & tail & Hrun & Hr & Hall & Hlow & Hhigh).
  exists tail.
  unfold ConvertNumbers.to_binary_str, ConvertNumbers.to_binary_str_fuel.
  rewrite Hrun. assert (r = 1%Z) by lia. subst r.
  split; [reflexivity|]. split.
  - symmetry. apply Z.log2_unique; [lia|]. split; [assumption|].
    replace (Z.succ (Z.of_nat (List.length tail)))
      with (Z.of_nat (List.length tail) + 1)%Z by lia.
    assumption.
  - eapply Forall_impl; [|exact Hall].
    intros c (r' & Hr' & ->).
    assert (r' = 0 \/ r' = 1)%Z as [-> | ->] by lia; auto.
Qed.

(** X1 at -5. *)
Lemma binary_output_shape_witness :
  (-5)%Z <> 0%Z
  /\ exists tail : list ascii,
       ConvertNumbers.to_binary_str (-5)
       = ("-" ++ String "1" (join_chars tail))%string
       /\ Z.of_nat (List.length tail) = Z.log2 (Z.abs (-5))
       /\ Forall (fun c => c = "0"%char \/ c = "1"%char) tail.
Proof.
  assert (Hnz : (-5)%Z <> 0%Z) by discriminate.
  split; [exact Hnz | exact (binary_output_shape (-5)%Z Hnz)].
Defined.

(** X2. The hexadecimal output of a number that is not 0 is the sign, then
    a first digit that is not 0, then digits, all of them characters of
    [HEX_DIGITS]; with [k] digits after the first, the magnitude lies
    between 16^k and 16^(k+1). *)
Theorem hex_output_shape :
  forall number : Z,
    number <> 0%Z ->
    exists (first : ascii) (tail : list ascii),
      ConvertNumbers.to_hex_str number
      = ((if (number <? 0)%Z then "-" else "")
           ++ String first (join_chars tail))%string
      /\ first <> "0"%char
      /\ Forall (fun c => In c (list_ascii_of_string ConvertNumbers.HEX_DIGITS))
                (first :: tail)
      /\ (16 ^ Z.of_nat (List.length tail) <= Z.abs number
          < 16 ^ (Z.of_nat (List.length tail) + 1))%Z.
Proof.
  intros number Hnz.
  destruct (convert_shape 16 ConvertNumbers.hex_digit_of number ltac:(lia) Hnz)
    as (r & tail & Hrun & Hr & Hall & Hbounds).
  exists (ConvertNumbers.hex_digit_of r), tail.
  unfold ConvertNumbers.to_hex_str, ConvertNumbers.to_hex_str_fuel.
  rewrite Hrun.
  assert (Hhex : forall r', (0 <= r' < 16)%Z ->
            In (ConvertNumbers.hex_digit_of r')
               (list_ascii_of_string ConvertNumbers.HEX_DIGITS)).
  { intros r' Hr'.
    assert (Hk : (Z.to_nat r' < 16)%nat) by lia.
    unfold ConvertNumbers.hex_digit_of.
    revert Hk. generalize (Z.to_nat r') as k. intros k Hk.
    do 16 (destruct k as [|k]; [simpl; tauto|]). lia. }
  split; [reflexivity|]. split.
  - intros Hzero.
    pose proof (@hex_digit_of_sound r ltac:(lia)) as Hsound.
    rewrite Hzero in Hsound. cbn in Hsound. injection Hsound as Hsound. lia.
  - split; [|assumption].
    constructor; [apply Hhex; lia|].
    eapply Forall_impl; [|exact Hall].
    intros c (r' & Hr' & ->). apply Hhex. assumption.
Qed.

(** X2 at 255. *)
Lemma hex_output_shape_witness :
  255%Z <> 0%Z
  /\ exists (first : ascii) (tail : list ascii),
       ConvertNumbers.to_hex_str 255
       = String first (join_chars tail)
       /\ first <> "0"%char
       /\ Forall (fun c => In c (list_ascii_of_string ConvertNumbers.HEX_DIGITS))
                 (first :: tail)
       /\ (16 ^ Z.of_nat (List.length tail) <= Z.abs 255
           < 16 ^ (Z.of_nat (List.length tail) + 1))%Z.
Proof.
  assert (Hnz : 255%Z <> 0%Z) by discriminate.
  split; [exact Hnz | exact (hex_output_shape 255%Z Hnz)].
Defined.

(** X3. Different integers have different binary strings and different
    hexadecimal strings. *)
Theorem conversion_injective :
  forall a b : Z,
    a <> b ->
    ConvertNumbers.to_binary_str a <> ConvertNumbers.to_binary_str b
    /\ ConvertNumbers.to_hex_str a <> ConvertNumbers.to_hex_str b.
Proof.
  intros a b Hab.
  destruct (to_binary_str_spec a) as (_ & Hsa & Hva).
  destruct (to_binary_str_spec b) as (_ & Hsb & Hvb).
  destruct (to_hex_str_spec a) as (_ & Hxsa & Hxva).
  destruct (to_hex_str_spec b) as (_ & Hxsb & Hxvb).
  split; intros Heq.
  - rewrite Heq in Hsa, Hva. rewrite Hsb in Hsa. rewrite Hvb in Hva.
    injection Hva as Hva.
    destruct (Z.ltb_spec a 0), (Z.ltb_spec b 0); try discriminate; lia.
  - rewrite Heq in Hxsa, Hxva. rewrite Hxsb in Hxsa. rewrite Hxvb in Hxva.
    injection Hxva as Hxva.
    destruct (Z.ltb_spec a 0), (Z.ltb_spec b 0); try discriminate; lia.
Qed.

(** X3 at 5 and -5. *)
Lemma conversion_injective_witness :
  5%Z <> (-5)%Z
  /\ ConvertNumbers.to_binary_str 5 <> ConvertNumbers.to_binary_str (-5)
  /\ ConvertNumbers.to_hex_str 5 <> ConvertNumbers.to_hex_str (-5).
Proof.
  assert (Hne : 5%Z <> (-5)%Z) by discriminate.
  split; [exact Hne | exact (conversion_injective 5%Z (-5)%Z Hne)].
Defined.

(** ** Parsing: where an error record points *)

Lemma located_in_head (name raw : string) (rest : list string) (first : Z)
    (t : string) :
  In t (flat_map split_ws (split_on "," (strip raw))) ->
  located_in name (raw :: rest) first (Skipped name (first + 1) t).
Proof.
  intros Hin. exists (first + 1)%Z, t. split; [reflexivity|].
  split; [cbn [List.length]; lia|].
  replace (first + 1 - first - 1)%Z with 0%Z by lia. exact Hin.
Qed.

Lemma located_in_tail (name raw : string) (rest : list string) (first : Z)
    (e : error_record) :
  located_in name rest (first + 1) e ->
  located_in name (raw :: rest) first e.
Proof.
  intros (k & t & -> & Hk & Hin). exists k, t. split; [reflexivity|].
  split; [cbn [List.length]; lia|].
  replace (Z.to_nat (k - first - 1))
    with (S (Z.to_nat (k - (first + 1) - 1))) by lia.
  exact Hin.
Qed.

Lemma skipped_located (name raw : string) (rest : list string) (first : Z)
    {A : Type} (classify : string -> option A) :
  Forall (located_in name (raw :: rest) first)
         (map (Skipped name (first + 1))
              (invalid_tokens classify
                 (flat_map split_ws (split_on "," (strip raw))))).
Proof.
  apply Forall_forall. intros e He.
  apply in_map_iff in He as (t & <- & Ht).
  apply located_in_head. apply filter_In in Ht. tauto.
Qed.

Lemma statistics_lines_located (float_of_token : string -> option float)
    (name : string) (raw_lines : list string) :
  forall line_no numbers errors,
  exists new_errors,
    snd (ComputeStatistics.parse_lines float_of_token name line_no raw_lines
                                       (numbers, errors))
    = errors ++ new_errors
    /\ Forall (located_in name raw_lines line_no) new_errors.
Proof.
  induction raw_lines as [|raw rest IH]; intros line_no numbers errors.
  - exists []. simpl. rewrite app_nil_r. split; [reflexivity | constructor].
  - cbn [ComputeStatistics.parse_lines].
    destruct (is_empty (strip raw)).
    + destruct (IH (line_no + 1)%Z numbers errors) as (new & Hrun & Hloc).
      exists new. split; [assumption|].
      eapply Forall_impl; [|exact Hloc]. intros e. apply located_in_tail.
    + unfold ComputeStatistics.line_tokens. rewrite statistics_tokens.
      match goal with
      | |- context [ComputeStatistics.parse_lines _ _ _ _ (?n, ?e)] =>
          destruct (IH (line_no + 1)%Z n e) as (new & Hrun & Hloc)
      end.
      eexists. rewrite Hrun, <- app_assoc. split; [reflexivity|].
      apply Forall_app. split; [apply skipped_located|].
      eapply Forall_impl; [|exact Hloc]. intros e. apply located_in_tail.
Qed.

Lemma convert_lines_located (int_max_str_digits : nat) (name : string)
    (raw_lines : list string) :
  forall line_no numbers errors,
  exists all_numbers new_errors,
    ConvertNumbers.parse_lines int_max_str_digits name line_no raw_lines
                               (numbers, errors)
    = Ok (all_numbers, errors ++ new_errors)
    /\ Forall (located_in name raw_lines line_no) new_errors.
Proof.
  induction raw_lines as [|raw rest IH]; intros line_no numbers errors.
  - exists numbers, []. simpl. rewrite app_nil_r.
    split; [reflexivity | constructor].
  - cbn [ConvertNumbers.parse_lines].
    destruct (is_empty (strip raw)).
    + destruct (IH (line_no + 1)%Z numbers errors)
        as (all & new & Hrun & Hloc).
      exists all, new. split; [assumption|].
      eapply Forall_impl; [|exact Hloc]. intros e. apply located_in_tail.
    + unfold ConvertNumbers.line_tokens.
      rewrite (@convert_tokens int_max_str_digits name (line_no + 1)%Z _
                 (line_tokens_clean (strip raw))).
      cbn [bind].
      match goal with
      | |- context [ConvertNumbers.parse_lines _ _ _ _ (?n, ?e)] =>
          destruct (IH (line_no + 1)%Z n e) as (all & new & Hrun & Hloc)
      end.
      eexists. eexists. rewrite Hrun, <- app_assoc. split; [reflexivity|].
      apply Forall_app. split; [apply skipped_located|].
      eapply Forall_impl; [|exact Hloc]. intros e. apply located_in_tail.
Qed.

(** X4. Every error record of a readable file, in the statistics tool and
    in the conversion tool, is a "skipped" record that carries the file's
    base name, a line number between 1 and the number of lines, and a token
    of that very line. *)
Theorem error_records_located :
  forall (float_of_token : string -> option float) (int_max_str_digits : nat)
         (path text : string),
    (exists numbers errors,
       ComputeStatistics.parse_numbers_from_file float_of_token path
                                                 (Contents text)
       = Ok (numbers, errors)
       /\ Forall (located_in (basename path) (readlines text) 0) errors)
    /\ exists numbers errors,
         ConvertNumbers.parse_integers_from_file int_max_str_digits path
                                                 (Contents text)
         = Ok (numbers, errors)
         /\ Forall (located_in (basename path) (readlines text) 0) errors.
Proof.
  intros float_of_token int_max_str_digits path text. split.
  - cbn [ComputeStatistics.parse_numbers_from_file].
    destruct (statistics_lines_located float_of_token (basename path)
                (readlines text) 0%Z [] []) as (new & Hrun & Hloc).
    destruct (ComputeStatistics.parse_lines float_of_token (basename path) 0
                (readlines text) ([], [])) as [numbers errors].
    cbn [snd app] in Hrun. subst errors.
    exists numbers, new. split; [reflexivity | exact Hloc].
  - cbn [ConvertNumbers.parse_integers_from_file].
    destruct (convert_lines_located int_max_str_digits (basename path)
                (readlines text) 0%Z [] []) as (all & new & Hrun & Hloc).
    exists all, new. split; assumption.
Qed.

(** ** Statistics: median, variance and mode on every list *)

Section StatisticsShape.

Import ComputeStatistics.
Local Set Default Proof Using "Type".
Open Scope Z_scope.

Lemma index_app_middle (left right : list float) (v : float) :
  index (left ++ v :: right) (Z.of_nat (List.length left)) = Ok v.
Proof.
  unfold index. rewrite length_app. cbn [List.length].
  destruct (Z.ltb_spec (Z.of_nat (List.length left)) 0); [lia|].
  destruct (Z.ltb_spec (Z.of_nat (List.length left)) 0); [lia|].
  destruct (Z.leb_spec
              (Z.of_nat (List.length left + S (List.length right)))
              (Z.of_nat (List.length left))); [lia|].
  cbn [orb]. rewrite Nat2Z.id, nth_error_app2, Nat.sub_diag by lia.
  reflexivity.
Qed.

Lemma index_empty (i : Z) : index [] i = Raise IndexError.
Proof.
  unfold index. cbn [List.length].
  destruct (Z.ltb_spec i 0).
  - destruct (Z.ltb_spec (i + Z.of_nat 0) 0); [reflexivity | lia].
  - destruct (Z.leb_spec (Z.of_nat 0) i); [|lia].
    rewrite orb_true_r. reflexivity.
Qed.

(** X5. [compute_median] raises [IndexError] on the empty list; on a list
    of odd length it returns the element that has as many elements before
    it as after it, and on a list of even length the half of the sum of the
    two elements in the middle. *)
Theorem median_is_the_middle :
  forall (left right : list float) (lo hi : float),
    List.length left = List.length right ->
    compute_median [] = Raise IndexError
    /\ compute_median (left ++ lo :: right) = Ok lo
    /\ compute_median (left ++ lo :: hi :: right)
       = Ok (PrimFloat.div (PrimFloat.add lo hi) 2%float).
Proof.
  intros left right lo hi Hlen. split; [|split].
  - unfold compute_median. cbn [List.length].
    change (Z.of_nat 0 mod 2 =? 1) with false. cbv iota.
    rewrite index_empty. reflexivity.
  - unfold compute_median. rewrite length_app. cbn [List.length].
    replace (Z.of_nat (List.length left + S (List.length right)))
      with (1 + Z.of_nat (List.length left) * 2) by lia.
    rewrite Z_mod_plus_full, Z_div_plus_full by lia.
    change (1 mod 2 =? 1) with true. cbv iota.
    change (1 / 2) with 0. rewrite Z.add_0_l. apply index_app_middle.
  - unfold compute_median. rewrite length_app. cbn [List.length].
    replace (Z.of_nat (List.length left + S (S (List.length right))))
      with (0 + (Z.of_nat (List.length left) + 1) * 2) by lia.
    rewrite Z_mod_plus_full, Z_div_plus_full by lia.
    change (0 mod 2 =? 1) with false. cbv iota.
    change (0 / 2) with 0. rewrite Z.add_0_l.
    replace (Z.of_nat (List.length left) + 1 - 1)
      with (Z.of_nat (List.length left)) by lia.
    rewrite index_app_middle. cbn [bind].
    replace (left ++ lo :: hi :: right) with ((left ++ [lo]) ++ hi :: right)
      by (rewrite <- app_assoc; reflexivity).
    replace (Z.of_nat (List.length left) + 1)
      with (Z.of_nat (List.length (left ++ [lo])))
      by (rewrite length_app; cbn [List.length]; lia).
    rewrite index_app_middle. reflexivity.
Qed.

Lemma median_is_the_middle_witness :
  List.length [1%float] = List.length [3%float]
  /\ compute_median [] = Raise IndexError
  /\ compute_median ([1%float] ++ 2%float :: [3%float]) = Ok 2%float
  /\ compute_median ([1%float] ++ 2%float :: 4%float :: [3%float])
     = Ok (PrimFloat.div (PrimFloat.add 2%float 4%float) 2%float).
Proof.
  split; [reflexivity|].
  apply (median_is_the_middle [1%float] [3%float] 2%float 4%float).
  reflexivity.
Defined.

(** X6. On a list that is not empty, whatever it holds (infinities and NaN
    included) and whatever [mean] is given, the population variance is
    returned and does not compare below zero, so [math.sqrt] accepts it:
    the domain error of the square root cannot occur. *)
Theorem variance_is_never_negative :
  forall (values : list float) (mean : float),
    values <> [] ->
    exists variance,
      compute_population_variance values mean = Ok variance
      /\ (variance <? 0)%float = false
      /\ math_sqrt variance = Ok (PrimFloat.sqrt variance).
Proof.
  intros values mean Hne.
  destruct (@compute_population_variance_nonempty values mean Hne)
    as (total & Hvar & _ & Hsign).
  eexists. split; [exact Hvar|].
  pose proof (not_below_zero _ Hsign) as Hlt.
  split; [exact Hlt|].
  unfold math_sqrt. rewrite Hlt. reflexivity.
Qed.

Lemma variance_is_never_negative_witness :
  [1%float; nan; infinity] <> []
  /\ exists variance,
       compute_population_variance [1%float; nan; infinity] 2%float
       = Ok variance
       /\ (variance <? 0)%float = false
       /\ math_sqrt variance = Ok (PrimFloat.sqrt variance).
Proof.
  split; [discriminate|].
  apply (variance_is_never_negative [1%float; nan; infinity] 2%float).
  discriminate.
Defined.

Lemma mode_loop_app (rest tail : list float) :
  forall previous st,
    mode_loop previous (rest ++ tail) st
    = mode_loop (snd (mode_loop previous rest st)) tail
                (fst (mode_loop previous rest st)).
Proof.
  induction rest as [|value rest IH]; intros previous st.
  - reflexivity.
  - cbn [app mode_loop]. destruct (value =? previous)%float; apply IH.
Qed.

Lemma last_cons_default {A : Type} (l : list A) :
  forall x d : A, last (x :: l) d = last l x.
Proof.
  induction l as [|y l IH]; intros x d; [reflexivity|].
  change (last (x :: y :: l) d) with (last (y :: l) d).
  rewrite (IH y d), (IH y x). reflexivity.
Qed.

Lemma mode_loop_no_repeat (rest : list float) :
  forall previous,
    no_repeat_after previous rest = true ->
    mode_loop previous rest (MkMode 1 1 [])
    = (MkMode 1 1 [], last rest previous).
Proof.
  induction rest as [|value rest IH]; intros previous Hrep.
  - reflexivity.
  - cbn [no_repeat_after] in Hrep. apply andb_true_iff in Hrep as [Hne Hrep].
    apply negb_true_iff in Hne.
    cbn [mode_loop]. rewrite Hne.
    change (close_run (MkMode 1 1 []) previous) with (MkMode 1 1 []).
    cbn [max_count modes]. rewrite (IH value Hrep), last_cons_default.
    reflexivity.
Qed.

Lemma mode_loop_last_run (v : float) (n : nat) :
  exists c,
    mode_loop v (repeat v n) (MkMode 1 1 []) = (MkMode 1 c [], v).
Proof.
  destruct (v =? v)%float eqn:Hv.
  - eexists. apply (mode_loop_one_run v n Hv 1).
  - exists 1. induction n as [|n IH]; [reflexivity|].
    cbn [repeat mode_loop]. rewrite Hv.
    change (close_run (MkMode 1 1 []) v) with (MkMode 1 1 []).
    exact IH.
Qed.

(** X7. When no value of a list equals the one before it, except that the
    last value is repeated any number of times at the end, [compute_mode]
    answers "no mode". Without the repetition this is the list of values that
    all differ from their neighbour; with it, the last value occurs more
    often than any other and is still not reported. *)
Theorem mode_none_when_only_last_value_repeats :
  forall (first : float) (rest : list float) (n : nat),
    no_repeat_after first rest = true ->
    compute_mode (first :: rest ++ repeat (last rest first) n) = None.
Proof.
  intros first rest n Hrep. unfold compute_mode.
  rewrite mode_loop_app, (mode_loop_no_repeat rest first Hrep).
  cbn [fst snd].
  destruct (mode_loop_last_run (last rest first) n) as [c Hrun].
  rewrite Hrun. unfold close_last_run. cbn [max_count current modes].
  destruct (c >? 1); [reflexivity|].
  destruct ((c =? 1) && false); reflexivity.
Qed.

Lemma mode_none_when_only_last_value_repeats_witness :
  no_repeat_after 1%float [2%float; 3%float] = true
  /\ compute_mode (1%float :: [2%float; 3%float]
                     ++ repeat (last [2%float; 3%float] 1%float) 4)
     = None.
Proof.
  split; [reflexivity|].
  apply (mode_none_when_only_last_value_repeats 1%float [2%float; 3%float] 4).
  reflexivity.
Defined.

Lemma close_run_invariant (P : float -> Prop) (st : mode_state)
    (previous : float) :
  P previous -> mode_invariant P st ->
  mode_invariant P (close_run st previous).
Proof.
  intros Hp (Hall & Hmax & Hne). unfold close_run.
  destruct (Z.gtb_spec (current st) (max_count st)).
  - split; [|split]; cbn [modes max_count].
    + constructor; [assumption | constructor].
    + lia.
    + discriminate.
  - destruct ((current st =? max_count st) && (current st >? 1)).
    + split; [|split]; cbn [modes max_count].
      * apply Forall_app. split; [assumption|].
        constructor; [assumption | constructor].
      * assumption.
      * intros _ Hnil. apply app_eq_nil in Hnil as [_ Hnil]. discriminate.
    + split; [|split]; assumption.
Qed.

Lemma mode_loop_invariant (P : float -> Prop) (rest : list float) :
  forall previous st,
    P previous -> Forall P rest -> mode_invariant P st ->
    mode_invariant P (fst (mode_loop previous rest st))
    /\ P (snd (mode_loop previous rest st)).
Proof.
  induction rest as [|value rest IH]; intros previous st Hp Hrest Hinv.
  - split; assumption.
  - inversion Hrest as [|? ? Hv Hrest']; subst.
    cbn [mode_loop]. destruct (value =? previous)%float.
    + apply IH; [assumption | assumption |].
      destruct Hinv as (Hall & Hmax & Hne).
      split; [|split]; assumption.
    + apply IH; [assumption | assumption |].
      destruct (close_run_invariant P st previous Hp Hinv) as (Hall & Hmax & Hne).
      split; [|split]; assumption.
Qed.

(** X8. When [compute_mode] reports modes, the list it returns is not empty
    and holds only values of its argument. *)
Theorem modes_come_from_the_data :
  forall (sorted_values reported : list float),
    compute_mode sorted_values = Some reported ->
    reported <> []
    /\ Forall (fun m => In m sorted_values) reported.
Proof.
  intros sorted_values reported. unfold compute_mode.
  destruct sorted_values as [|first rest]; [discriminate|].
  assert (Hinv : mode_invariant (fun m => In m (first :: rest))
                                (MkMode 1 1 [])).
  { split; [constructor|]. cbn [max_count modes]. split; [lia|lia]. }
  destruct (@mode_loop_invariant (fun m => In m (first :: rest)) rest first
              (MkMode 1 1 []) (or_introl eq_refl)) as [Hst Hlast];
    [apply Forall_forall; intros x Hx; right; exact Hx | exact Hinv |].
  destruct (mode_loop first rest (MkMode 1 1 [])) as [st last_value].
  cbn [fst snd] in Hst, Hlast. destruct Hst as (Hall & Hmax & Hne).
  unfold close_last_run.
  destruct (current st >? max_count st).
  - cbn [max_count modes].
    destruct (max_count st =? 1); [discriminate|].
    intros [= <-]. split; [discriminate|].
    constructor; [assumption | constructor].
  - destruct ((current st =? max_count st) && (current st >? 1)).
    + cbn [max_count modes].
      destruct (max_count st =? 1); [discriminate|].
      intros [= <-]. split.
      * intros Hnil. apply app_eq_nil in Hnil as [_ Hnil]. discriminate.
      * apply Forall_app. split; [assumption|].
        constructor; [assumption | constructor].
    + destruct (Z.eqb_spec (max_count st) 1); [discriminate|].
      intros [= <-]. split; [apply Hne; lia | assumption].
Qed.

Lemma modes_come_from_the_data_witness :
  compute_mode [1; 1; 2; 2; 3]%float = Some [1; 2]%float
  /\ [1; 2]%float <> []
  /\ Forall (fun m => In m [1; 1; 2; 2; 3]%float) [1; 2]%float.
Proof.
  split; [reflexivity|].
  apply (modes_come_from_the_data [1; 1; 2; 2; 3]%float [1; 2]%float).
  reflexivity.
Defined.

End StatisticsShape.

(** ** Word count: what the dictionary and the words always satisfy *)

Section WordsShape.

Import WordCount.
Local Set Default Proof Using "Type".
Open Scope Z_scope.

Lemma dict_get_absent (counts : dict) (k : string) :
  dict_get counts k = None -> ~ In k (map fst counts).
Proof.
  induction counts as [|[k' v'] counts IH]; simpl; [tauto|].
  destruct (String.eqb_spec k' k) as [-> | Hne]; [discriminate|].
  intros Hget [Heq | Hin]; [contradiction | exact (IH Hget Hin)].
Qed.

Lemma dict_set_sum (counts : dict) (k : string) (v : Z) :
  fold_right Z.add 0 (map snd (dict_set counts k v))
  = fold_right Z.add 0 (map snd counts) + v
    - match dict_get counts k with Some n => n | None => 0 end.
Proof.
  induction counts as [|[k' v'] counts IH]; simpl; [lia|].
  destruct (String.eqb k' k); simpl; [lia|]. rewrite IH. lia.
Qed.

Lemma dict_set_Forall (P : string * Z -> Prop) (counts : dict) (k : string)
    (v : Z) :
  Forall P counts -> (forall k', P (k', v)) ->
  Forall P (dict_set counts k v).
Proof.
  intros Hall Hv. induction Hall as [|[k' v'] counts Hx Hall IH]; simpl.
  - constructor; [apply Hv | constructor].
  - destruct (String.eqb k' k); constructor; auto.
Qed.

Lemma dict_get_Forall (P : string * Z -> Prop) (counts : dict) (k : string)
    (n : Z) :
  Forall P counts -> dict_get counts k = Some n -> P (k, n).
Proof.
  intros Hall. induction Hall as [|[k' v'] counts Hx Hall IH]; simpl;
    [discriminate|].
  destruct (String.eqb_spec k' k) as [-> | Hne]; [|exact IH].
  intros [= <-]. exact Hx.
Qed.

Lemma count_word_invariant (counts : dict) (word : string) :
  NoDup (map fst counts) -> Forall (fun entry => 1 <= snd entry) counts ->
  NoDup (map fst (count_word counts word))
  /\ Forall (fun entry => 1 <= snd entry) (count_word counts word)
  /\ fold_right Z.add 0 (map snd (count_word counts word))
     = fold_right Z.add 0 (map snd counts) + 1.
Proof.
  intros Hnd Hpos. unfold count_word.
  destruct (dict_get counts word) as [n|] eqn:Hget.
  - pose proof (dict_get_Forall _ counts word n Hpos Hget) as Hn.
    cbn [snd] in Hn.
    rewrite dict_keys_set, dict_set_sum, Hget.
    split; [assumption|]. split; [|lia].
    apply dict_set_Forall; [assumption | intros k'; cbn [snd]; lia].
  - rewrite dict_keys_set, dict_set_sum, Hget.
    split; [|split; [|lia]].
    + apply NoDup_app; [assumption | constructor; [tauto | constructor] |].
      intros x Hx [Heq | []]. subst x.
      exact (dict_get_absent counts word Hget Hx).
    + apply dict_set_Forall; [assumption | intros k'; cbn [snd]; lia].
Qed.

Lemma count_words_invariant (words : list string) :
  forall counts : dict,
    NoDup (map fst counts) -> Forall (fun entry => 1 <= snd entry) counts ->
    NoDup (map fst (fold_left count_word words counts))
    /\ Forall (fun entry => 1 <= snd entry) (fold_left count_word words counts)
    /\ fold_right Z.add 0 (map snd (fold_left count_word words counts))
       = fold_right Z.add 0 (map snd counts) + Z.of_nat (List.length words).
Proof.
  induction words as [|w words IH]; intros counts Hnd Hpos.
  - cbn [fold_left List.length]. split; [assumption|].
    split; [assumption | lia].
  - cbn [fold_left List.length].
    destruct (count_word_invariant counts w Hnd Hpos) as (Hnd' & Hpos' & Hsum).
    destruct (IH _ Hnd' Hpos') as (Hnd'' & Hpos'' & Hsum'').
    split; [assumption|]. split; [assumption|].
    rewrite Hsum'', Hsum. lia.
Qed.

(** X9. In the dictionary that [count_words] returns no word is entered
    twice, every count is at least 1, and the counts add up to the number
    of words counted. *)
Theorem word_counts_add_up :
  forall words : list string,
    NoDup (map fst (count_words words))
    /\ Forall (fun entry => 1 <= snd entry) (count_words words)
    /\ fold_right Z.add 0 (map snd (count_words words))
       = Z.of_nat (List.length words).
Proof.
  intros words. unfold count_words.
  destruct (count_words_invariant words [] (NoDup_nil _) (Forall_nil _))
    as (Hnd & Hpos & Hsum).
  split; [exact Hnd|]. split; [exact Hpos|].
  rewrite Hsum. reflexivity.
Qed.

Lemma lower_char_idempotent (c : ascii) :
  lower_char (lower_char c) = lower_char c.
Proof. destruct c as [[] [] [] [] [] [] [] []]; reflexivity. Qed.

Lemma lower_char_space (c : ascii) :
  lower_char c = " "%char -> c = " "%char.
Proof.
  destruct c as [[] [] [] [] [] [] [] []]; intros H;
    first [reflexivity | exfalso; vm_compute in H; discriminate H].
Qed.

Lemma lower_idempotent (s : string) : lower (lower s) = lower s.
Proof.
  induction s as [|c s IH]; [reflexivity|].
  cbn [lower]. rewrite lower_char_idempotent, IH. reflexivity.
Qed.

Lemma lower_chars (s : string) :
  list_ascii_of_string (lower s) = map lower_char (list_ascii_of_string s).
Proof.
  induction s as [|c s IH]; [reflexivity|].
  cbn [lower list_ascii_of_string map]. rewrite IH. reflexivity.
Qed.

Lemma split_on_scan_no_sep (sep : ascii) (s : string) :
  ~ In sep (list_ascii_of_string (fst (split_on_scan sep s)))
  /\ Forall (fun t => ~ In sep (list_ascii_of_string t))
            (snd (split_on_scan sep s)).
Proof.
  induction s as [|c s IH]; cbn [split_on_scan].
  - split; [intros [] | constructor].
  - destruct (split_on_scan sep s) as [t ts]. cbn [fst snd] in IH.
    destruct IH as [Ht Hts].
    destruct (Ascii.eqb_spec c sep) as [-> | Hne]; cbn [fst snd].
    + split; [intros [] | constructor; assumption].
    + split; [|assumption].
      cbn [list_ascii_of_string]. intros [Heq | Hin]; [congruence | tauto].
Qed.

Lemma split_on_no_sep (sep : ascii) (s t : string) :
  In t (split_on sep s) -> ~ In sep (list_ascii_of_string t).
Proof.
  unfold split_on. pose proof (split_on_scan_no_sep sep s) as [Ht Hts].
  destruct (split_on_scan sep s) as [t0 ts]. cbn [fst snd] in *.
  intros [<- | Hin]; [assumption|].
  rewrite Forall_forall in Hts. apply Hts. assumption.
Qed.

(** X10. Every word that [read_words_from_file] returns is not empty,
    holds no space character, and is in lower case already (lower-casing it
    again changes nothing); a file that cannot be opened gives no word. *)
Theorem words_are_lower_case_tokens :
  forall (path : string) (f : file) (words : list string)
         (errors : list error_record) (word : string),
    read_words_from_file path f = Ok (words, errors) ->
    In word words ->
    word <> ""%string
    /\ lower word = word
    /\ ~ In " "%char (list_ascii_of_string word)
    /\ exists text, f = Contents text.
Proof.
  intros path f words errors word Hread Hin.
  destruct f as [| | |text]; cbn [read_words_from_file] in Hread;
    try (injection Hread as <- _; destruct Hin); try discriminate Hread.
  rewrite read_lines_spec in Hread. cbn [app] in Hread.
  injection Hread as <- _.
  apply in_flat_map in Hin as (raw & _ & Hin).
  unfold line_words in Hin.
  apply in_map_iff in Hin as (token & <- & Htoken).
  apply filter_In in Htoken as [Htoken Hne].
  split; [destruct token; [discriminate Hne | discriminate]|].
  split; [apply lower_idempotent|].
  split; [|exists text; reflexivity].
  rewrite lower_chars. intros Hsp.
  apply in_map_iff in Hsp as (c & Hc & Hin).
  apply lower_char_space in Hc. subst c.
  exact (split_on_no_sep _ _ _ Htoken Hin).
Qed.

Lemma words_are_lower_case_tokens_witness :
  read_words_from_file "f.txt" (Contents "Hello  World")
  = Ok (["hello"; "world"]%string, [])
  /\ In "hello"%string ["hello"; "world"]%string
  /\ "hello"%string <> ""%string
  /\ lower "hello" = "hello"%string
  /\ ~ In " "%char (list_ascii_of_string "hello")
  /\ exists text, Contents "Hello  World" = Contents text.
Proof.
  split; [reflexivity|]. split; [left; reflexivity|].
  apply (words_are_lower_case_tokens "f.txt" (Contents "Hello  World")
                                     ["hello"; "world"]%string [] "hello").
  - reflexivity.
  - left. reflexivity.
Defined.

End WordsShape.

(** ** Sales: cleaning, the console output, one report per folder *)

Lemma filter_three_way {A : Type} (f g : A -> bool) (l : list A) :
  (forall x, f x = true -> g x = false) ->
  Permutation l (filter (fun x => negb (f x || g x)) l
                 ++ filter f l ++ filter g l).
Proof.
  intros Hfg. induction l as [|x l IH]; [constructor|].
  cbn [filter]. destruct (f x) eqn:Hf.
  - rewrite (Hfg x Hf). cbn [orb negb].
    cbn [app]. apply Permutation_cons_app. exact IH.
  - destruct (g x) eqn:Hg; cbn [orb negb].
    + rewrite app_assoc. apply Permutation_cons_app.
      rewrite <- app_assoc. exact IH.
    + cbn [app]. constructor. exact IH.
Qed.

Section SalesShape.

Import ComputeSales.
Local Set Default Proof Using "Type".

Variable num : Type.
Variable nzero : num.
Variable nleb : num -> num -> bool.

Lemma clean_data_errors (df_catalogue : list (catalogue_row num))
    (df_sales : list (sales_row num)) :
  let errors := snd (clean_data nzero nleb df_catalogue df_sales) in
  catalogue_error_rows errors
  = filter (fun r => isna (price r)) df_catalogue
    ++ filter (fun r => non_positive nzero nleb (price r)) df_catalogue
  /\ sales_error_rows errors
     = filter (fun r => isna (quantity r)) df_sales
       ++ filter (fun r => non_positive nzero nleb (quantity r)) df_sales
  /\ Forall (fun g => group_size g <> 0%nat) errors
  /\ (List.length errors <= 4)%nat
  /\ NoDup (map (@group_name num) errors).
Proof.
  unfold clean_data. cbn [snd].
  generalize (filter (fun r => isna (price r)) df_catalogue).
  generalize (filter (fun r => non_positive nzero nleb (price r))
                     df_catalogue).
  generalize (filter (fun r => isna (quantity r)) df_sales).
  generalize (filter (fun r => non_positive nzero nleb (quantity r))
                     df_sales).
  intros d c b a.
  destruct a, b, c, d; cbn; rewrite ?app_nil_r;
    (split; [reflexivity|]); (split; [reflexivity|]);
    (split; [repeat constructor; discriminate|]);
    (split; [lia|]);
    repeat constructor; cbn; intuition discriminate.
Qed.

Lemma clean_data_kept (df_catalogue : list (catalogue_row num))
    (df_sales : list (sales_row num)) :
  let cleaned := fst (clean_data nzero nleb df_catalogue df_sales) in
  Forall (fun r => exists x, price r = Some x /\ nleb x nzero = false)
         (fst cleaned)
  /\ Forall (fun r => exists x, quantity r = Some x /\ nleb x nzero = false)
            (snd cleaned).
Proof.
  unfold clean_data. cbn [fst snd].
  split; apply Forall_forall; intros r Hr;
    apply filter_In in Hr as [_ Hok].
  - destruct (price r) as [x|]; [|discriminate].
    exists x. split; [reflexivity|]. cbn in Hok.
    destruct (nleb x nzero); [discriminate | reflexivity].
  - destruct (quantity r) as [x|]; [|discriminate].
    exists x. split; [reflexivity|]. cbn in Hok.
    destruct (nleb x nzero); [discriminate | reflexivity].
Qed.

End SalesShape.

(** X11. [clean_data] loses no row and repeats none: the rows of each table
    are, up to order, the rows kept together with the rows entered in the
    error groups. Every row kept has a number as price (as quantity) that
    is not [<= 0]. The error dictionary has at most four groups, under
    different names, and none of them is empty. *)
Theorem clean_data_partition :
  forall (num : Type) (nzero : num) (nleb : num -> num -> bool)
         (df_catalogue : list (ComputeSales.catalogue_row num))
         (df_sales : list (ComputeSales.sales_row num)),
    let cleaned := ComputeSales.clean_data nzero nleb df_catalogue df_sales in
    Permutation df_catalogue
                (fst (fst cleaned)
                 ++ ComputeSales.catalogue_error_rows (snd cleaned))
    /\ Permutation df_sales
                   (snd (fst cleaned)
                    ++ ComputeSales.sales_error_rows (snd cleaned))
    /\ Forall (fun r => exists x, ComputeSales.price r = Some x
                                  /\ nleb x nzero = false)
              (fst (fst cleaned))
    /\ Forall (fun r => exists x, ComputeSales.quantity r = Some x
                                  /\ nleb x nzero = false)
              (snd (fst cleaned))
    /\ Forall (fun g => ComputeSales.group_size g <> 0%nat) (snd cleaned)
    /\ (List.length (snd cleaned) <= 4)%nat
    /\ NoDup (map (@ComputeSales.group_name num) (snd cleaned)).
Proof.
  intros num nzero nleb df_catalogue df_sales cleaned. subst cleaned.
  destruct (clean_data_errors num nzero nleb df_catalogue df_sales)
    as (Hcat & Hsales & Hsize & Hlen & Hnames).
  destruct (clean_data_kept num nzero nleb df_catalogue df_sales)
    as (Hprice & Hqty).
  split; [|split; [|repeat split; assumption]].
  - rewrite Hcat. unfold ComputeSales.clean_data. cbn [fst snd].
    apply filter_three_way.
    intros r Hna. destruct (ComputeSales.price r); [discriminate|reflexivity].
  - rewrite Hsales. unfold ComputeSales.clean_data. cbn [fst snd].
    apply filter_three_way.
    intros r Hna.
    destruct (ComputeSales.quantity r); [discriminate|reflexivity].
Qed.

(** X12. [print_errors_to_console] prints one group per entry of the error
    dictionary, headed by the number of its rows; it shows at most 20 rows
    of a group, the rows shown and the rows announced as left out add up to
    the number in the heading, and rows are announced as left out exactly
    when the group has more than 20. *)
Theorem console_shows_at_most_twenty :
  forall (num : Type) (errors : list (ComputeSales.error_group num)),
    map (@ComputeSales.heading_count num)
        (ComputeSales.print_errors_to_console errors)
    = map (@ComputeSales.group_size num) errors
    /\ Forall (fun g =>
                 (ComputeSales.printed_rows g <= 20)%nat
                 /\ (ComputeSales.printed_rows g
                     + ComputeSales.announced_rows g
                     = ComputeSales.heading_count g)%nat
                 /\ (ComputeSales.announced_rows g = 0%nat
                     <-> (ComputeSales.heading_count g <= 20)%nat))
              (ComputeSales.print_errors_to_console errors).
Proof.
  intros num errors. unfold ComputeSales.print_errors_to_console. split.
  - rewrite map_map. apply map_ext. intros [name rows | name rows];
      reflexivity.
  - apply Forall_forall. intros g Hg.
    apply in_map_iff in Hg as (e & <- & _).
    destruct e as [name rows | name rows];
      unfold ComputeSales.printed_rows, ComputeSales.announced_rows,
             ComputeSales.heading_count, ComputeSales.console_preview;
      cbn [ComputeSales.shown_rows ComputeSales.more_rows
           ComputeSales.shown_count];
      rewrite length_firstn;
      destruct (Nat.ltb_spec 20 (List.length rows)); lia.
Qed.

Section SalesReports.

Import ComputeSales.
Local Set Default Proof Using "Type".

Variable num : Type.
Variable nzero : num.
Variable nmul : num -> num -> num.
Variable nsum : list num -> num.
Variable nleb : num -> num -> bool.



Lemma find_some_name (tcs : list (tc_folder num)) (found : tc_folder num) :
  find (fun tc => String.eqb (tc_name tc) "TC1") tcs = Some found ->
  In "TC1"%string (map (@tc_name num) tcs).
Proof using Type.
  intros Hfind. apply find_some in Hfind as [Hin Heq].
  apply String.eqb_eq in Heq. rewrite <- Heq.
  apply in_map. exact Hin.
Qed.

End SalesReports.


(** X14. When the sales tool exits with 0, given the program name and a
    base folder: the base folder has a sub-folder named TC1 whose first
    product list was loaded as the catalogue, and the reports written are
    those of the loop over all sub-folders with that one catalogue, one per
    sub-folder and in their order. *)
Theorem sales_run_reports :
  forall (num : Type) (nzero : num) (nmul : num -> num -> num)
         (nsum : list num -> num) (nleb : num -> num -> bool)
         (env : ComputeSales.environment num) (prog base_folder : string),
    fst (ComputeSales.main nzero nmul nsum nleb env [prog; base_folder])
    = Exit 0 ->
    In "TC1"%string
       (map (@ComputeSales.tc_name num)
            (ComputeSales.subfolders env base_folder))
    /\ exists df_catalogue_base,
         ComputeSales.load_base_catalogue env base_folder
         = Ok df_catalogue_base
         /\ ComputeSales.process_all nzero nmul nsum nleb
              (ComputeSales.subfolders env base_folder) df_catalogue_base
            = Ok (snd (ComputeSales.main nzero nmul nsum nleb env
                                         [prog; base_folder]))
         /\ map (@ComputeSales.report_name num)
                (snd (ComputeSales.main nzero nmul nsum nleb env
                                        [prog; base_folder]))
            = map (@ComputeSales.tc_name num)
                  (ComputeSales.subfolders env base_folder).
Proof.
  intros num nzero nmul nsum nleb env prog base_folder.
  unfold ComputeSales.main.
  destruct (ComputeSales.is_dir env base_folder); cbn [negb];
    [|discriminate].
  destruct (ComputeSales.output_dir_ok env); cbn [negb]; [|discriminate].
  destruct (ComputeSales.load_base_catalogue env base_folder)
    as [cat|e] eqn:Hload;
    [|destruct (ComputeSales.caught e); discriminate].
  assert (Htc1 : In "TC1"%string
                    (map (@ComputeSales.tc_name num)
                         (ComputeSales.subfolders env base_folder))).
  { unfold ComputeSales.load_base_catalogue in Hload.
    destruct (find _ (ComputeSales.subfolders env base_folder))
      as [tc1|] eqn:Hfind; [|discriminate].
    exact (find_some_name num _ tc1 Hfind). }
  destruct (ComputeSales.iterdir_ok env); cbn [negb]; [|discriminate].
  destruct (ComputeSales.subfolders env base_folder) as [|tc tcs] eqn:Hsub;
    [discriminate|].
  pose proof (@process_all_outcome num nzero nmul nsum nleb (tc :: tcs) cat)
    as Hrun.
  destruct (ComputeSales.first_escaping (tc :: tcs)) as [e|].
  - rewrite Hrun. discriminate.
  - destruct Hrun as (reports & Hrun & Hnames & _).
    rewrite Hrun. cbn [fst snd]. intros _.
    split; [exact Htc1|]. exists cat. repeat split; assumption.
Qed.

Lemma sales_run_reports_witness :
  fst (ComputeSales.main 0%Z Z.mul (fold_right Z.add 0%Z) Z.leb
                         ComputeSales.two_test_cases
                         ["compute_sales.py"; "tests"]%string)
  = Exit 0
  /\ map (@ComputeSales.report_name Z)
         (snd (ComputeSales.main 0%Z Z.mul (fold_right Z.add 0%Z) Z.leb
                                 ComputeSales.two_test_cases
                                 ["compute_sales.py"; "tests"]%string))
     = ["TC1"; "TC2"]%string.
Proof.
  split; [reflexivity|].
  destruct (sales_run_reports Z 0%Z Z.mul (fold_right Z.add 0%Z) Z.leb
              ComputeSales.two_test_cases
              "compute_sales.py" "tests" eq_refl)
    as (_ & cat & _ & _ & Hnames).
  exact Hnames.
Defined.

(** ** Names: normalising twice *)

Lemma is_space_lower_char (c : ascii) : is_space (lower_char c) = is_space c.
Proof. destruct c as [[] [] [] [] [] [] [] []]; reflexivity. Qed.

Lemma is_empty_lower (s : string) : is_empty (lower s) = is_empty s.
Proof. destruct s; reflexivity. Qed.

Lemma lstrip_lower (s : string) : lstrip (lower s) = lower (lstrip s).
Proof.
  induction s as [|c s IH]; [reflexivity|].
  cbn [lower lstrip]. rewrite is_space_lower_char.
  destruct (is_space c); [exact IH | reflexivity].
Qed.

Lemma rstrip_lower (s : string) : rstrip (lower s) = lower (rstrip s).
Proof.
  induction s as [|c s IH]; [reflexivity|].
  cbn [lower rstrip]. rewrite IH, is_empty_lower, is_space_lower_char.
  destruct (is_empty (rstrip s) && is_space c); reflexivity.
Qed.

Lemma rstrip_idempotent (s : string) : rstrip (rstrip s) = rstrip s.
Proof.
  induction s as [|c s IH]; [reflexivity|].
  cbn [rstrip]. destruct (is_empty (rstrip s) && is_space c) eqn:Hend;
    [reflexivity|].
  cbn [rstrip]. rewrite IH, Hend. reflexivity.
Qed.

Lemma lstrip_head (s : string) :
  lstrip s = ""%string
  \/ exists c t, lstrip s = String c t /\ is_space c = false.
Proof.
  induction s as [|c s IH]; [left; reflexivity|].
  cbn [lstrip]. destruct (is_space c) eqn:Hc; [exact IH|].
  right. exists c, s. split; [reflexivity | exact Hc].
Qed.

Lemma strip_idempotent (s : string) : strip (strip s) = strip s.
Proof.
  unfold strip.
  assert (Hl : lstrip (rstrip (lstrip s)) = rstrip (lstrip s)).
  { destruct (lstrip_head s) as [-> | (c & t & -> & Hc)]; [reflexivity|].
    cbn [rstrip]. rewrite Hc, andb_false_r. cbn [lstrip]. rewrite Hc.
    reflexivity. }
  rewrite Hl. apply rstrip_idempotent.
Qed.

Lemma normalize_idempotent (name : string) :
  ComputeSales.normalize (ComputeSales.normalize name)
  = ComputeSales.normalize name.
Proof.
  unfold ComputeSales.normalize, strip.
  rewrite lstrip_lower, rstrip_lower. fold (strip name).
  fold (strip (strip name)). rewrite strip_idempotent. apply lower_idempotent.
Qed.

(** X15. Trimming and lower-casing a name that is already trimmed and
    lower-cased changes nothing, so a table that [to_dataframe_catalogue]
    or [to_dataframe_sales] has built is left as it is when it is loaded
    again. *)
Theorem loading_twice_changes_nothing :
  forall (num : Type) (name : string)
         (catalogue : list (ComputeSales.catalogue_row num))
         (sales : list (ComputeSales.sales_row num)),
    ComputeSales.normalize (ComputeSales.normalize name)
    = ComputeSales.normalize name
    /\ (exists df_catalogue,
          ComputeSales.to_dataframe_catalogue (ComputeSales.Table catalogue)
          = Ok df_catalogue
          /\ ComputeSales.to_dataframe_catalogue
               (ComputeSales.Table df_catalogue)
             = Ok df_catalogue)
    /\ (exists df_sales,
          ComputeSales.to_dataframe_sales (ComputeSales.Table sales)
          = Ok df_sales
          /\ ComputeSales.to_dataframe_sales (ComputeSales.Table df_sales)
             = Ok df_sales).
Proof.
  intros num name catalogue sales.
  split; [apply normalize_idempotent|].
  split; eexists; (split; [reflexivity|]);
    cbn [ComputeSales.to_dataframe_catalogue
         ComputeSales.to_dataframe_sales];
    rewrite map_map; f_equal; apply map_ext; intros r;
    cbn [ComputeSales.title ComputeSales.price ComputeSales.product
         ComputeSales.quantity];
    rewrite normalize_idempotent; reflexivity.
Qed.

(** ** The text tools: one section per file; paths *)

Section Sections.

Local Set Default Proof Using "Type".

Lemma for_each_file_names {S E : Type} (name : S -> string)
    (process : string -> result (S * list E)) (paths : list string) :
  (forall path s e, process path = Ok (s, e) -> name s = basename path) ->
  forall ss es,
    for_each_file process paths = Ok (ss, es) ->
    map name ss = map basename paths.
Proof.
  intros Hname. induction paths as [|path paths IH]; intros ss es.
  - cbn [for_each_file]. intros [= <- <-]. reflexivity.
  - cbn [for_each_file].
    destruct (process path) as [[s e]|x] eqn:Hp; [|discriminate].
    cbn [bind].
    destruct (for_each_file process paths) as [[ss' es']|x]; [|discriminate].
    cbn [bind]. intros [= <- <-]. cbn [map].
    rewrite (Hname path s e Hp), (IH ss' es' eq_refl). reflexivity.
Qed.

Lemma text_tool_main_sections {S : Type} (name : S -> string)
    (fs : filesystem) (resolve : string -> string) (prints_per_file : bool)
    (process : string -> result (S * list error_record))
    (prog arg : string) (rest files : list string) :
  (forall path, undecodable (fs_open fs path) = false ->
                exists s e, process path = Ok (s, e)
                            /\ name s = basename path) ->
  (forall path, undecodable (fs_open fs path) = true ->
                process path = Raise UnicodeDecodeError) ->
  fs_makedirs_ok fs = true ->
  input_files fs (resolve arg) = Ok files ->
  if existsb (fun path => undecodable (fs_open fs path)) files
  then status (text_tool_main fs resolve prints_per_file process
                              (prog :: arg :: rest))
       = Uncaught UnicodeDecodeError
       /\ sections (text_tool_main fs resolve prints_per_file process
                                   (prog :: arg :: rest)) = []
  else map name (sections (text_tool_main fs resolve prints_per_file process
                                          (prog :: arg :: rest)))
       = map basename files.
Proof.
  intros Hgood Hbad Hmk Hfiles. unfold text_tool_main.
  rewrite Hmk, Hfiles. cbn [negb].
  destruct files as [|p paths]; [reflexivity|]. cbv beta iota.
  assert (Hreturns : forall path, undecodable (fs_open fs path) = false ->
                                  exists r, process path = Ok r).
  { intros path Hf. destruct (Hgood path Hf) as (s & e & Hp & _).
    eexists. exact Hp. }
  assert (Hname : forall path s e,
             process path = Ok (s, e) -> name s = basename path).
  { intros path s e Hp.
    destruct (undecodable (fs_open fs path)) eqn:Hf.
    - rewrite (Hbad path Hf) in Hp. discriminate.
    - destruct (Hgood path Hf) as (s' & e' & Hp' & Hs).
      rewrite Hp' in Hp. injection Hp as <- _. exact Hs. }
  pose proof (@for_each_file_outcome _ _ process
                (fun path => undecodable (fs_open fs path))
                UnicodeDecodeError (p :: paths) Hreturns Hbad) as Hrun.
  destruct (existsb _ (p :: paths)).
  - rewrite Hrun. split; reflexivity.
  - destruct Hrun as [[report errors] Hrun]. rewrite Hrun. cbn [sections].
    exact (for_each_file_names name process (p :: paths) Hname _ _ Hrun).
Qed.

End Sections.

(** X16. In each of the three text tools, once the output folder exists
    and the files to go through are known (the sorted TC files of the
    folder given, or the one path given): when every one of them can be
    decoded, the report has exactly one section per file, in the order of
    the list, each headed by the base name of its file, and a file that is
    missing or cannot be opened gets its section like any other; when one
    of them is not UTF-8, the run ends in the decoding error, which nothing
    catches, and no report is written. The conversion and the word-count
    tool resolve the argument against the repository root first, the
    statistics tool takes it as given. *)
Theorem one_section_per_file :
  forall (int_max_str_digits : nat)
         (float_of_token : string -> option float)
         (fs : filesystem) (prog arg : string) (rest files : list string),
    fs_makedirs_ok fs = true ->
    let follows (S : Type) (r : run (string * S)) : Prop :=
      if existsb (fun path => undecodable (fs_open fs path)) files
      then status r = Uncaught UnicodeDecodeError /\ sections r = []
      else map (fun section => fst section) (sections r)
           = map basename files in
    (input_files fs (resolve_input_path fs arg) = Ok files ->
     follows _ (ConvertNumbers.main int_max_str_digits fs
                                    (prog :: arg :: rest))
     /\ follows _ (WordCount.main fs (prog :: arg :: rest)))
    /\ (input_files fs arg = Ok files ->
        follows _ (ComputeStatistics.main float_of_token fs
                                          (prog :: arg :: rest))).
Proof.
  intros int_max_str_digits float_of_token fs prog arg rest files Hmk follows.
  subst follows. cbv beta.
  split; [intros Hfiles; split | intros Hfiles].
  - unfold ConvertNumbers.main.
    apply (text_tool_main_sections (fun section => fst section) fs
             (resolve_input_path fs) false); try assumption.
    + intros path Hf.
      destruct (proj1 (convert_file_outcome int_max_str_digits fs path) Hf)
        as (rows & errors & Hrun).
      eexists; eexists. split; [exact Hrun | reflexivity].
    + intros path Hf.
      exact (proj2 (convert_file_outcome int_max_str_digits fs path) Hf).
  - unfold WordCount.main.
    apply (text_tool_main_sections (fun section => fst section) fs
             (resolve_input_path fs) true); try assumption.
    + intros path Hf.
      destruct (proj1 (word_count_step_outcome fs path) Hf)
        as (counts & errors & Hrun).
      eexists; eexists. split; [exact Hrun | reflexivity].
    + intros path Hf. exact (proj2 (word_count_step_outcome fs path) Hf).
  - unfold ComputeStatistics.main.
    apply (text_tool_main_sections (fun section => fst section) fs
             (fun input_path => input_path) false); try assumption.
    + intros path Hf.
      destruct (proj1 (statistics_step_outcome float_of_token fs path) Hf)
        as (body & errors & Hrun).
      eexists; eexists. split; [exact Hrun | reflexivity].
    + intros path Hf.
      exact (proj2 (statistics_step_outcome float_of_token fs path) Hf).
Qed.

Lemma one_section_per_file_witness :
  fs_makedirs_ok
    (MkFs (fun _ => true) (fun _ => Ok ["tc2.txt"; "notes.md"; "TC1.txt"]%string)
          (fun _ => NoSuchFile) true true "/repo") = true
  /\ input_files
       (MkFs (fun _ => true)
             (fun _ => Ok ["tc2.txt"; "notes.md"; "TC1.txt"]%string)
             (fun _ => NoSuchFile) true true "/repo")
       "/repo/data"
     = Ok ["/repo/data/TC1.txt"; "/repo/data/tc2.txt"]%string
  /\ map (fun section => fst section)
         (sections
            (WordCount.main
               (MkFs (fun _ => true)
                     (fun _ => Ok ["tc2.txt"; "notes.md"; "TC1.txt"]%string)
                     (fun _ => NoSuchFile) true true "/repo")
               ["word_count.py"; "data"]%string))
     = ["TC1.txt"; "tc2.txt"]%string.
Proof.
  split; [reflexivity|]. split; [reflexivity|].
  destruct (one_section_per_file
              0 (fun _ => None)
              (MkFs (fun _ => true)
                    (fun _ => Ok ["tc2.txt"; "notes.md"; "TC1.txt"]%string)
                    (fun _ => NoSuchFile) true true "/repo")
              "word_count.py" "data" []
              ["/repo/data/TC1.txt"; "/repo/data/tc2.txt"]%string eq_refl)
    as [Hresolved _].
  destruct (Hresolved eq_refl) as [_ Hwords].
  exact Hwords.
Defined.




(** ** The file list of a folder *)

Lemma ltb_trans (a b c : string) :
  String.ltb a b = true -> String.ltb b c = true -> String.ltb a c = true.
Proof.
  unfold String.ltb. intros Hab Hbc.
  assert (Hlt : forall x y, (match String.compare x y with
                             | Lt => true | _ => false end) = true ->
                            OrderedTypeEx.String_as_OT.lt x y).
  { intros x y H. apply OrderedTypeEx.String_as_OT.cmp_lt.
    change (OrderedTypeEx.String_as_OT.cmp x y) with (String.compare x y).
    destruct (String.compare x y); [discriminate | reflexivity | discriminate]. }
  pose proof (@OrderedTypeEx.String_as_OT.lt_trans a b c (Hlt a b Hab) (Hlt b c Hbc))
    as Hac.
  apply OrderedTypeEx.String_as_OT.cmp_lt in Hac.
  change (OrderedTypeEx.String_as_OT.cmp a c) with (String.compare a c) in Hac.
  rewrite Hac. reflexivity.
Qed.

Lemma ltb_asym (a b : string) :
  String.ltb a b = true -> String.ltb b a = false.
Proof.
  unfold String.ltb. rewrite (String.compare_antisym a b).
  destruct (String.compare b a); [discriminate | discriminate | reflexivity].
Qed.

Lemma insert_by_sorted (x : string) (l : list string) :
  StronglySorted (fun a b => String.ltb b a = false) l ->
  StronglySorted (fun a b => String.ltb b a = false)
                 (insert_by String.ltb x l).
Proof.
  induction l as [|y l IH]; intros Hs; cbn [insert_by].
  - constructor; constructor.
  - inversion Hs as [|? ? Hsl Hall]; subst.
    destruct (String.ltb x y) eqn:Hxy.
    + constructor; [exact Hs|].
      constructor; [apply ltb_asym; exact Hxy|].
      eapply Forall_impl; [|exact Hall]. cbv beta. intros z Hyz.
      destruct (String.ltb z x) eqn:Hzx; [|reflexivity].
      rewrite (ltb_trans _ _ _ Hzx Hxy) in Hyz. discriminate.
    + constructor; [apply IH; exact Hsl|].
      eapply Permutation_Forall;
        [apply Permutation_sym, insert_by_perm|].
      constructor; assumption.
Qed.

Lemma sort_paths_sorted (l : list string) :
  StronglySorted (fun a b => String.ltb b a = false) (sort_paths l).
Proof.
  unfold sort_paths, sort_by. induction l as [|x l IH]; cbn [fold_right].
  - constructor.
  - apply insert_by_sorted. exact IH.
Qed.

(** X18. When the folder can be listed, [list_tc_files] returns, in
    ascending order of the paths (no path comes after a greater one), the
    folder joined with each name of the listing that starts with "tc" and
    ends with ".txt" once lower-cased: every such entry once, and nothing
    else. When [os.listdir] raises, [list_tc_files] raises the same. The
    test does not depend on the case of the name. *)
Theorem tc_files_sorted_and_complete :
  forall (fs : filesystem) (folder_path : string),
    match fs_listdir fs folder_path with
    | Ok names =>
        exists files,
          list_tc_files fs folder_path = Ok files
          /\ StronglySorted (fun a b => String.ltb b a = false) files
          /\ Permutation files
                         (map (path_join folder_path)
                              (filter is_tc_name names))
          /\ (forall path,
                In path files <->
                exists name, In name names
                             /\ is_tc_name name = true
                             /\ path = path_join folder_path name)
    | Raise e => list_tc_files fs folder_path = Raise e
    end
    /\ (forall name, is_tc_name (lower name) = is_tc_name name).
Proof.
  intros fs folder_path. unfold list_tc_files.
  split.
  - destruct (fs_listdir fs folder_path) as [names|e]; [|reflexivity].
    cbn [bind]. eexists. split; [reflexivity|].
    split; [apply sort_paths_sorted|].
    split; [apply sort_by_perm|].
    intros path. unfold sort_paths. split.
    + intros Hin. apply sort_by_In in Hin.
      apply in_map_iff in Hin as (name & <- & Hin).
      apply filter_In in Hin as [Hin Htc].
      exists name. repeat split; assumption.
    + intros (name & Hin & Htc & ->). apply sort_by_In.
      apply in_map. apply filter_In. split; assumption.
  - intros name. unfold is_tc_name. rewrite lower_idempotent. reflexivity.
Qed.

(** ** Tokens that pass the validity check *)

Section AcceptedTokens.

Import ConvertNumbers.
Local Set Default Proof Using "Type".

Lemma digit_is_no_space (c : ascii) : is_digit c = true -> is_space c = false.
Proof.
  intros H. apply is_digit_iff in H. simpl in H.
  repeat (destruct H as [<- | H]; [reflexivity|]). contradiction.
Qed.

Lemma sign_is_no_space (c : ascii) : is_sign c = true -> is_space c = false.
Proof. intros H. apply is_sign_iff in H as [-> | ->]; reflexivity. Qed.

Lemma all_digits_no_space (s : string) :
  all_digits s = true ->
  forall c, In c (list_ascii_of_string s) -> is_space c = false.
Proof.
  induction s as [|c0 s IH]; cbn [all_digits list_ascii_of_string].
  - intros _ c [].
  - destruct (is_digit c0) eqn:Hd; [|discriminate].
    intros Hall c [<- | Hin]; [apply digit_is_no_space; exact Hd|].
    apply IH; assumption.
Qed.

Lemma valid_token_clean (token : string) :
  is_valid_integer_token token = Ok true -> clean_token token.
Proof.
  destruct token as [|c0 rest]; [discriminate|].
  rewrite is_valid_integer_token_cases. intros [= Hvalid].
  split; [discriminate|].
  destruct (is_sign c0) eqn:Hs.
  - apply andb_true_iff in Hvalid as [_ Hall].
    cbn [list_ascii_of_string]. intros c [<- | Hin];
      [apply sign_is_no_space; exact Hs|].
    exact (all_digits_no_space rest Hall c Hin).
  - apply all_digits_no_space. exact Hvalid.
Qed.

(** What [int] makes of a token that passed the validity check. *)
Lemma int_of_valid_token (int_max_str_digits : nat) (token : string) :
  is_valid_integer_token token = Ok true ->
  int_of_token int_max_str_digits token
  = if over_digit_limit int_max_str_digits token then Raise ValueError
    else Ok (if has_minus token
             then (- decimal_value 0 (numeral_digits token))%Z
             else decimal_value 0 (numeral_digits token)).
Proof.
  destruct token as [|c0 rest]; [discriminate|].
  rewrite is_valid_integer_token_cases. intros [= Hvalid].
  unfold int_of_token, over_digit_limit, numeral_digits, has_minus.
  destruct (is_sign c0) eqn:Hs.
  - apply andb_true_iff in Hvalid as [Hne Hall]. apply negb_true_iff in Hne.
    rewrite Hne, Hall. cbn [orb negb]. reflexivity.
  - change (all_digits (String c0 rest) = true) in Hvalid. rewrite Hvalid.
    cbn [is_empty orb negb].
    assert (Hminus : Ascii.eqb c0 "-" = false).
    { unfold is_sign in Hs. apply orb_false_iff in Hs. exact (proj2 Hs). }
    rewrite Hminus. reflexivity.
Qed.

End AcceptedTokens.

(** X19. A token that [is_valid_integer_token] accepts is not empty and
    holds no whitespace, and [int] converts it unless its digits, the sign
    not counted, are more than the interpreter's limit allows: within the
    limit (or with no limit) the loop body of [parse_integers_from_file]
    appends its value, the value of the digits with the sign applied, to the
    numbers; beyond the limit [int] raises [ValueError] and the token is
    recorded as skipped. The handler around [int] is reached in no other
    case. *)
Theorem accepted_tokens_convert :
  forall (int_max_str_digits : nat) (token file_name : string) (line_no : Z)
         (numbers : list Z) (errors : list error_record),
    ConvertNumbers.is_valid_integer_token token = Ok true ->
    let digits := ConvertNumbers.numeral_digits token in
    let value :=
      if ConvertNumbers.has_minus token
      then (- ConvertNumbers.decimal_value 0 digits)%Z
      else ConvertNumbers.decimal_value 0 digits in
    clean_token token
    /\ ConvertNumbers.int_of_token int_max_str_digits token
       = (if ConvertNumbers.over_digit_limit int_max_str_digits token
          then Raise ValueError else Ok value)
    /\ ConvertNumbers.parse_token int_max_str_digits file_name line_no
                                  (numbers, errors) token
       = Ok (if ConvertNumbers.over_digit_limit int_max_str_digits token
             then (numbers, errors ++ [Skipped file_name line_no token])
             else (numbers ++ [value], errors)).
Proof.
  intros int_max_str_digits token file_name line_no numbers errors Hvalid
         digits value.
  pose proof (valid_token_clean token Hvalid) as Hclean.
  pose proof (int_of_valid_token int_max_str_digits token Hvalid) as Hint.
  fold digits in Hint. fold value in Hint.
  assert (Hne : is_empty token = false)
    by (destruct token; [discriminate Hvalid | reflexivity]).
  split; [exact Hclean|]. split; [exact Hint|].
  unfold ConvertNumbers.parse_token.
  rewrite (strip_clean Hclean), Hne, Hvalid. cbn [bind negb].
  rewrite Hint.
  destruct (ConvertNumbers.over_digit_limit int_max_str_digits token);
    reflexivity.
Qed.

Lemma accepted_tokens_convert_witness :
  ConvertNumbers.is_valid_integer_token "-42" = Ok true
  /\ ConvertNumbers.parse_token 4300 "TC1.txt" 1 ([7%Z], []) "-42"
     = Ok ([7%Z; (-42)%Z], [])
  /\ ConvertNumbers.is_valid_integer_token (join_chars (repeat "7"%char 641))
     = Ok true
  /\ ConvertNumbers.parse_token 640 "TC1.txt" 1 ([7%Z], [])
                                (join_chars (repeat "7"%char 641))
     = Ok ([7%Z],
           [Skipped "TC1.txt" 1 (join_chars (repeat "7"%char 641))]).
Proof.
  assert (Hshort : ConvertNumbers.is_valid_integer_token "-42" = Ok true)
    by reflexivity.
  assert (Hlong : ConvertNumbers.is_valid_integer_token
                    (join_chars (repeat "7"%char 641)) = Ok true)
    by (vm_compute; reflexivity).
  split; [exact Hshort|]. split; [|split; [exact Hlong|]].
  - exact (proj2 (proj2 (accepted_tokens_convert
                           4300 "-42" "TC1.txt" 1 [7%Z] [] Hshort))).
  - exact (proj2 (proj2 (accepted_tokens_convert
                           640 (join_chars (repeat "7"%char 641)) "TC1.txt" 1
                           [7%Z] [] Hlong))).
Defined.

(** ** A single input file that does not exist *)



(** ** Sales: the order of the report rows *)

Section SortedRows.

Local Set Default Proof Using "Type".

Variable A : Type.
Variable before : A -> A -> bool.
Hypothesis before_total : forall x y, before x y = false -> before y x = true.
Hypothesis before_trans :
  forall x y z, before x y = true -> before y z = true -> before x z = true.

Lemma insert_by_ordered (x : A) (l : list A) :
  StronglySorted (fun a b => before a b = true) l ->
  StronglySorted (fun a b => before a b = true) (insert_by before x l).
Proof using before_total before_trans.
  induction l as [|y l IH]; intros Hs; cbn [insert_by].
  - constructor; constructor.
  - inversion Hs as [|? ? Hsl Hall]; subst.
    destruct (before x y) eqn:Hxy.
    + constructor; [exact Hs|].
      constructor; [exact Hxy|].
      eapply Forall_impl; [|exact Hall]. cbv beta. intros z Hyz.
      exact (before_trans x y z Hxy Hyz).
    + constructor; [apply IH; exact Hsl|].
      eapply Permutation_Forall;
        [apply Permutation_sym, insert_by_perm|].
      constructor; [apply before_total; exact Hxy | exact Hall].
Qed.

Lemma sort_by_ordered (l : list A) :
  StronglySorted (fun a b => before a b = true) (sort_by before l).
Proof using before_total before_trans.
  unfold sort_by. induction l as [|x l IH]; cbn [fold_right].
  - constructor.
  - apply insert_by_ordered. exact IH.
Qed.

End SortedRows.

(** X21. When [<=] on the numbers is total and transitive (no NaN among
    them), the rows of the report come in descending order of their total
    cost and the missing products in descending order of their quantity:
    no row is followed, at any distance, by a row of greater key. *)
Theorem report_rows_descend :
  forall (num : Type) (nmul : num -> num -> num) (nsum : list num -> num)
         (nleb : num -> num -> bool)
         (df_catalogue : list (ComputeSales.catalogue_row num))
         (df_sales : list (ComputeSales.sales_row num)),
    (forall x y, nleb x y = false -> nleb y x = true) ->
    (forall x y z, nleb x y = true -> nleb y z = true -> nleb x z = true) ->
    StronglySorted
      (fun a b => nleb (ComputeSales.d_total_cost b)
                       (ComputeSales.d_total_cost a) = true)
      (fst (ComputeSales.compute_totals nmul nsum nleb df_catalogue df_sales))
    /\ StronglySorted
         (fun a b => nleb (snd b) (snd a) = true)
         (snd (ComputeSales.compute_totals nmul nsum nleb df_catalogue
                                           df_sales)).
Proof.
  intros num nmul nsum nleb df_catalogue df_sales Htotal Htrans.
  unfold ComputeSales.compute_totals, ComputeSales.sort_desc. cbn [fst snd].
  split.
  - apply (sort_by_ordered _
             (fun x y => nleb (ComputeSales.d_total_cost y)
                              (ComputeSales.d_total_cost x))).
    + intros x y. apply Htotal.
    + intros x y z Hxy Hyz. exact (Htrans _ _ _ Hyz Hxy).
  - apply (sort_by_ordered _ (fun x y : string * num => nleb (snd y) (snd x))).
    + intros x y. apply Htotal.
    + intros x y z Hxy Hyz. exact (Htrans _ _ _ Hyz Hxy).
Qed.

Lemma report_rows_descend_witness :
  (forall x y, Z.leb x y = false -> Z.leb y x = true)
  /\ (forall x y z, Z.leb x y = true -> Z.leb y z = true -> Z.leb x z = true)
  /\ StronglySorted
       (fun a b => Z.leb (ComputeSales.d_total_cost b)
                         (ComputeSales.d_total_cost a) = true)
       (fst (ComputeSales.compute_totals
               Z.mul (fold_right Z.add 0%Z) Z.leb
               [ComputeSales.MkCatalogue "pen" (Some 3%Z);
                ComputeSales.MkCatalogue "ink" (Some 10%Z)]
               [ComputeSales.MkSale "pen" (Some 2%Z);
                ComputeSales.MkSale "ink" (Some 1%Z);
                ComputeSales.MkSale "cap" (Some 5%Z)])).
Proof.
  assert (Htotal : forall x y, Z.leb x y = false -> Z.leb y x = true)
    by (intros x y H; apply Z.leb_le; apply Z.leb_gt in H; lia).
  assert (Htrans : forall x y z,
             Z.leb x y = true -> Z.leb y z = true -> Z.leb x z = true)
    by (intros x y z H1 H2; apply Z.leb_le; apply Z.leb_le in H1, H2; lia).
  split; [exact Htotal|]. split; [exact Htrans|].
  apply (report_rows_descend
           Z Z.mul (fold_right Z.add 0%Z) Z.leb
           [ComputeSales.MkCatalogue "pen" (Some 3%Z);
            ComputeSales.MkCatalogue "ink" (Some 10%Z)]
           [ComputeSales.MkSale "pen" (Some 2%Z);
            ComputeSales.MkSale "ink" (Some 1%Z);
            ComputeSales.MkSale "cap" (Some 5%Z)]
           Htotal Htrans).
Defined.
